(** * vimeo-download: a shallow embedding of [vimeo-download.py]

    The script downloads the audio and video renditions listed in a Vimeo
    [master.json], assembles each track from its segments and muxes the two
    tracks with ffmpeg.  This file embeds the class [VimeoDownload] and the
    batch driver as state-passing functions and proves properties of
    quality selection, URL resolution, segment assembly and muxing. *)

From Stdlib Require Import ZArith QArith Ascii Floats Uint63.
From Stdlib Require String.
From Stdlib.Strings Require Import Byte.
From stdpp Require Import base option list sorting gmap strings pretty.

Local Open Scope Z_scope.

(** ** Python values and exceptions *)

(** The exceptions the script can raise, with the data they carry. *)
Inductive exn : Type :=
  | ValueError (msg : string)
  | IndexError
  | KeyError (key : string)
  | HTTPError (status : Z)
  | JSONDecodeError
  | BinasciiError
  | FileNotFoundError (path : string)
  | OverflowError.

(** The outcome of running a statement: it returns or it raises. *)
Inductive outcome (A : Type) : Type :=
  | Return (a : A)
  | Raise (e : exn).
Arguments Return {A} a.
Arguments Raise {A} e.

(** A computation over a mutable state [S].  The state survives an
    exception, as the attributes of a Python object do. *)
Definition M (S A : Type) : Type := S → outcome A * S.

Definition ret {S A} (a : A) : M S A := λ s, (Return a, s).
Definition raise {S A} (e : exn) : M S A := λ s, (Raise e, s).
Definition bind {S A B} (m : M S A) (k : A → M S B) : M S B :=
  λ s, match m s with
       | (Return a, s') => k a s'
       | (Raise e, s') => (Raise e, s')
       end.
Definition gets {S A} (f : S → A) : M S A := λ s, (Return (f s), s).
Definition modify {S} (f : S → S) : M S unit := λ s, (Return tt, f s).
Definition lift {S A} (r : outcome A) : M S A := λ s, (r, s).

#[global] Instance M_ret {S} : MRet (M S) := λ A, @ret S A.
#[global] Instance M_bind {S} : MBind (M S) := λ A B k m, @bind S A B m k.

(** [for x in l: body], the loop stops at the first exception. *)
Fixpoint for_each {S A} (l : list A) (body : A → M S unit) : M S unit :=
  match l with
  | [] => ret tt
  | x :: l' => body x ;; for_each l' body
  end.

(** [str(n)] and the [{n}] of an f-string, for an int. *)
Definition str (n : Z) : string := pretty n.

Definition tab : string := String (ascii_of_nat 9) EmptyString.
Definition newline : string := String (ascii_of_nat 10) EmptyString.

(** [l[i]]: a negative index counts from the end, an index out of range
    raises [IndexError]. *)
Definition getitem {A} (l : list A) (i : Z) : outcome A :=
  let n := Z.of_nat (length l) in
  let j := if i <? 0 then i + n else i in
  if (j <? 0) || (n <=? j) then Raise IndexError
  else match l !! Z.to_nat j with
       | Some x => Return x
       | None => Raise IndexError
       end.

(** [l.index(x)]: the position of the first element equal to [x]. *)
Fixpoint index_from (x : Z) (l : list Z) (i : nat) : option nat :=
  match l with
  | [] => None
  | y :: l' => if Z.eqb y x then Some i else index_from x l' (S i)
  end.

Definition index (l : list Z) (x : Z) : outcome nat :=
  match index_from x l 0 with
  | Some i => Return i
  | None => Raise (ValueError (str x +:+ " is not in list"))
  end.

(** [max(l)] of a list of ints. *)
Definition max (l : list Z) : outcome Z :=
  match l with
  | [] => Raise (ValueError "max() arg is an empty sequence")
  | x :: l' => Return (foldl Z.max x l')
  end.

(** [x in l]. *)
Definition contains (x : Z) (l : list Z) : bool := existsb (Z.eqb x) l.

(** [l.sort()] and [l.sort(reverse=True)] on ints. *)
Definition sort (l : list Z) : list Z := merge_sort Z.le l.
Definition sort_reverse (l : list Z) : list Z := merge_sort Z.ge l.

(** [s.rfind(c)]: the index of the last [c] in [s], [-1] when there is
    none. *)
Fixpoint rfind_from (c : ascii) (s : string) (i : Z) (last : Z) : Z :=
  match s with
  | EmptyString => last
  | String d s' => rfind_from c s' (i + 1) (if Ascii.eqb d c then i else last)
  end.
Definition rfind (c : ascii) (s : string) : Z := rfind_from c s 0 (-1).

(** [s[:n]] and [s[n:]] for [0 <= n]. *)
Definition take_str (n : Z) (s : string) : string :=
  String.substring 0 (Z.to_nat n) s.
Definition drop_str (n : Z) (s : string) : string :=
  String.substring (Z.to_nat n) (String.length s - Z.to_nat n)%nat s.

(** [s.rstrip('/')]. *)
Fixpoint rstrip_slash (s : string) : string :=
  match s with
  | EmptyString => EmptyString
  | String c s' =>
      match rstrip_slash s' with
      | EmptyString =>
          if Ascii.eqb c "/"%char then EmptyString else String c EmptyString
      | t => String c t
      end
  end.

(** ** [os.path] on POSIX *)

(** [os.path.basename(p)]. *)
Definition basename (p : string) : string := drop_str (rfind "/"%char p + 1) p.

(** [os.path.dirname(p)]: the head up to the last slash, without its
    trailing slashes unless it is made of slashes only. *)
Definition dirname (p : string) : string :=
  let head := take_str (rfind "/"%char p + 1) p in
  match rstrip_slash head with
  | EmptyString => head
  | t => t
  end.

(** [os.path.splitext(p)]: split at the last dot of the last component,
    unless that component has only dots before it. *)
Fixpoint all_dots (s : string) : bool :=
  match s with
  | EmptyString => true
  | String c s' => Ascii.eqb c "."%char && all_dots s'
  end.

Definition splitext (p : string) : string * string :=
  let sepIndex := rfind "/"%char p in
  let dotIndex := rfind "."%char p in
  if (sepIndex <? dotIndex) &&
     negb (all_dots (String.substring (Z.to_nat (sepIndex + 1))
                               (Z.to_nat (dotIndex - (sepIndex + 1))) p))
  then (take_str dotIndex p, drop_str dotIndex p)
  else (p, EmptyString).

(** ** The manifest *)

(** One entry of a rendition's ['segments']. *)
Record Segment : Type := { url : string }.

(** An entry of [master_json['video']]. *)
Module Video.
Record t : Type := {
  id : string;
  width : Z;
  height : Z;
  base_url : string;
  init_segment : string;
  segments : list Segment
}.
End Video.

(** An entry of [master_json['audio']]. *)
Module Audio.
Record t : Type := {
  id : string;
  sample_rate : Z;
  bitrate : Z;
  base_url : string;
  init_segment : string;
  segments : list Segment
}.
End Audio.

(** The parsed [master.json].  The keys ['video'] and ['audio'] and the
    keys of a rendition are those the script reads; the top-level
    ['base_url'] may be missing from the document. *)
Module MasterJson.
Record t : Type := {
  base_url : option string;
  video : list Video.t;
  audio : list Audio.t
}.
End MasterJson.

(** ** Quality tiers *)

Inductive AudioQuality : Type := LOW | MED | HI.

Definition AudioQuality_value (q : AudioQuality) : Z :=
  match q with LOW => 0 | MED => 1 | HI => 2 end.

Inductive VideoQuality : Type :=
  V240 | V360 | V540 | V720 | V1080 | V1440 | V2160 | VMAX.

Definition VideoQuality_value (q : VideoQuality) : Z :=
  match q with
  | V240 => 240 | V360 => 360 | V540 => 540 | V720 => 720
  | V1080 => 1080 | V1440 => 1440 | V2160 => 2160 | VMAX => 0
  end.

#[global] Instance AudioQuality_eq_dec : EqDecision AudioQuality.
Proof. solve_decision. Defined.
#[global] Instance VideoQuality_eq_dec : EqDecision VideoQuality.
Proof. solve_decision. Defined.

(** [AudioQuality[name]] and [VideoQuality[name]]: lookup by member name. *)
Definition AudioQuality_of_name (name : string) : outcome AudioQuality :=
  if String.eqb name "LOW" then Return LOW
  else if String.eqb name "MED" then Return MED
  else if String.eqb name "HI" then Return HI
  else Raise (KeyError name).

Definition VideoQuality_of_name (name : string) : outcome VideoQuality :=
  if String.eqb name "V240" then Return V240
  else if String.eqb name "V360" then Return V360
  else if String.eqb name "V540" then Return V540
  else if String.eqb name "V720" then Return V720
  else if String.eqb name "V1080" then Return V1080
  else if String.eqb name "V1440" then Return V1440
  else if String.eqb name "V2160" then Return V2160
  else if String.eqb name "VMAX" then Return VMAX
  else Raise (KeyError name).

(** ** The outside world *)

(** What [requests.get] hands back: the status and the body as the chunks
    that iterating over the response yields. *)
Record Response : Type := {
  status_code : Z;
  chunks : list (list byte)
}.

(** [response.raise_for_status()] raises for 4xx and 5xx only. *)
Definition raise_for_status (r : Response) : outcome unit :=
  if (400 <=? status_code r) && (status_code r <? 600)
  then Raise (HTTPError (status_code r))
  else Return tt.

(** The collaborators the script calls without defining them.
    - [tty_menu options title]: the index the user picks in the menu;
    - [http_get history u]: the server's answer to a GET of [u] after the
      requests of [history];
    - [json body]: [response.json()], [None] for a malformed body;
    - [b64decode]: [base64.b64decode], [None] when it raises;
    - [abspath]: [os.path.abspath], which depends on the working directory;
    - [ffmpeg audio video]: the exit status of ffmpeg on the two tracks and
      the file it wrote to the output path, if any;
    - [auto_flushed written]: the buffering of [open(path, 'wb')]: of the
      bytes [written] to a file object since it was opened, how many its
      buffer has passed on to the disk by itself, before any [flush()] or
      [close()]. *)
Class Env : Type := {
  tty_menu : list string → string → Z;
  http_get : list string → string → Response;
  json : list byte → option MasterJson.t;
  b64decode : string → option (list byte);
  abspath : string → string;
  ffmpeg : list byte → list byte → Z * option (list byte);
  auto_flushed : list byte → nat
}.

(** The four methods of [VimeoDownload] the driver calls, and the trace of
    their calls and returns, per job of the batch. *)
Inductive method : Type :=
  | Init | ConfigureQuality | DownloadAudioVideo | CombineAudioVideo.

Inductive event : Type :=
  | Enter (job : nat) (m : method)
  | Leave (job : nat) (m : method).

(** The state outside the objects: the files on disk, the file objects
    that are open for writing, the URLs requested so far, the lines
    printed, the menus shown, the shell commands run and the trace of
    method calls.  A file object is known by the path it was opened at
    (the script never has two of them open at one path) and holds the
    bytes written to it since; [files] is what is on the disk. *)
Record World : Type := {
  files : gmap string (list byte);
  handles : gmap string (list byte);
  requests : list string;
  stdout : list string;
  menus : list (list string * string);
  commands : list string;
  trace : list event
}.

Definition with_files (f : gmap string (list byte) → gmap string (list byte))
    (w : World) : World :=
  {| files := f (files w); handles := handles w; requests := requests w;
     stdout := stdout w; menus := menus w; commands := commands w;
     trace := trace w |}.
Definition with_handles
    (f : gmap string (list byte) → gmap string (list byte))
    (w : World) : World :=
  {| files := files w; handles := f (handles w); requests := requests w;
     stdout := stdout w; menus := menus w; commands := commands w;
     trace := trace w |}.
Definition with_requests (f : list string → list string) (w : World) : World :=
  {| files := files w; handles := handles w; requests := f (requests w);
     stdout := stdout w; menus := menus w; commands := commands w;
     trace := trace w |}.
Definition with_stdout (f : list string → list string) (w : World) : World :=
  {| files := files w; handles := handles w; requests := requests w;
     stdout := f (stdout w); menus := menus w; commands := commands w;
     trace := trace w |}.
Definition with_menus
    (f : list (list string * string) → list (list string * string))
    (w : World) : World :=
  {| files := files w; handles := handles w; requests := requests w;
     stdout := stdout w; menus := f (menus w); commands := commands w;
     trace := trace w |}.
Definition with_commands (f : list string → list string) (w : World) : World :=
  {| files := files w; handles := handles w; requests := requests w;
     stdout := stdout w; menus := menus w; commands := f (commands w);
     trace := trace w |}.
Definition with_trace (f : list event → list event) (w : World) : World :=
  {| files := files w; handles := handles w; requests := requests w;
     stdout := stdout w; menus := menus w; commands := commands w;
     trace := f (trace w) |}.

(** ** The object *)

(** The attributes of a [VimeoDownload] once [__init__] has returned:
    [master_json] and [base_url] are set by then, the other four are
    [None] until a later method sets them. *)
Record VimeoDownload : Type := {
  output_file : string;
  master_json_url : string;
  master_json : MasterJson.t;
  base_url : string;
  audio_json : option Audio.t;
  video_json : option Video.t;
  audio_file : option string;
  video_file : option string
}.

Definition set_audio_json (a : Audio.t) (o : VimeoDownload) : VimeoDownload :=
  {| output_file := output_file o; master_json_url := master_json_url o;
     master_json := master_json o; base_url := base_url o;
     audio_json := Some a; video_json := video_json o;
     audio_file := audio_file o; video_file := video_file o |}.
Definition set_video_json (v : Video.t) (o : VimeoDownload) : VimeoDownload :=
  {| output_file := output_file o; master_json_url := master_json_url o;
     master_json := master_json o; base_url := base_url o;
     audio_json := audio_json o; video_json := Some v;
     audio_file := audio_file o; video_file := video_file o |}.
Definition set_audio_file (p : string) (o : VimeoDownload) : VimeoDownload :=
  {| output_file := output_file o; master_json_url := master_json_url o;
     master_json := master_json o; base_url := base_url o;
     audio_json := audio_json o; video_json := video_json o;
     audio_file := Some p; video_file := video_file o |}.
Definition set_video_file (p : string) (o : VimeoDownload) : VimeoDownload :=
  {| output_file := output_file o; master_json_url := master_json_url o;
     master_json := master_json o; base_url := base_url o;
     audio_json := audio_json o; video_json := video_json o;
     audio_file := audio_file o; video_file := Some p |}.

(** A method runs on its object and on the world. *)
Record St : Type := { self : VimeoDownload; world : World }.

Definition on_self (f : VimeoDownload → VimeoDownload) : M St unit :=
  modify (λ s, {| self := f (self s); world := world s |}).

(** Run a computation on the world from inside a method. *)
Definition in_world {A} (m : M World A) : M St A :=
  λ s, let '(r, w) := m (world s) in (r, {| self := self s; world := w |}).

(** ** Primitives of the world *)

Section Primitives.
Context `{Env}.

(** [print(line)]. *)
Definition print (line : string) : M World unit :=
  modify (with_stdout (λ out, out ++ [line])).

(** [requests.get(u)]: the request is logged and the server answers. *)
Definition requests_get (u : string) : M World Response :=
  history ← gets requests;
  modify (with_requests (λ l, l ++ [u]));;
  ret (http_get history u).

(** [response.json()]. *)
Definition response_json (r : Response) : M World MasterJson.t :=
  match json (concat (chunks r)) with
  | Some m => ret m
  | None => raise JSONDecodeError
  end.

(** [tty_menu(options, title)]: the menu is shown and the user picks. *)
Definition show_menu (options : list string) (title : string) : M World Z :=
  modify (with_menus (λ l, l ++ [(options, title)]));;
  ret (tty_menu options title).

(** [open(path, 'wb')] creates the file or truncates it, and the file
    object starts with nothing written. *)
Definition open_wb (path : string) : M World unit :=
  modify (with_files (λ fs, <[path := []]> fs));;
  modify (with_handles (λ hs, <[path := []]> hs)).

(** [file.write(data)] on the file object opened at [path]: the bytes go
    to its buffer, and of all the bytes written so far the disk holds the
    first [auto_flushed]. *)
Definition write (path : string) (data : list byte) : M World unit :=
  hs ← gets handles;
  match hs !! path with
  | Some written =>
      let written := written ++ data in
      modify (with_handles (λ hs, <[path := written]> hs));;
      modify (with_files
                (λ fs, <[path := take (auto_flushed written) written]> fs))
  | None => raise (ValueError "write to closed file")
  end.

(** [file.flush()]: the disk now holds all the bytes written. *)
Definition flush (path : string) : M World unit :=
  hs ← gets handles;
  match hs !! path with
  | Some written => modify (with_files (λ fs, <[path := written]> fs))
  | None => raise (ValueError "flush of closed file")
  end.

(** [file.close()] flushes and closes the file object; closing a closed
    file does nothing. *)
Definition close (path : string) : M World unit :=
  hs ← gets handles;
  match hs !! path with
  | Some written =>
      modify (with_files (λ fs, <[path := written]> fs));;
      modify (with_handles (delete path))
  | None => ret tt
  end.

(** [os.path.exists(path)]. *)
Definition path_exists (path : string) : M World bool :=
  gets (λ w, bool_decide (is_Some (files w !! path))).

(** [os.remove(path)]. *)
Definition os_remove (path : string) : M World unit :=
  fs ← gets files;
  match fs !! path with
  | Some _ => modify (with_files (delete path))
  | None => raise (FileNotFoundError path)
  end.

(** [subprocess.call(command, shell=True)] for the ffmpeg command line
    of the script: ffmpeg reads the two tracks, writes the output file
    when it produces one ([-y] overwrites), and its exit status is the
    value of the call. *)
Definition subprocess_call (command : string) (audio video output : string)
    : M World Z :=
  modify (with_commands (λ l, l ++ [command]));;
  fs ← gets files;
  let '(status, out) :=
    ffmpeg (default [] (fs !! audio)) (default [] (fs !! video)) in
  match out with
  | Some data => modify (with_files (λ fs, <[output := data]> fs))
  | None => ret tt
  end;;
  ret status.
End Primitives.

(** ** class VimeoDownload *)

Section VimeoDownload.
Context `{Env}.

(** *** __init__ *)

(** Lines 55-63: get [master_json]. *)
Definition get_master_json (master_json_url : string) : M World MasterJson.t :=
  response ← requests_get master_json_url;
  (if status_code response =? 410 then
     print ("ERROR: http code [" +:+ str (status_code response)
            +:+ "]. master.json expired, please update url and rerun.");;
     lift (raise_for_status response)
   else ret tt);;
  (if negb (status_code response =? 200) then
     print ("ERROR: received http code [" +:+ str (status_code response)
            +:+ "] when downloading master.json");;
     lift (raise_for_status response)
   else ret tt);;
  response_json response.

(** Lines 65-81: generate [base_url].  The probe is a GET of the first
    segment of the first video rendition under the top-level
    ['base_url']. *)
Definition generate_base_url (master_json_url : string)
    (master_json : MasterJson.t) : M World string :=
  let slash := rfind "/"%char master_json_url in
  let trimmed_url := take_str (slash + 1) master_json_url in
  test_video ← lift (getitem (MasterJson.video master_json) 0);
  top ← match MasterJson.base_url master_json with
        | Some b => ret b
        | None => raise (KeyError "base_url")
        end;
  segment ← lift (getitem (Video.segments test_video) 0);
  response ← requests_get
    (trimmed_url +:+ top +:+ Video.base_url test_video +:+ url segment);
  if status_code response =? 200 then ret (trimmed_url +:+ top)
  else ret trimmed_url.

Definition __init__ (output_file master_json_url : string)
    : M World VimeoDownload :=
  master_json ← get_master_json master_json_url;
  base_url ← generate_base_url master_json_url master_json;
  ret {| output_file := output_file; master_json_url := master_json_url;
         master_json := master_json; base_url := base_url;
         audio_json := None; video_json := None;
         audio_file := None; video_file := None |}.

(** *** Accessors *)

Definition output_filename (o : VimeoDownload) : string :=
  basename (output_file o).

Definition output_directory (o : VimeoDownload) : string :=
  dirname (abspath (output_file o)).

Definition list_widths (o : VimeoDownload) : list Z :=
  Video.width <$> MasterJson.video (master_json o).

Definition list_heights (o : VimeoDownload) : list Z :=
  Video.height <$> MasterJson.video (master_json o).

Definition list_sample_rates (o : VimeoDownload) : list Z :=
  Audio.sample_rate <$> MasterJson.audio (master_json o).

Definition list_bitrates (o : VimeoDownload) : list Z :=
  Audio.bitrate <$> MasterJson.audio (master_json o).

(** *** The interactive menus *)

(** The loop that builds the menu options: entry [index] pairs
    [first[index]] with [second[index]]. *)
Fixpoint menu_options (first second : list Z) (sep : string)
    (indices : list nat) : outcome (list string) :=
  match indices with
  | [] => Return []
  | index :: rest =>
      match getitem first (Z.of_nat index),
            getitem second (Z.of_nat index) with
      | Return a, Return b =>
          match menu_options first second sep rest with
          | Return l => Return ((str a +:+ sep +:+ str b) :: l)
          | Raise e => Raise e
          end
      | Raise e, _ => Raise e
      | _, Raise e => Raise e
      end
  end.

(** Returns the audio bitrate the user picked. *)
Definition _ask_audio_quality : M St Z :=
  o ← gets self;
  let samples := sort_reverse (list_sample_rates o) in
  let bitrates := sort_reverse (list_bitrates o) in
  rates ← lift (menu_options samples bitrates "/" (seq 0 (length samples)));
  index ← in_world (show_menu rates "Audio Quality? (sample_rate/bitrate)");
  lift (getitem bitrates index).

(** Returns the video height the user picked. *)
Definition _ask_video_quality : M St Z :=
  o ← gets self;
  let heights := sort_reverse (list_heights o) in
  let widths := sort_reverse (list_widths o) in
  resolutions ← lift (menu_options widths heights "x" (seq 0 (length heights)));
  index ← in_world (show_menu resolutions "Video Quality? (width x height)");
  lift (getitem heights index).

(** *** configure_quality *)

(** [float(n)], the conversion that [height * 0.95] applies to its int
    operand: the double nearest to [n], ties to even, and [OverflowError]
    ("int too large to convert to float") when that double would be beyond
    the largest one, which is the case from [2^1024 - 2^970] on. *)
Definition float_overflow : Z := Eval vm_compute in 2 ^ 1024 - 2 ^ 970.

Definition float_of_int (n : Z) : outcome float :=
  if float_overflow <=? Z.abs n then Raise OverflowError
  else Return (SF2Prim (binary_normalize prec emax n 0 false)).

(** [x <= n] and [n <= x] for a float [x] and an int [n]: Python compares
    the two numbers exactly, without rounding the int. *)
Definition float_le_int (x : float) (n : Z) : bool :=
  match Prim2SF x with
  | S754_zero _ => 0 <=? n
  | S754_infinity negative => negative
  | S754_nan => false
  | S754_finite negative m e =>
      let mantissa := if negative then Z.neg m else Z.pos m in
      if 0 <=? e then mantissa * 2 ^ e <=? n else mantissa <=? n * 2 ^ (- e)
  end.

Definition int_le_float (n : Z) (x : float) : bool :=
  match Prim2SF x with
  | S754_zero _ => n <=? 0
  | S754_infinity negative => negb negative
  | S754_nan => false
  | S754_finite negative m e =>
      let mantissa := if negative then Z.neg m else Z.pos m in
      if 0 <=? e then n <=? mantissa * 2 ^ e else n * 2 ^ (- e) <=? mantissa
  end.

(** The test of the fuzzy search,
    [(height * 0.95) <= value <= (height * 1.05)]: the two products are
    computed in double precision, the literals are the doubles nearest to
    0.95 and 1.05, and the second product is computed only when the first
    comparison holds.  The conversion of [height] is what can raise. *)
Definition within_5_percent (height value : Z) : outcome bool :=
  match float_of_int height with
  | Raise e => Raise e
  | Return h =>
      Return (float_le_int (PrimFloat.mul h 0x1.e666666666666p-1%float) value
              && int_le_float value
                   (PrimFloat.mul h 0x1.0cccccccccccdp+0%float))
  end.

(** The loop over [enumerate(heights)]: the position of the first height
    that passes the test, [None] when the loop ends without a [break]. *)
Fixpoint fuzzy_search (value : Z) (heights : list Z) (index : nat)
    : outcome (option nat) :=
  match heights with
  | [] => Return None
  | height :: rest =>
      match within_5_percent height value with
      | Raise e => Raise e
      | Return true => Return (Some index)
      | Return false => fuzzy_search value rest (S index)
      end
  end.

(** Process audio quality: the bitrate to look for. *)
Definition process_audio_quality (audio_quality : option AudioQuality)
    : M St Z :=
  match audio_quality with
  | None => _ask_audio_quality
  | Some q =>
      o ← gets self;
      let bitrates := sort (list_bitrates o) in
      if decide (q = HI) then lift (getitem bitrates (-1))
      else lift (getitem bitrates (AudioQuality_value q))
  end.

(** Set audio quality: bind the first rendition with that bitrate. *)
Definition set_audio_quality (bitrate : Z) : M St unit :=
  o ← gets self;
  index ← lift (index (list_bitrates o) bitrate);
  a ← lift (getitem (MasterJson.audio (master_json o)) (Z.of_nat index));
  on_self (set_audio_json a).

(** Process video quality: the height to look for. *)
Definition process_video_quality (interactive_fallback : bool)
    (video_quality : option VideoQuality) : M St Z :=
  match video_quality with
  | None => _ask_video_quality
  | Some q =>
      o ← gets self;
      if decide (q = VMAX) then lift (max (list_heights o))
      else if contains (VideoQuality_value q) (list_heights o)
      then ret (VideoQuality_value q)
      else
        let heights := list_heights o in
        position ← lift (fuzzy_search (VideoQuality_value q) heights 0);
        match position with
        | Some position => lift (getitem heights (Z.of_nat position))
        | None =>
            if interactive_fallback then
              in_world (print (str (VideoQuality_value q)
                               +:+ "p is not available. See options below"));;
              _ask_video_quality
            else
              raise (ValueError ("Unable to find video quality matching "
                                 +:+ str (VideoQuality_value q) +:+ "p"))
        end
  end.

(** Set video quality: bind the first rendition with that height. *)
Definition set_video_quality (height : Z) : M St unit :=
  o ← gets self;
  index ← lift (index (list_heights o) height);
  v ← lift (getitem (MasterJson.video (master_json o)) (Z.of_nat index));
  on_self (set_video_json v).

Definition report_quality : M St unit :=
  o ← gets self;
  match video_json o, audio_json o with
  | Some v, Some a =>
      in_world (print "---- quality configuration ----");;
      in_world (print ("video" +:+ tab +:+ str (Video.width v) +:+ "x"
                       +:+ str (Video.height v)));;
      in_world (print ("audio" +:+ tab +:+ str (Audio.sample_rate a) +:+ "/"
                       +:+ str (Audio.bitrate a)))
  | _, _ => ret tt
  end.

Definition configure_quality (interactive_fallback : bool)
    (audio_quality : option AudioQuality)
    (video_quality : option VideoQuality) : M St unit :=
  if negb interactive_fallback
     && (bool_decide (audio_quality = None)
         || bool_decide (video_quality = None))
  then raise (ValueError
    "Must provide audio and video quality when interactive == False")
  else
    o ← gets self;
    in_world (print (newline +:+ "======== " +:+ output_filename o
                     +:+ " ========"));;
    bitrate ← process_audio_quality audio_quality;
    set_audio_quality bitrate;;
    height ← process_video_quality interactive_fallback video_quality;
    set_video_quality height;;
    report_quality.

(** *** download_audio_video *)

(** The loop over the segments of one track: each segment is fetched at
    [track_base_url + segment['url']] and its chunks are written to the
    file object.  [kind] is the word of the error message. *)
Definition download_segments (kind : string) (track_base_url : string)
    (file : string) (segments : list Segment) : M World unit :=
  for_each segments (λ segment,
    let segment_url := track_base_url +:+ url segment in
    response ← requests_get segment_url;
    (if negb (status_code response =? 200) then
       print ("ERROR: received http code [" +:+ str (status_code response)
              +:+ "] when downloading " +:+ kind);;
       lift (raise_for_status response)
     else ret tt);;
    for_each (chunks response) (λ chunk, write file chunk)).

(** [base64.b64decode(s)]. *)
Definition decode_init_segment (s : string) : M World (list byte) :=
  match b64decode s with
  | Some data => ret data
  | None => raise BinasciiError
  end.

(** The name of a track file. *)
Definition track_file (o : VimeoDownload) (kind id ext : string) : string :=
  let name := fst (splitext (output_filename o)) in
  output_directory o +:+ "/" +:+ name +:+ "_" +:+ kind +:+ "_" +:+ id
    +:+ ext.

(** The body of [download_audio_video] for the renditions [a] and [v]
    bound to the object [o]. *)
Definition download_tracks (o : VimeoDownload) (a : Audio.t) (v : Video.t)
    : M St unit :=
  in_world (print (newline +:+ "======== " +:+ output_filename o
                   +:+ " ========"));;
  in_world (print "---- downloading audio and video ----");;
  (* the output directory is created here; directories are not part of
     the model *)
  (* download audio file *)
  let audio_base_url := base_url o +:+ Audio.base_url a in
  let audio_file := track_file o "audio" (Audio.id a) ".m4a" in
  on_self (set_audio_file audio_file);;
  in_world (open_wb audio_file);;
  init_segment ← in_world (decode_init_segment (Audio.init_segment a));
  in_world (write audio_file init_segment);;
  in_world (download_segments "audio" audio_base_url audio_file
              (Audio.segments a));;
  in_world (flush audio_file);;
  in_world (close audio_file);;
  (* create video file *)
  let video_base_url := base_url o +:+ Video.base_url v in
  let video_file := track_file o "video" (Video.id v) ".mp4" in
  on_self (set_video_file video_file);;
  in_world (open_wb video_file);;
  init_segment ← in_world (decode_init_segment (Video.init_segment v));
  in_world (write video_file init_segment);;
  in_world (download_segments "video" video_base_url video_file
              (Video.segments v));;
  (* video cleanup *)
  in_world (flush video_file);;
  in_world (close video_file).

Definition download_audio_video : M St unit :=
  o ← gets self;
  match audio_json o, video_json o with
  | Some a, Some v => download_tracks o a v
  | _, _ =>
      raise (ValueError
        "Error: must configure_quality() before calling download_audio_video()")
  end.

(** *** combine_audio_video *)

Definition quote : string := String (ascii_of_nat 34) EmptyString.

Definition ffmpeg_command (audio video output : string) : string :=
  "ffmpeg -v quiet -stats -y -i " +:+ quote +:+ audio +:+ quote
    +:+ " -i " +:+ quote +:+ video +:+ quote
    +:+ " " +:+ quote +:+ output +:+ quote.

Definition combine_audio_video : M St unit :=
  o ← gets self;
  match audio_file o, video_file o with
  | Some af, Some vf =>
      has_audio ← in_world (path_exists af);
      has_video ← in_world (path_exists vf);
      if negb has_audio || negb has_video then
        raise (ValueError
          "Error: unable to find specified audio and video files to be combined.")
      else
        in_world (print (newline +:+ "======== " +:+ output_filename o
                         +:+ " ========"));;
        in_world (print "---- combining audio and video ----");;
        (* combine using ffmpeg; the exit status is dropped *)
        in_world (subprocess_call (ffmpeg_command af vf (output_file o))
                    af vf (output_file o));;
        (* delete stream files *)
        in_world (os_remove af);;
        in_world (os_remove vf)
  | _, _ =>
      raise (ValueError
        "Error: must download_audio_video() before calling combine_audio_video()")
  end.
End VimeoDownload.

(** ** The batch driver *)

Section Main.
Context `{Env}.

(** Run a method on an object: the object after the call is handed back
    with the value. *)
Definition call {A} (o : VimeoDownload) (c : M St A)
    : M World (A * VimeoDownload) :=
  λ w, match c {| self := o; world := w |} with
       | (Return a, s) => (Return (a, self s), world s)
       | (Raise e, s) => (Raise e, world s)
       end.

(** Record the call and the return of a method in the trace. *)
Definition traced {A} (job : nat) (m : method) (c : M World A) : M World A :=
  modify (with_trace (λ t, t ++ [Enter job m]));;
  x ← c;
  modify (with_trace (λ t, t ++ [Leave job m]));;
  ret x.

(** [video, audio, output, url = row]. *)
Definition unpack_row (row : list string)
    : outcome (string * string * string * string) :=
  match row with
  | [video; audio; output; url] => Return (video, audio, output, url)
  | _ :: _ :: _ :: _ :: _ :: _ =>
      Raise (ValueError "too many values to unpack (expected 4)")
  | _ =>
      Raise (ValueError ("not enough values to unpack (expected 4, got "
                         +:+ str (Z.of_nat (length row)) +:+ ")"))
  end.

(** [Quality[name] if name else None]. *)
Definition quality_of_field {Q} (of_name : string → outcome Q)
    (name : string) : outcome (option Q) :=
  if String.eqb name EmptyString then Return None
  else match of_name name with
       | Return q => Return (Some q)
       | Raise e => Raise e
       end.

(** The first loop: every row is fetched and configured, and the object
    joins [request_list]. *)
Fixpoint parse_tsv_file (rows : list (list string)) (job : nat)
    : M World (list VimeoDownload) :=
  match rows with
  | [] => ret []
  | row :: rest =>
      '(video, audio, output, url) ← lift (unpack_row row);
      download ← traced job Init (__init__ output url);
      video_quality ← lift (quality_of_field VideoQuality_of_name video);
      audio_quality ← lift (quality_of_field AudioQuality_of_name audio);
      '(_, download) ← traced job ConfigureQuality
        (call download (configure_quality true audio_quality video_quality));
      request_list ← parse_tsv_file rest (S job);
      ret (download :: request_list)
  end.

(** [for download in request_list: download.m()]: the objects are
    shared with [request_list], so what the method sets on them is seen
    by the next loop. *)
Fixpoint for_requests (m : method) (c : M St unit)
    (request_list : list VimeoDownload) (job : nat)
    : M World (list VimeoDownload) :=
  match request_list with
  | [] => ret []
  | download :: rest =>
      '(_, download) ← traced job m (call download c);
      rest ← for_requests m c rest (S job);
      ret (download :: rest)
  end.

Definition main (rows : list (list string)) : M World (list VimeoDownload) :=
  request_list ← parse_tsv_file rows 0;
  request_list ← for_requests DownloadAudioVideo download_audio_video
                   request_list 0;
  for_requests CombineAudioVideo combine_audio_video request_list 0.
End Main.

(** ** A test double of the environment *)

Module Fake.
Definition seg (u : string) : Segment := {| url := u |}.

Definition video360 : Video.t :=
  {| Video.id := "v360"; Video.width := 640; Video.height := 360;
     Video.base_url := "video/360/"; Video.init_segment := "AAEC";
     Video.segments := [seg "s1.m4s"; seg "s2.m4s"] |}.
Definition video720 : Video.t :=
  {| Video.id := "v720"; Video.width := 1280; Video.height := 720;
     Video.base_url := "video/720/"; Video.init_segment := "AAEC";
     Video.segments := [seg "s1.m4s"; seg "s2.m4s"] |}.
Definition video1080 : Video.t :=
  {| Video.id := "v1080"; Video.width := 1920; Video.height := 1080;
     Video.base_url := "video/1080/"; Video.init_segment := "AAEC";
     Video.segments := [seg "s1.m4s"; seg "s2.m4s"] |}.

Definition audio96 : Audio.t :=
  {| Audio.id := "a96"; Audio.sample_rate := 44100; Audio.bitrate := 96000;
     Audio.base_url := "audio/96/"; Audio.init_segment := "AwQ=";
     Audio.segments := [seg "s1.m4s"; seg "s2.m4s"] |}.
Definition audio128 : Audio.t :=
  {| Audio.id := "a128"; Audio.sample_rate := 44100; Audio.bitrate := 128000;
     Audio.base_url := "audio/128/"; Audio.init_segment := "AwQ=";
     Audio.segments := [seg "s1.m4s"; seg "s2.m4s"] |}.
Definition audio256 : Audio.t :=
  {| Audio.id := "a256"; Audio.sample_rate := 48000; Audio.bitrate := 256000;
     Audio.base_url := "audio/256/"; Audio.init_segment := "AwQ=";
     Audio.segments := [seg "s1.m4s"; seg "s2.m4s"] |}.

Definition manifest : MasterJson.t :=
  {| MasterJson.base_url := Some "../";
     MasterJson.video := [video360; video720; video1080];
     MasterJson.audio := [audio96; audio128; audio256] |}.

Definition byte_of_nat (n : nat) : byte :=
  default x00 (Byte.of_nat (n mod 256)).

(** The manifest URL answers [master_status] and every other URL
    [status]; a body is two chunks made of the length of the URL and of
    the number of requests before it. *)
Definition server (master_status status : Z) (history : list string)
    (u : string) : Response :=
  {| status_code :=
       if String.eqb u "http://host/m/master.json" then master_status
       else status;
     chunks := [[byte_of_nat (String.length u)];
                [byte_of_nat (length history); xff]] |}.

Definition decode (s : string) : option (list byte) :=
  if String.eqb s "AAEC" then Some [x00; x01; x02]
  else if String.eqb s "AwQ=" then Some [x03; x04]
  else None.

(** A file object with a buffer of four bytes: the bytes reach the disk
    four at a time. *)
Definition buffer_of_4 (written : list byte) : nat :=
  (length written `div` 4 * 4)%nat.

Definition env (m : MasterJson.t) (master_status status exit_status : Z)
    (pick : Z) : Env :=
  {| tty_menu := λ _ _, pick;
     http_get := server master_status status;
     json := λ _, Some m;
     b64decode := decode;
     abspath := λ p, "/home/user/" +:+ p;
     ffmpeg := λ a v, (exit_status,
                       if exit_status =? 0 then Some (a ++ v) else None);
     auto_flushed := buffer_of_4 |}.

Definition empty_world : World :=
  {| files := ∅; handles := ∅; requests := []; stdout := []; menus := [];
     commands := []; trace := [] |}.

(** A job as [__init__] leaves it, before any quality is configured. *)
Definition job (m : MasterJson.t) : VimeoDownload :=
  {| output_file := "out.mp4";
     master_json_url := "http://host/m/master.json";
     master_json := m; base_url := "http://host/m/";
     audio_json := None; video_json := None;
     audio_file := None; video_file := None |}.

Definition fresh (m : MasterJson.t) : St :=
  {| self := job m; world := empty_world |}.

(** A job configured for 720p video and the 256000 bit/s audio. *)
Definition configured : St :=
  {| self := set_video_json video720 (set_audio_json audio256 (job manifest));
     world := empty_world |}.

(** A job whose two tracks are on disk. *)
Definition downloaded : St :=
  {| self := set_video_file "/home/user/out_video_v720.mp4"
               (set_audio_file "/home/user/out_audio_a256.m4a"
                  (self configured));
     world := with_files
                (λ _, {[ "/home/user/out_audio_a256.m4a" := [x03; x04];
                         "/home/user/out_video_v720.mp4" := [x00; x01] ]})
                empty_world |}.

(** A manifest without a rendition of height 720: 750 and 700 are both
    within five percent of it, 750 comes first. *)
Definition video750 : Video.t :=
  {| Video.id := "v750"; Video.width := 1334; Video.height := 750;
     Video.base_url := "video/750/"; Video.init_segment := "AAEC";
     Video.segments := [seg "s1.m4s"] |}.

(** Two audio renditions whose sample rates and bitrates are ordered
    in opposite ways. *)
Definition audio48_64 : Audio.t :=
  {| Audio.id := "a1"; Audio.sample_rate := 48000; Audio.bitrate := 64000;
     Audio.base_url := "audio/a1/"; Audio.init_segment := "AwQ=";
     Audio.segments := [seg "s1.m4s"] |}.
Definition audio44_128 : Audio.t :=
  {| Audio.id := "a2"; Audio.sample_rate := 44100; Audio.bitrate := 128000;
     Audio.base_url := "audio/a2/"; Audio.init_segment := "AwQ=";
     Audio.segments := [seg "s1.m4s"] |}.
Definition crossed_audio : MasterJson.t :=
  {| MasterJson.base_url := Some "../";
     MasterJson.video := [video360; video720; video1080];
     MasterJson.audio := [audio48_64; audio44_128] |}.

(** A manifest without the top-level ['base_url']. *)
Definition no_base_url : MasterJson.t :=
  {| MasterJson.base_url := None;
     MasterJson.video := [video360; video720; video1080];
     MasterJson.audio := [audio96; audio128; audio256] |}.

(** A manifest with a height that has no double, before a rendition
    within five percent of 720. *)
Definition video_huge : Video.t :=
  {| Video.id := "huge"; Video.width := 16; Video.height := 10 ^ 400;
     Video.base_url := "video/huge/"; Video.init_segment := "AAEC";
     Video.segments := [seg "s1.m4s"] |}.
Definition huge_height : MasterJson.t :=
  {| MasterJson.base_url := Some "../";
     MasterJson.video := [video360; video_huge; video750];
     MasterJson.audio := [audio96; audio128; audio256] |}.

(** A manifest with one audio rendition. *)
Definition single_audio : MasterJson.t :=
  {| MasterJson.base_url := Some "../";
     MasterJson.video := [video360; video720; video1080];
     MasterJson.audio := [audio128] |}.
End Fake.

(** * The vocabulary of the properties *)

(** [x] first occurs in [l] at position [i]. *)
Definition first_at {A} (P : A → Prop) (l : list A) (i : nat) (x : A) : Prop :=
  l !! i = Some x ∧ P x ∧ ∀ j y, (j < i)%nat → l !! j = Some y → ¬ P y.

(** [m] does not change the attribute [f] of its object, whether it
    returns or raises. *)
Definition preserves {A X} (f : VimeoDownload → X) (m : M St A) : Prop :=
  ∀ s, f (self (snd (m s))) = f (self s).

(** The element an explicit tier takes from the ascending bitrates. *)
Definition tier_pick (q : AudioQuality) (sorted : list Z) : option Z :=
  match q with
  | LOW => sorted !! 0%nat
  | MED => sorted !! 1%nat
  | HI => last sorted
  end.

(** [b] is the bitrate of tier [q]: it is at the tier's place in every
    ascending arrangement of the bitrates, the least of them for [LOW] and
    the greatest for [HI]. *)
Definition is_tier_bitrate (q : AudioQuality) (bitrates : list Z) (b : Z)
    : Prop :=
  (∀ sorted, sorted ≡ₚ bitrates → Sorted Z.le sorted →
     tier_pick q sorted = Some b) ∧
  (q = LOW → ∀ x, x ∈ bitrates → b ≤ x) ∧
  (q = HI → ∀ x, x ∈ bitrates → x ≤ b).

(** The bound of the fuzzy search as a statement on rationals:
    [0.95·h ≤ value ≤ 1.05·h], both ends included. *)
Definition within_5_percent_bound (h value : Z) : Prop :=
  (0.95 * inject_Z h <= inject_Z value)%Q ∧
  (inject_Z value <= 1.05 * inject_Z h)%Q.

(** The same bound decided on integers, in hundredths. *)
Definition within_5_percent_exact (h value : Z) : bool :=
  (95 * h <=? 100 * value) && (100 * value <=? 105 * h).

(** On each of the [n] heights from [h] on, the test of the script returns
    what the exact bound says. *)
Fixpoint agree_from (n : nat) (h value : Z) : bool :=
  match n with
  | O => true
  | S n' =>
      match within_5_percent h value with
      | Return b => Bool.eqb b (within_5_percent_exact h value)
      | Raise _ => false
      end
      && agree_from n' (h + 1) value
  end.

(** [s] has no slash. *)
Fixpoint slash_free (s : string) : bool :=
  match s with
  | EmptyString => true
  | String c s' => negb (Ascii.eqb c "/"%char) && slash_free s'
  end.

(** The last character of a string. *)
Fixpoint last_char (s : string) : option ascii :=
  match s with
  | EmptyString => None
  | String c s' =>
      match last_char s' with
      | None => Some c
      | Some d => Some d
      end
  end.

(** The bytes of a response: its chunks, one after the other. *)
Definition body (r : Response) : list byte := concat (chunks r).

(** The URLs of the segments of a track, in manifest order. *)
Definition segment_urls (track_base_url : string) (segments : list Segment)
    : list string :=
  (λ segment, track_base_url +:+ url segment) <$> segments.

(** The answers of the server to the requests of [urls], made one after
    the other after the requests of [history]. *)
Fixpoint fetch_all `{Env} (history urls : list string) : list Response :=
  match urls with
  | [] => []
  | u :: rest => http_get history u :: fetch_all (history ++ [u]) rest
  end.

(** The file object opened at [file] has the bytes [written], and the disk
    holds the part of them that its buffer has let through. *)
Definition open_with `{Env} (file : string) (written : list byte)
    (w : World) : Prop :=
  handles w !! file = Some written ∧
  files w !! file = Some (take (auto_flushed written) written).

(** The world in which [written] is what has been written to the file
    object at [file]. *)
Definition written_to `{Env} (file : string) (written : list byte)
    (w : World) : World :=
  with_files (λ fs, <[file := take (auto_flushed written) written]> fs)
    (with_handles (λ hs, <[file := written]> hs) w).

(** The world in which the file object at [file] has been closed with
    [written] in the file. *)
Definition closed_with (file : string) (written : list byte)
    (w : World) : World :=
  with_handles (delete file) (with_files (λ fs, <[file := written]> fs) w).

(** [m] appends the entries of [urls] to the log [req], in this order, and
    no other: all of them when it returns, the first few when it raises.
    The log is the list of requests or the trace of method calls. *)
Definition issues {S A E} (req : S → list E) (m : M S A)
    (urls : list E) : Prop :=
  ∀ s, ∃ l, req (snd (m s)) = req s ++ l ∧
            match fst (m s) with
            | Return _ => l = urls
            | Raise _ => l `prefix_of` urls
            end.

(** The events of the first loop for one job, and for the jobs [job],
    [job + 1], ... of a batch. *)
Definition job_config_events (job : nat) : list event :=
  [Enter job Init; Leave job Init;
   Enter job ConfigureQuality; Leave job ConfigureQuality].

Definition config_events (job n : nat) : list event :=
  flat_map job_config_events (seq job n).

(** The events of a loop that calls the method [m] on every job. *)
Definition method_events (m : method) (job n : nat) : list event :=
  flat_map (λ k, [Enter k m; Leave k m]) (seq job n).

(** The trace of a batch of [n] jobs that runs to its end. *)
Definition phased_trace (n : nat) : list event :=
  config_events 0 n ++ method_events DownloadAudioVideo 0 n
    ++ method_events CombineAudioVideo 0 n.

Definition event_job (e : event) : nat :=
  match e with Enter job _ | Leave job _ => job end.

Definition event_method (e : event) : method :=
  match e with Enter _ m | Leave _ m => m end.

(** The phase of the batch a method belongs to: fetch and configuration,
    then download, then mux. *)
Definition phase (m : method) : nat :=
  match m with
  | Init | ConfigureQuality => 0
  | DownloadAudioVideo => 1
  | CombineAudioVideo => 2
  end.

(** The place of an event in the life of its job. *)
Definition step (e : event) : nat :=
  match e with
  | Enter _ Init => 0 | Leave _ Init => 1
  | Enter _ ConfigureQuality => 2 | Leave _ ConfigureQuality => 3
  | Enter _ DownloadAudioVideo => 4 | Leave _ DownloadAudioVideo => 5
  | Enter _ CombineAudioVideo => 6 | Leave _ CombineAudioVideo => 7
  end.

(** Every event of an earlier phase comes before every event of a later
    phase, whatever the jobs. *)
Definition batch_phased (t : list event) : Prop :=
  ∀ i j e1 e2,
    t !! i = Some e1 → t !! j = Some e2 →
    (phase (event_method e1) < phase (event_method e2))%nat → (i < j)%nat.

(** The events of one job come in the order of its life. *)
Definition job_sequential (t : list event) : Prop :=
  ∀ i j e1 e2,
    t !! i = Some e1 → t !! j = Some e2 →
    event_job e1 = event_job e2 → (step e1 < step e2)%nat → (i < j)%nat.

(** [e1] may come before [e2] in a phased trace. *)
Definition may_precede (e1 e2 : event) : Prop :=
  (phase (event_method e1) ≤ phase (event_method e2))%nat ∧
  (event_job e1 = event_job e2 → (step e1 < step e2)%nat).

(** * Properties *)

(** ** Running computations *)

Lemma run_bind {S A B} (m : M S A) (k : A → M S B) (s : S) :
  (m ≫= k) s = match m s with
               | (Return a, s') => k a s'
               | (Raise e, s') => (Raise e, s')
               end.
Proof. reflexivity. Qed.

Lemma run_bind_Return {S A B} (m : M S A) (k : A → M S B) s a s' :
  m s = (Return a, s') → (m ≫= k) s = k a s'.
Proof. intros Hm. rewrite run_bind, Hm. reflexivity. Qed.

Lemma run_bind_Raise {S A B} (m : M S A) (k : A → M S B) s e s' :
  m s = (Raise e, s') → (m ≫= k) s = (Raise e, s').
Proof. intros Hm. rewrite run_bind, Hm. reflexivity. Qed.

Lemma run_in_world `{Env} {A} (m : M World A) (s : St) :
  in_world m s
  = (fst (m (world s)), {| self := self s; world := snd (m (world s)) |}).
Proof. unfold in_world. destruct (m (world s)). reflexivity. Qed.

(** ** Python lists *)

Lemma getitem_nat {A} (l : list A) (i : nat) (x : A) :
  l !! i = Some x → getitem l (Z.of_nat i) = Return x.
Proof.
  intros Hx. unfold getitem.
  pose proof (lookup_lt_Some _ _ _ Hx) as Hlt.
  destruct (Z.ltb_spec (Z.of_nat i) 0) as [?|_]; [lia|].
  destruct (Z.ltb_spec (Z.of_nat i) 0) as [?|_]; [lia|].
  destruct (Z.leb_spec (Z.of_nat (length l)) (Z.of_nat i)) as [?|_]; [lia|].
  simpl. rewrite Nat2Z.id, Hx. reflexivity.
Qed.

Lemma getitem_nat_out {A} (l : list A) (i : nat) :
  (length l ≤ i)%nat → getitem l (Z.of_nat i) = Raise IndexError.
Proof.
  intros Hle. unfold getitem.
  destruct (Z.ltb_spec (Z.of_nat i) 0) as [?|_]; [lia|].
  destruct (Z.ltb_spec (Z.of_nat i) 0) as [?|_]; [lia|].
  destruct (Z.leb_spec (Z.of_nat (length l)) (Z.of_nat i)) as [_|?]; [|lia].
  reflexivity.
Qed.

Lemma getitem_last {A} (l : list A) (x : A) :
  last l = Some x → getitem l (-1) = Return x.
Proof.
  intros Hx. unfold getitem.
  assert (0 < length l)%nat as Hpos.
  { destruct l; [discriminate|simpl; lia]. }
  change (-1 <? 0) with true. cbv iota.
  destruct (Z.ltb_spec (-1 + Z.of_nat (length l)) 0) as [?|_]; [lia|].
  destruct (Z.leb_spec (Z.of_nat (length l)) (-1 + Z.of_nat (length l)))
    as [?|_]; [lia|].
  simpl. rewrite last_lookup in Hx.
  replace (Z.to_nat (-1 + Z.of_nat (length l))) with (Nat.pred (length l)) by lia.
  rewrite Hx. reflexivity.
Qed.

Lemma first_at_unique {A} (P : A → Prop) l i x j y :
  first_at P l i x → first_at P l j y → i = j ∧ x = y.
Proof.
  intros (Hi & HPx & Hmin) (Hj & HPy & Hmin').
  assert (i = j) as ->.
  { destruct (Nat.lt_trichotomy i j) as [Hlt|[->|Hlt]]; [|done|].
    - destruct (Hmin' _ _ Hlt Hi HPx).
    - destruct (Hmin _ _ Hlt Hj HPy). }
  split; [done|congruence].
Qed.

Lemma index_from_first (x : Z) (l : list Z) (k i : nat) :
  first_at (λ y, y = x) l i x → index_from x l k = Some (k + i)%nat.
Proof.
  revert k i. induction l as [|y l IH]; intros k i (Hi & _ & Hmin).
  - discriminate.
  - simpl. destruct i as [|i].
    + simpl in Hi. injection Hi as ->. rewrite Z.eqb_refl. f_equal. lia.
    + destruct (Z.eqb_spec y x) as [->|Hne].
      * destruct (Hmin 0%nat x); [lia|done|done].
      * rewrite (IH (S k) i); [f_equal; lia|].
        split; [exact Hi|split; [done|]].
        intros j z Hj Hz. apply (Hmin (S j) z); [lia|exact Hz].
Qed.

Lemma index_first (l : list Z) (x : Z) (i : nat) :
  first_at (λ y, y = x) l i x → index l x = Return i.
Proof.
  intros Hf. unfold index. rewrite (index_from_first x l 0 i Hf). reflexivity.
Qed.

Lemma first_at_exists {A} (P : A → Prop) `{!∀ x, Decision (P x)} (l : list A) :
  (∃ x, x ∈ l ∧ P x) → ∃ i x, first_at P l i x.
Proof.
  intros (x & Hx & HP).
  destruct (list_find P l) as [[i y]|] eqn:Hfind.
  - apply list_find_Some in Hfind as (Hi & HPy & Hmin).
    exists i, y. split; [done|split; [done|]].
    intros j z Hj Hz. exact (Hmin j z Hz Hj).
  - apply list_find_None in Hfind.
    rewrite Forall_forall in Hfind. destruct (Hfind x Hx HP).
Qed.

(** A rendition found through one of its fields: the first position of the
    field's value in the list of fields is the first rendition with it. *)
Lemma first_at_fmap {A} (f : A → Z) (l : list A) (i : nat) (a : A) :
  first_at (λ a', f a' = f a) l i a →
  first_at (λ y, y = f a) (f <$> l) i (f a).
Proof.
  intros (Hi & _ & Hmin). split; [|split; [done|]].
  - rewrite list_lookup_fmap, Hi. reflexivity.
  - intros j y Hj Hy. rewrite list_lookup_fmap in Hy.
    destruct (l !! j) as [b|] eqn:Hb; [|discriminate].
    injection Hy as <-. exact (Hmin j b Hj Hb).
Qed.

(** ** Sorting *)

Lemma sort_Permutation (l : list Z) : sort l ≡ₚ l.
Proof. apply merge_sort_Permutation. Qed.

Lemma sort_Sorted (l : list Z) : Sorted Z.le (sort l).
Proof. apply (Sorted_merge_sort Z.le). Qed.

Lemma sort_StronglySorted (l : list Z) : StronglySorted Z.le (sort l).
Proof. apply (StronglySorted_merge_sort Z.le). Qed.

(** There is one ascending arrangement of a list of ints. *)
Lemma sort_unique (l sorted : list Z) :
  sorted ≡ₚ l → Sorted Z.le sorted → sorted = sort l.
Proof.
  intros Hperm Hsorted.
  apply (Sorted_unique Z.le); [exact Hsorted|apply sort_Sorted|].
  rewrite Hperm. symmetry. apply sort_Permutation.
Qed.

Lemma sort_length (l : list Z) : length (sort l) = length l.
Proof. apply Permutation_length, sort_Permutation. Qed.

Lemma sort_head_least (l : list Z) (b : Z) :
  sort l !! 0%nat = Some b → ∀ x, x ∈ l → b ≤ x.
Proof.
  intros Hb x Hx. rewrite <- (sort_Permutation l) in Hx.
  pose proof (sort_StronglySorted l) as Hs.
  destruct (sort l) as [|y t]; [discriminate|].
  injection Hb as ->. apply StronglySorted_inv in Hs as [_ Hall].
  apply elem_of_cons in Hx as [->|Hx]; [lia|].
  rewrite Forall_forall in Hall. auto.
Qed.

Lemma StronglySorted_last_greatest (l : list Z) (b : Z) :
  StronglySorted Z.le l → last l = Some b → ∀ x, x ∈ l → x ≤ b.
Proof.
  induction 1 as [|y t Hs IH Hall]; intros Hb x Hx.
  - discriminate.
  - destruct t as [|z t].
    + injection Hb as ->. apply list_elem_of_singleton in Hx as ->. lia.
    + change (last (y :: z :: t)) with (last (z :: t)) in Hb.
      apply elem_of_cons in Hx as [->|Hx]; [|auto].
      rewrite Forall_forall in Hall. apply Hall.
      rewrite last_lookup in Hb. eapply list_elem_of_lookup_2, Hb.
Qed.

Lemma sort_last_greatest (l : list Z) (b : Z) :
  last (sort l) = Some b → ∀ x, x ∈ l → x ≤ b.
Proof.
  intros Hb x Hx. rewrite <- (sort_Permutation l) in Hx.
  exact (StronglySorted_last_greatest _ _ (sort_StronglySorted l) Hb x Hx).
Qed.

(** ** What a method leaves alone *)

Section Preserves.
Context `{Env} {X : Type} (f : VimeoDownload → X).

Lemma preserves_ret {A} (a : A) : preserves f (mret a).
Proof. intros s. reflexivity. Qed.

Lemma preserves_raise {A} (e : exn) : preserves f (@raise St A e).
Proof. intros s. reflexivity. Qed.

Lemma preserves_lift {A} (r : outcome A) : preserves f (lift r).
Proof. intros s. reflexivity. Qed.

Lemma preserves_gets {A} (g : St → A) : preserves f (gets g).
Proof. intros s. reflexivity. Qed.

Lemma preserves_in_world {A} (m : M World A) : preserves f (in_world m).
Proof. intros s. rewrite run_in_world. reflexivity. Qed.

Lemma preserves_on_self (g : VimeoDownload → VimeoDownload) :
  (∀ o, f (g o) = f o) → preserves f (on_self g).
Proof. intros Hg s. simpl. apply Hg. Qed.

Lemma preserves_bind {A B} (m : M St A) (k : A → M St B) :
  preserves f m → (∀ a, preserves f (k a)) → preserves f (m ≫= k).
Proof.
  intros Hm Hk s. rewrite run_bind. specialize (Hm s).
  destruct (m s) as [[a|e] s']; simpl in *; [|exact Hm].
  rewrite Hk. exact Hm.
Qed.
End Preserves.

Ltac preserves_step :=
  first
    [ apply preserves_ret | apply preserves_raise | apply preserves_lift
    | apply preserves_gets | apply preserves_in_world
    | apply preserves_bind; [|intros ?]
    | apply preserves_on_self; intros ?; reflexivity ].

Section PreservesMethods.
Context `{Env} {X : Type} (f : VimeoDownload → X).

Lemma preserves_ask_audio_quality : preserves f _ask_audio_quality.
Proof. unfold _ask_audio_quality. repeat preserves_step. Qed.

Lemma preserves_ask_video_quality : preserves f _ask_video_quality.
Proof. unfold _ask_video_quality. repeat preserves_step. Qed.

Lemma preserves_process_audio_quality q :
  preserves f (process_audio_quality q).
Proof.
  unfold process_audio_quality. destruct q as [q|].
  - preserves_step; [preserves_step|]. case_decide; preserves_step.
  - apply preserves_ask_audio_quality.
Qed.

Lemma preserves_process_video_quality b q :
  preserves f (process_video_quality b q).
Proof.
  unfold process_video_quality. destruct q as [q|].
  - preserves_step; [preserves_step|]. case_decide; [preserves_step|].
    destruct (contains _ _); [preserves_step|].
    preserves_step; [preserves_step|].
    match goal with |- preserves _ (match ?p with _ => _ end) => destruct p end;
      [preserves_step|].
    destruct b; [|preserves_step].
    preserves_step; [preserves_step|apply preserves_ask_video_quality].
  - apply preserves_ask_video_quality.
Qed.

Lemma preserves_report_quality : preserves f report_quality.
Proof.
  unfold report_quality. preserves_step; [preserves_step|].
  destruct (video_json _); [|preserves_step].
  destruct (audio_json _); repeat preserves_step.
Qed.

Lemma preserves_set_audio_quality b :
  (∀ a o, f (set_audio_json a o) = f o) → preserves f (set_audio_quality b).
Proof.
  intros Hf. unfold set_audio_quality.
  do 3 (preserves_step; [preserves_step|]).
  apply preserves_on_self. intros o. apply Hf.
Qed.

Lemma preserves_set_video_quality h :
  (∀ v o, f (set_video_json v o) = f o) → preserves f (set_video_quality h).
Proof.
  intros Hf. unfold set_video_quality.
  do 3 (preserves_step; [preserves_step|]).
  apply preserves_on_self. intros o. apply Hf.
Qed.
End PreservesMethods.

(** ** Audio selection *)

Lemma tier_pick_elem q (l : list Z) b : tier_pick q l = Some b → b ∈ l.
Proof.
  destruct q; simpl; intros Hb.
  - eapply list_elem_of_lookup_2, Hb.
  - eapply list_elem_of_lookup_2, Hb.
  - rewrite last_lookup in Hb. eapply list_elem_of_lookup_2, Hb.
Qed.

Lemma tier_pick_is_Some q (l : list Z) :
  l ≠ [] → (q = MED → (2 ≤ length l)%nat) → is_Some (tier_pick q l).
Proof.
  intros Hne Hmed. destruct q; simpl.
  - destruct l; [done|]. eexists. reflexivity.
  - specialize (Hmed eq_refl). destruct l as [|? [|? ?]]; simpl in *; try lia.
    eexists. reflexivity.
  - rewrite last_lookup. apply lookup_lt_is_Some_2.
    destruct l; [done|]. simpl. lia.
Qed.

Lemma tier_pick_sort q (bitrates : list Z) b :
  tier_pick q (sort bitrates) = Some b → is_tier_bitrate q bitrates b.
Proof.
  intros Hb. split; [|split].
  - intros sorted Hperm Hsorted.
    rewrite (sort_unique bitrates sorted Hperm Hsorted). exact Hb.
  - intros ->. simpl in Hb. exact (sort_head_least _ _ Hb).
  - intros ->. simpl in Hb. exact (sort_last_greatest _ _ Hb).
Qed.

Section AudioSelection.
Context `{Env}.

Lemma process_audio_quality_tier q s b :
  tier_pick q (sort (list_bitrates (self s))) = Some b →
  process_audio_quality (Some q) s = (Return b, s).
Proof.
  intros Hb. unfold process_audio_quality. rewrite run_bind. simpl.
  case_decide as Hq.
  - subst q. simpl in Hb. unfold lift. rewrite (getitem_last _ _ Hb).
    reflexivity.
  - unfold lift. destruct q; [| |done]; simpl in Hb.
    + change (AudioQuality_value LOW) with (Z.of_nat 0).
      rewrite (getitem_nat _ _ _ Hb). reflexivity.
    + change (AudioQuality_value MED) with (Z.of_nat 1).
      rewrite (getitem_nat _ _ _ Hb). reflexivity.
Qed.

Lemma process_audio_quality_MED_single s :
  length (MasterJson.audio (master_json (self s))) = 1%nat →
  process_audio_quality (Some MED) s = (Raise IndexError, s).
Proof.
  intros Hlen. unfold process_audio_quality. rewrite run_bind. simpl.
  unfold lift. change 1 with (Z.of_nat 1).
  rewrite getitem_nat_out; [reflexivity|].
  rewrite sort_length. unfold list_bitrates. rewrite length_fmap. lia.
Qed.

Lemma set_audio_quality_first s b i a :
  first_at (λ a, Audio.bitrate a = b)
    (MasterJson.audio (master_json (self s))) i a →
  set_audio_quality b s =
    (Return tt, {| self := set_audio_json a (self s); world := world s |}).
Proof.
  intros Hf. pose proof Hf as (Hi & Hb & _). subst b.
  unfold set_audio_quality. rewrite run_bind. simpl.
  rewrite run_bind. unfold lift at 1, list_bitrates.
  rewrite (index_first _ _ i (first_at_fmap Audio.bitrate _ _ _ Hf)).
  rewrite run_bind. unfold lift. rewrite (getitem_nat _ _ _ Hi).
  reflexivity.
Qed.

(** The guard of [configure_quality] and its banner, then the rest. *)
Lemma configure_quality_guard b aq vq s :
  b = true ∨ (aq ≠ None ∧ vq ≠ None) →
  configure_quality b aq vq s =
    (bitrate ← process_audio_quality aq;
     set_audio_quality bitrate;;
     height ← process_video_quality b vq;
     set_video_quality height;;
     report_quality)
    {| self := self s;
       world := with_stdout
         (λ out, out ++ [newline +:+ "======== "
                         +:+ output_filename (self s) +:+ " ========"])
         (world s) |}.
Proof.
  intros Hguard. unfold configure_quality.
  assert (negb b && (bool_decide (aq = None) || bool_decide (vq = None))
          = false) as ->.
  { destruct Hguard as [->|[Ha Hv]]; [reflexivity|].
    rewrite !bool_decide_eq_false_2 by done. apply andb_false_r. }
  reflexivity.
Qed.

Lemma preserves_after_audio b vq :
  preserves audio_json
    (height ← process_video_quality b vq;
     set_video_quality height;;
     report_quality).
Proof.
  preserves_step; [apply preserves_process_video_quality|].
  preserves_step; [|apply preserves_report_quality].
  apply preserves_set_video_quality. reflexivity.
Qed.

(** With a tier that the manifest can serve, the audio steps return and
    bind the first rendition of the tier's bitrate. *)
Lemma audio_steps_run q s :
  MasterJson.audio (master_json (self s)) ≠ [] →
  (q = MED → (2 ≤ length (MasterJson.audio (master_json (self s))))%nat) →
  ∃ b i a,
    tier_pick q (sort (list_bitrates (self s))) = Some b ∧
    first_at (λ a, Audio.bitrate a = b)
      (MasterJson.audio (master_json (self s))) i a ∧
    ∀ B (k : M St B),
      (bitrate ← process_audio_quality (Some q);
       set_audio_quality bitrate;; k) s
      = k {| self := set_audio_json a (self s); world := world s |}.
Proof.
  intros Hne Hmed.
  assert (list_bitrates (self s) ≠ []) as Hne'.
  { unfold list_bitrates. intros Hnil. apply fmap_nil_inv in Hnil. done. }
  destruct (tier_pick_is_Some q (sort (list_bitrates (self s)))) as [b Hb].
  { intros Hnil. apply Hne'. apply Permutation_nil_r. rewrite <- Hnil.
    symmetry. apply sort_Permutation. }
  { intros Hq. rewrite sort_length. unfold list_bitrates.
    rewrite length_fmap. auto. }
  assert (b ∈ list_bitrates (self s)) as Hin.
  { rewrite <- (sort_Permutation (list_bitrates (self s))).
    exact (tier_pick_elem _ _ _ Hb). }
  destruct (first_at_exists (λ a, Audio.bitrate a = b)
              (MasterJson.audio (master_json (self s)))) as (i & a & Hfirst).
  { unfold list_bitrates in Hin.
    apply list_elem_of_fmap in Hin as (a & -> & Ha). exists a. done. }
  exists b, i, a. split; [done|]. split; [done|]. intros B k.
  rewrite (run_bind_Return _ _ s b s)
    by (apply process_audio_quality_tier; exact Hb).
  rewrite (run_bind_Return _ _ s tt
             {| self := set_audio_json a (self s); world := world s |})
    by (apply (set_audio_quality_first s b i a); exact Hfirst).
  reflexivity.
Qed.
End AudioSelection.

(** C2, as amended: for a manifest with a non-empty audio list, an explicit
    tier is resolved on the ascending bitrates: LOW takes the least bitrate
    (index 0), HI the greatest whatever the number of renditions, and MED
    the bitrate at index 1 provided there are at least two renditions; the
    first audio rendition carrying that bitrate is bound to the job. *)
Theorem audio_tier_selection `{Env} (s : St) (interactive_fallback : bool)
    (q : AudioQuality) (video_quality : option VideoQuality) :
  MasterJson.audio (master_json (self s)) ≠ [] →
  interactive_fallback = true ∨ video_quality ≠ None →
  (q = MED → (2 ≤ length (MasterJson.audio (master_json (self s))))%nat) →
  ∃ b i a,
    is_tier_bitrate q (list_bitrates (self s)) b ∧
    first_at (λ a, Audio.bitrate a = b)
      (MasterJson.audio (master_json (self s))) i a ∧
    audio_json (self (snd (configure_quality interactive_fallback (Some q)
                             video_quality s))) = Some a.
Proof.
  intros Hne Hguard Hmed.
  destruct (audio_steps_run q
              {| self := self s;
                 world := with_stdout
                   (λ out, out ++ [newline +:+ "======== "
                                   +:+ output_filename (self s) +:+ " ========"])
                   (world s) |} Hne Hmed) as (b & i & a & Hb & Hfirst & Hrun).
  exists b, i, a. split; [exact (tier_pick_sort _ _ _ Hb)|]. split; [done|].
  rewrite configure_quality_guard
    by (destruct Hguard as [->|Hv]; [left; done|right; done]).
  rewrite Hrun, preserves_after_audio. reflexivity.
Qed.

Lemma audio_tier_selection_witness :
  ∃ b i a,
    is_tier_bitrate MED (list_bitrates (self (Fake.fresh Fake.manifest))) b ∧
    first_at (λ a, Audio.bitrate a = b)
      (MasterJson.audio (master_json (self (Fake.fresh Fake.manifest)))) i a ∧
    audio_json (self (snd (@configure_quality
                             (Fake.env Fake.manifest 200 200 0 0) false (Some MED)
                             (Some V720) (Fake.fresh Fake.manifest))))
      = Some a.
Proof.
  apply (@audio_tier_selection (Fake.env Fake.manifest 200 200 0 0)
           (Fake.fresh Fake.manifest) false MED (Some V720)).
  - discriminate.
  - right. discriminate.
  - intros _. simpl. lia.
Defined.

(** C2, as stated, fails for MED on a manifest with one audio rendition:
    no audio rendition is bound. *)
Lemma audio_tier_MED_single_counterexample :
  Fake.single_audio.(MasterJson.audio) ≠ [] ∧
  ¬ ∃ a, audio_json (self (snd (@configure_quality
                                  (Fake.env Fake.single_audio 200 200 0 0) true
                                  (Some MED) (Some V720)
                                  (Fake.fresh Fake.single_audio)))) = Some a.
Proof.
  split; [discriminate|]. intros [a Ha]. vm_compute in Ha. discriminate.
Qed.

(** C10: on a manifest with exactly one audio rendition the MED tier binds
    nothing: [configure_quality] raises [IndexError] at [bitrates[1]] and
    leaves the job's renditions as they were. *)
Theorem med_single_audio_index_error `{Env} (s : St)
    (interactive_fallback : bool) (video_quality : option VideoQuality) :
  length (MasterJson.audio (master_json (self s))) = 1%nat →
  interactive_fallback = true ∨ video_quality ≠ None →
  fst (configure_quality interactive_fallback (Some MED) video_quality s)
    = Raise IndexError ∧
  audio_json (self (snd (configure_quality interactive_fallback (Some MED)
                           video_quality s))) = audio_json (self s) ∧
  video_json (self (snd (configure_quality interactive_fallback (Some MED)
                           video_quality s))) = video_json (self s).
Proof.
  intros Hlen Hguard.
  rewrite configure_quality_guard
    by (destruct Hguard as [->|Hv]; [left; done|right; done]).
  set (s0 := {| self := self s; world := _ |}).
  rewrite (run_bind_Raise _ _ s0 IndexError s0)
    by (apply process_audio_quality_MED_single; exact Hlen).
  done.
Qed.

Lemma med_single_audio_index_error_witness :
  fst (@configure_quality (Fake.env Fake.single_audio 200 200 0 0) false
         (Some MED) (Some V1080) (Fake.fresh Fake.single_audio))
    = Raise IndexError ∧
  audio_json (self (snd (@configure_quality
                           (Fake.env Fake.single_audio 200 200 0 0) false
                           (Some MED) (Some V1080)
                           (Fake.fresh Fake.single_audio)))) = None ∧
  video_json (self (snd (@configure_quality
                           (Fake.env Fake.single_audio 200 200 0 0) false
                           (Some MED) (Some V1080)
                           (Fake.fresh Fake.single_audio)))) = None.
Proof.
  apply (@med_single_audio_index_error (Fake.env Fake.single_audio 200 200 0 0)
           (Fake.fresh Fake.single_audio) false (Some V1080)).
  - reflexivity.
  - right. discriminate.
Defined.

(** ** Video selection *)

Lemma within_5_percent_exact_spec (h value : Z) :
  within_5_percent_exact h value = true ↔ within_5_percent_bound h value.
Proof.
  unfold within_5_percent_exact, within_5_percent_bound, Qle.
  cbn [Qnum Qden Qmult inject_Z Pos.mul].
  rewrite andb_true_iff, !Z.leb_le. lia.
Qed.

Lemma agree_from_spec (n : nat) (h value : Z) :
  agree_from n h value = true →
  ∀ k, h ≤ k < h + Z.of_nat n →
       within_5_percent k value = Return (within_5_percent_exact k value).
Proof.
  revert h. induction n as [|n IH]; intros h Hagree k Hk; [lia|].
  simpl in Hagree. apply andb_true_iff in Hagree as [Hh Hrest].
  destruct (decide (k = h)) as [->|Hne].
  - destruct (within_5_percent h value) as [b|e]; [|discriminate].
    apply Bool.eqb_prop in Hh. rewrite Hh. reflexivity.
  - apply (IH (h + 1) Hrest). lia.
Qed.

(** For every height below 16384 and every member of [VideoQuality], the
    test of the script, computed in double precision, does not raise and
    returns what the exact bound says. *)
Lemma within_5_percent_agrees (q : VideoQuality) (height : Z) :
  0 ≤ height < 16384 →
  within_5_percent height (VideoQuality_value q)
  = Return (within_5_percent_exact height (VideoQuality_value q)).
Proof.
  intros Hheight.
  apply (agree_from_spec (Z.to_nat 16384) 0); [|lia].
  destruct q; vm_compute; reflexivity.
Qed.

Lemma float_overflow_eq : float_overflow = 2 ^ 1024 - 2 ^ 970.
Proof. vm_compute. reflexivity. Qed.

(** An int from [2^1024 - 2^970] on, of either sign, has no double. *)
Lemma float_of_int_overflow (n : Z) :
  2 ^ 1024 - 2 ^ 970 ≤ Z.abs n → float_of_int n = Raise OverflowError.
Proof.
  intros Hn. unfold float_of_int.
  destruct (Z.leb_spec float_overflow (Z.abs n)) as [_|Hlt]; [reflexivity|].
  rewrite float_overflow_eq in Hlt. destruct (Z.lt_irrefl (Z.abs n)).
  eapply Z.lt_le_trans; [exact Hlt|exact Hn].
Qed.

Lemma contains_elem (x : Z) (l : list Z) : contains x l = true ↔ x ∈ l.
Proof.
  unfold contains. rewrite existsb_exists. split.
  - intros (y & Hy & Heq). apply Z.eqb_eq in Heq as ->.
    apply list_elem_of_In. exact Hy.
  - intros Hx. exists x. split; [apply list_elem_of_In; exact Hx|].
    apply Z.eqb_refl.
Qed.


Lemma fuzzy_search_none (q : VideoQuality) (heights : list Z) (k : nat) :
  Forall (λ h, 0 ≤ h < 16384) heights →
  (∀ h, h ∈ heights → ¬ within_5_percent_bound h (VideoQuality_value q)) →
  fuzzy_search (VideoQuality_value q) heights k = Return None.
Proof.
  revert k. induction heights as [|y l IH]; intros k Hsmall Hall;
    [reflexivity|].
  apply Forall_cons in Hsmall as [Hy Hsmall]. simpl.
  rewrite (within_5_percent_agrees q y Hy).
  destruct (within_5_percent_exact y _) eqn:Hwithin.
  - apply within_5_percent_exact_spec in Hwithin.
    destruct (Hall y); [left|done].
  - apply IH; [exact Hsmall|]. intros h Hh. apply Hall. right. exact Hh.
Qed.

(** The scan stops with [OverflowError] at the first height that has no
    double, when no height before it passes the test. *)
Lemma fuzzy_search_overflow (q : VideoQuality) (before after : list Z)
    (big : Z) (k : nat) :
  Forall (λ h, 0 ≤ h < 16384) before →
  (∀ h, h ∈ before → ¬ within_5_percent_bound h (VideoQuality_value q)) →
  2 ^ 1024 - 2 ^ 970 ≤ Z.abs big →
  fuzzy_search (VideoQuality_value q) (before ++ big :: after) k
  = Raise OverflowError.
Proof.
  intros Hsmall Hall Hbig. revert k.
  induction before as [|y l IH]; intros k.
  - simpl. unfold within_5_percent.
    rewrite (float_of_int_overflow big Hbig). reflexivity.
  - apply Forall_cons in Hsmall as [Hy Hsmall]. simpl.
    rewrite (within_5_percent_agrees q y Hy).
    destruct (within_5_percent_exact y _) eqn:Hwithin.
    + apply within_5_percent_exact_spec in Hwithin.
      destruct (Hall y); [left|done].
    + apply IH; [exact Hsmall|]. intros h Hh. apply Hall. right. exact Hh.
Qed.

Section VideoSelection.
Context `{Env}.

Lemma set_video_quality_first s h i v :
  first_at (λ v, Video.height v = h)
    (MasterJson.video (master_json (self s))) i v →
  set_video_quality h s =
    (Return tt, {| self := set_video_json v (self s); world := world s |}).
Proof.
  intros Hf. pose proof Hf as (Hi & Hh & _). subst h.
  unfold set_video_quality. rewrite run_bind. simpl.
  rewrite run_bind. unfold lift at 1, list_heights.
  rewrite (index_first _ _ i (first_at_fmap Video.height _ _ _ Hf)).
  rewrite run_bind. unfold lift. rewrite (getitem_nat _ _ _ Hi).
  reflexivity.
Qed.

Lemma report_quality_returns s :
  fst (report_quality s) = Return tt ∧
  self (snd (report_quality s)) = self s.
Proof.
  unfold report_quality. rewrite run_bind. simpl.
  destruct (video_json (self s)); [|done].
  destruct (audio_json (self s)); done.
Qed.

(** Binding a video rendition and reporting it ends the configuration. *)
Lemma video_steps_return s h i v :
  first_at (λ v, Video.height v = h)
    (MasterJson.video (master_json (self s))) i v →
  fst ((set_video_quality h;; report_quality) s) = Return tt ∧
  video_json (self (snd ((set_video_quality h;; report_quality) s)))
    = Some v.
Proof.
  intros Hf.
  rewrite (run_bind_Return _ _ s tt _ (set_video_quality_first s h i v Hf)).
  destruct (report_quality_returns
              {| self := set_video_json v (self s); world := world s |})
    as [-> ->].
  done.
Qed.




Lemma process_video_quality_overflow b q s before after big :
  q ≠ VMAX →
  VideoQuality_value q ∉ list_heights (self s) →
  list_heights (self s) = before ++ big :: after →
  Forall (λ h, 0 ≤ h < 16384) before →
  (∀ h, h ∈ before → ¬ within_5_percent_bound h (VideoQuality_value q)) →
  2 ^ 1024 - 2 ^ 970 ≤ Z.abs big →
  process_video_quality b (Some q) s = (Raise OverflowError, s).
Proof.
  intros Hq Hnin Hheights Hsmall Hall Hbig.
  unfold process_video_quality. rewrite run_bind. simpl.
  case_decide; [done|].
  destruct (contains _ _) eqn:Hc; [apply contains_elem in Hc; done|].
  rewrite run_bind. unfold lift at 1. rewrite Hheights.
  rewrite (fuzzy_search_overflow _ _ _ _ 0 Hsmall Hall Hbig). reflexivity.
Qed.
End VideoSelection.





(** ** The interactive menus *)

(** C7 fails on the code: the two columns of a menu are sorted one by one,
    so an option can pair the sample rate of one rendition with the bitrate
    of another.  On two renditions 48000/64000 and 44100/128000 the menu
    shows 48000/128000 and 44100/64000, neither of which is a rendition,
    and picking the first option binds the 44100 Hz rendition. *)
Lemma ask_audio_quality_pairs_unrelated_fields :
  menus (world (snd (@_ask_audio_quality
                       (Fake.env Fake.crossed_audio 200 200 0 0)
                       (Fake.fresh Fake.crossed_audio))))
    = [(["48000/128000"; "44100/64000"],
        "Audio Quality? (sample_rate/bitrate)")] ∧
  (¬ ∃ a, a ∈ MasterJson.audio Fake.crossed_audio ∧
          Audio.sample_rate a = 48000 ∧ Audio.bitrate a = 128000) ∧
  audio_json (self (snd (@configure_quality
                           (Fake.env Fake.crossed_audio 200 200 0 0) true None
                           (Some V720) (Fake.fresh Fake.crossed_audio))))
    = Some Fake.audio44_128.
Proof.
  split; [vm_compute; reflexivity|]. split; [|vm_compute; reflexivity].
  intros (a & Ha & Hs & Hb). simpl in Ha.
  repeat (apply elem_of_cons in Ha as [->|Ha]); [discriminate..|].
  apply elem_of_nil in Ha. destruct Ha.
Qed.

(** ** Fetching the manifest *)

Section GetMasterJson.
Context `{Env}.

(** What [get_master_json] does by the status of the response: it raises
    for 4xx and 5xx and parses the body for every other status. *)
Lemma get_master_json_by_status (u : string) (w : World) :
  let response := http_get (requests w) u in
  (400 ≤ status_code response < 600 →
   fst (get_master_json u w) = Raise (HTTPError (status_code response))) ∧
  (¬ 400 ≤ status_code response < 600 →
   fst (get_master_json u w) =
     match json (concat (chunks response)) with
     | Some m => Return m
     | None => Raise JSONDecodeError
     end).
Proof.
  intros response. unfold get_master_json, requests_get.
  rewrite !run_bind. cbn [gets modify mret M_ret ret fst snd].
  rewrite !run_bind. cbn [gets modify mret M_ret ret fst snd].
  fold response. unfold raise_for_status, response_json.
  split; intros Hst.
  - assert ((400 <=? status_code response) && (status_code response <? 600)
            = true) as Herr.
    { apply andb_true_iff. split; [apply Z.leb_le|apply Z.ltb_lt]; lia. }
    destruct (Z.eqb_spec (status_code response) 410) as [H410|H410].
    + rewrite !run_bind. unfold print, lift. simpl. rewrite Herr. reflexivity.
    + destruct (Z.eqb_spec (status_code response) 200) as [H200|H200];
        [lia|].
      simpl. rewrite !run_bind. unfold print, lift. simpl. rewrite Herr.
      reflexivity.
  - assert ((400 <=? status_code response) && (status_code response <? 600)
            = false) as Herr.
    { apply andb_false_iff.
      destruct (Z.leb_spec 400 (status_code response)); [right|left; done].
      apply Z.ltb_ge. lia. }
    destruct (Z.eqb_spec (status_code response) 410) as [H410|H410]; [lia|].
    destruct (Z.eqb_spec (status_code response) 200) as [H200|H200]; simpl.
    + destruct (json _); reflexivity.
    + rewrite !run_bind. unfold print, lift. simpl. rewrite Herr.
      destruct (json _); reflexivity.
Qed.
End GetMasterJson.

(** C8 fails on the code for a status that is neither 200 nor an error of
    [raise_for_status]: on 300 the script prints its error line and goes on
    to use the body as the manifest. *)
Lemma get_master_json_300_not_raised :
  fst (@get_master_json (Fake.env Fake.manifest 300 200 0 0)
         "http://host/m/master.json" Fake.empty_world)
    = Return Fake.manifest ∧
  stdout (snd (@get_master_json (Fake.env Fake.manifest 300 200 0 0)
                 "http://host/m/master.json" Fake.empty_world))
    = ["ERROR: received http code [300] when downloading master.json"].
Proof. split; vm_compute; reflexivity. Qed.

(** ** Base-URL resolution *)

(** C6, as amended: a manifest without the top-level base_url cannot be
    constructed: once the manifest is fetched and has a video rendition,
    [__init__] raises [KeyError] for the key and issues no probe. *)
Theorem init_requires_base_url `{Env} (output u : string) (w w1 : World)
    (m : MasterJson.t) :
  get_master_json u w = (Return m, w1) →
  MasterJson.base_url m = None →
  MasterJson.video m ≠ [] →
  __init__ output u w = (Raise (KeyError "base_url"), w1).
Proof.
  intros Hget Hnone Hvideo. unfold __init__.
  rewrite (run_bind_Return _ _ w m w1 Hget).
  apply run_bind_Raise. unfold generate_base_url.
  destruct (MasterJson.video m) as [|v vs] eqn:Hv; [done|].
  rewrite run_bind. unfold lift at 1. cbn [getitem].
  change (getitem (v :: vs) 0) with (Return v). cbv iota.
  rewrite Hnone. reflexivity.
Qed.

Lemma init_requires_base_url_witness :
  fst (@__init__ (Fake.env Fake.no_base_url 200 200 0 0) "out.mp4"
         "http://host/m/master.json" Fake.empty_world)
    = Raise (KeyError "base_url") ∧
  requests (snd (@__init__ (Fake.env Fake.no_base_url 200 200 0 0) "out.mp4"
                   "http://host/m/master.json" Fake.empty_world))
    = ["http://host/m/master.json"].
Proof.
  rewrite (@init_requires_base_url (Fake.env Fake.no_base_url 200 200 0 0)
             "out.mp4" "http://host/m/master.json" Fake.empty_world
             (with_requests (λ l, l ++ ["http://host/m/master.json"])
                Fake.empty_world)
             Fake.no_base_url).
  - split; reflexivity.
  - reflexivity.
  - reflexivity.
  - discriminate.
Defined.

(** C6, as stated, fails: with the key absent the construction does not
    succeed. *)
Lemma init_without_base_url_counterexample :
  MasterJson.base_url Fake.no_base_url = None ∧
  ¬ ∃ o, fst (@__init__ (Fake.env Fake.no_base_url 200 200 0 0) "out.mp4"
                "http://host/m/master.json" Fake.empty_world) = Return o.
Proof.
  split; [reflexivity|]. intros [o Ho]. vm_compute in Ho. discriminate.
Qed.

(** *** Strings *)

Lemma rfind_from_append (c : ascii) (s1 s2 : string) (i last : Z) :
  rfind_from c (s1 +:+ s2) i last
  = rfind_from c s2 (i + Z.of_nat (String.length s1)) (rfind_from c s1 i last).
Proof.
  revert i last. induction s1 as [|d s1 IH]; intros i last; simpl.
  - f_equal. lia.
  - rewrite IH. f_equal. lia.
Qed.

Lemma rfind_from_slash_free (s : string) (i last : Z) :
  slash_free s = true → rfind_from "/"%char s i last = last.
Proof.
  revert i. induction s as [|d s IH]; intros i Hfree; [reflexivity|].
  simpl in *. apply andb_true_iff in Hfree as [Hd Hs].
  apply negb_true_iff in Hd. rewrite Hd. auto.
Qed.

Lemma substring_prefix (s1 s2 : string) :
  String.substring 0 (String.length s1) (s1 +:+ s2) = s1.
Proof.
  induction s1 as [|d s1 IH]; simpl.
  - destruct s2; reflexivity.
  - rewrite IH. reflexivity.
Qed.

Lemma length_append (s1 s2 : string) :
  String.length (s1 +:+ s2) = (String.length s1 + String.length s2)%nat.
Proof. induction s1 as [|d s1 IH]; simpl; [reflexivity|]. rewrite IH. lia. Qed.

Lemma append_assoc (s1 s2 s3 : string) :
  (s1 +:+ s2) +:+ s3 = s1 +:+ (s2 +:+ s3).
Proof.
  induction s1 as [|d s1 IH]; [reflexivity|].
  change (String d ((s1 +:+ s2) +:+ s3) = String d (s1 +:+ (s2 +:+ s3))).
  rewrite IH. reflexivity.
Qed.

(** The manifest directory: for a URL [dir/file] the trimmed URL is [dir/]. *)
Lemma trimmed_url_directory (dir file : string) :
  slash_free file = true →
  take_str (rfind "/"%char (dir +:+ "/" +:+ file) + 1) (dir +:+ "/" +:+ file)
  = dir +:+ "/".
Proof.
  intros Hfree. unfold rfind. rewrite rfind_from_append. simpl.
  rewrite (rfind_from_slash_free file _ _ Hfree).
  unfold take_str.
  replace (Z.to_nat (0 + Z.of_nat (String.length dir) + 1))
    with (String.length (dir +:+ "/")) by (rewrite length_append; simpl; lia).
  rewrite <- (append_assoc dir "/" file). apply substring_prefix.
Qed.

Lemma last_char_append (s t : string) (c : ascii) :
  last_char t = Some c → last_char (s +:+ t) = Some c.
Proof.
  intros Ht. induction s as [|d s IH]; simpl; [exact Ht|].
  rewrite IH. reflexivity.
Qed.

(** The two track files of a job have different names: one ends in [a],
    the other in [4]. *)
Lemma track_file_audio_video_ne `{Env} (o : VimeoDownload) (ida idv : string) :
  track_file o "audio" ida ".m4a" ≠ track_file o "video" idv ".mp4".
Proof.
  intros Heq. apply (f_equal last_char) in Heq. unfold track_file in Heq.
  rewrite !(last_char_append _ _ "a"%char) in Heq
    by (repeat (apply last_char_append); reflexivity).
  rewrite !(last_char_append _ _ "4"%char) in Heq
    by (repeat (apply last_char_append); reflexivity).
  discriminate.
Qed.

(** ** Segment assembly *)

Lemma fetch_all_app `{Env} (history urls1 urls2 : list string) :
  fetch_all history (urls1 ++ urls2)
  = fetch_all history urls1 ++ fetch_all (history ++ urls1) urls2.
Proof.
  revert history. induction urls1 as [|u urls1 IH]; intros history; simpl.
  - rewrite app_nil_r. reflexivity.
  - rewrite IH, <- app_assoc. reflexivity.
Qed.

Section Assembly.
Context `{Env}.

Lemma run_in_world_Return {A} (m : M World A) (s : St) (a : A) (w : World) :
  m (world s) = (Return a, w) →
  in_world m s = (Return a, {| self := self s; world := w |}).
Proof. intros Hm. unfold in_world. rewrite Hm. reflexivity. Qed.

Lemma written_to_open_with (file : string) (written : list byte) (w : World) :
  open_with file written (written_to file written w).
Proof. split; apply lookup_insert_eq. Qed.

Lemma written_to_twice (file : string) (x y : list byte) (w : World) :
  written_to file y (written_to file x w) = written_to file y w.
Proof.
  unfold written_to, with_files, with_handles.
  cbn [files handles requests stdout menus commands trace].
  rewrite !insert_insert_eq. reflexivity.
Qed.

Lemma written_to_id (file : string) (written : list byte) (w : World) :
  open_with file written w → written_to file written w = w.
Proof.
  intros [Hhandle Hfile]. unfold written_to, with_files, with_handles.
  cbn [files handles requests stdout menus commands trace].
  rewrite !insert_id by done. destruct w; reflexivity.
Qed.

Lemma write_known (file : string) (data old : list byte) (w : World) :
  handles w !! file = Some old →
  write file data w = (Return tt, written_to file (old ++ data) w).
Proof.
  intros Hold. unfold write. rewrite run_bind. cbn [gets].
  rewrite Hold. reflexivity.
Qed.

Lemma flush_known (file : string) (written : list byte) (w : World) :
  handles w !! file = Some written →
  flush file w = (Return tt, with_files (λ fs, <[file := written]> fs) w).
Proof.
  intros Hopen. unfold flush. rewrite run_bind. cbn [gets].
  rewrite Hopen. reflexivity.
Qed.

Lemma close_known (file : string) (written : list byte) (w : World) :
  handles w !! file = Some written →
  close file w = (Return tt, closed_with file written w).
Proof.
  intros Hopen. unfold close. rewrite run_bind. cbn [gets].
  rewrite Hopen. reflexivity.
Qed.

(** Writing the chunks of a response adds its body to what the file
    object has. *)
Lemma write_chunks (file : string) (cs : list (list byte)) (w : World)
    (old : list byte) :
  open_with file old w →
  for_each cs (λ chunk, write file chunk) w
  = (Return tt, written_to file (old ++ concat cs) w).
Proof.
  revert w old. induction cs as [|c cs IH]; intros w old Hold.
  - simpl. rewrite app_nil_r, written_to_id by done. reflexivity.
  - cbn [for_each]. rewrite run_bind.
    rewrite (write_known file c old) by apply Hold.
    rewrite (IH _ (old ++ c)) by apply written_to_open_with.
    rewrite written_to_twice. cbn [concat].
    rewrite <- app_assoc. reflexivity.
Qed.

(** The same for a file object whatever the disk holds: what the file
    object has, and that no request is made. *)
Lemma write_chunks_handles (file : string) (cs : list (list byte)) (w : World)
    (old : list byte) :
  handles w !! file = Some old →
  ∃ w',
    for_each cs (λ chunk, write file chunk) w = (Return tt, w') ∧
    handles w' = <[file := old ++ concat cs]> (handles w) ∧
    requests w' = requests w.
Proof.
  revert w old. induction cs as [|c cs IH]; intros w old Hold.
  - exists w. split; [reflexivity|]. simpl.
    rewrite app_nil_r, insert_id by done. done.
  - destruct (IH (written_to file (old ++ c) w) (old ++ c))
      as (w' & Hrun & Hhandles & Hrequests); [apply lookup_insert_eq|].
    exists w'. split; [|split].
    + cbn [for_each]. rewrite run_bind.
      rewrite (write_known file c old) by exact Hold. exact Hrun.
    + rewrite Hhandles. cbn [handles written_to with_files with_handles concat].
      rewrite insert_insert_eq, <- app_assoc. reflexivity.
    + rewrite Hrequests. reflexivity.
Qed.

(** When every segment is answered with 200, the loop writes the bodies
    in manifest order and requests exactly the segment URLs. *)
Lemma download_segments_ok (kind base file : string)
    (segments : list Segment) (w : World) (old : list byte) :
  open_with file old w →
  Forall (λ r, status_code r = 200)
    (fetch_all (requests w) (segment_urls base segments)) →
  download_segments kind base file segments w
  = (Return tt,
     with_requests (λ l, l ++ segment_urls base segments)
       (written_to file
          (old ++ concat (body <$>
                    fetch_all (requests w) (segment_urls base segments)))
          w)).
Proof.
  revert w old. induction segments as [|sg segments IH]; intros w old Hold Hok.
  - simpl. rewrite app_nil_r, written_to_id by done.
    unfold with_requests. rewrite app_nil_r. destruct w; reflexivity.
  - unfold download_segments. cbn [for_each].
    fold (download_segments kind base file segments).
    simpl in Hok. apply Forall_cons in Hok as [H200 Hok].
    rewrite run_bind. unfold requests_get at 1.
    rewrite !run_bind. cbn [gets modify mret M_ret ret].
    rewrite !run_bind. cbn [gets modify mret M_ret ret].
    rewrite H200. cbn [Z.eqb Pos.eqb negb].
    set (w1 := with_requests _ w).
    rewrite run_bind. cbn [mret M_ret ret].
    rewrite (write_chunks file _ w1 old) by exact Hold.
    rewrite (IH _ (old ++ concat (chunks (http_get (requests w)
                                            (base +:+ url sg)))));
      [|apply written_to_open_with|exact Hok].
    rewrite written_to_twice. subst w1.
    unfold with_requests, written_to, with_files, with_handles.
    cbn [files handles requests stdout menus commands trace fmap list_fmap
         concat].
    unfold body at 2. rewrite <- !app_assoc. reflexivity.
Qed.
End Assembly.

Section AssemblySteps.
Context `{Env}.

Lemma decode_init_segment_Some (x : string) (data : list byte) (w : World) :
  b64decode x = Some data → decode_init_segment x w = (Return data, w).
Proof. intros Hx. unfold decode_init_segment. rewrite Hx. reflexivity. Qed.

(** The start of a track: the file is created or truncated and the
    decoded initialization segment is written to the file object. *)
Lemma open_track {B} (file init : string) (data : list byte)
    (k : M St B) (s : St) :
  b64decode init = Some data →
  (in_world (open_wb file);;
   init_segment ← in_world (decode_init_segment init);
   in_world (write file init_segment);;
   k) s
  = k {| self := self s; world := written_to file data (world s) |}.
Proof.
  intros Hinit.
  erewrite run_bind_Return by (apply run_in_world_Return; reflexivity).
  erewrite run_bind_Return
    by (apply run_in_world_Return, decode_init_segment_Some, Hinit).
  erewrite run_bind_Return
    by (apply run_in_world_Return, (write_known _ _ []), lookup_insert_eq).
  cbn [self world]. f_equal. f_equal.
  unfold written_to, with_files, with_handles.
  cbn [files handles requests stdout menus commands trace app].
  rewrite !insert_insert_eq. reflexivity.
Qed.

(** The segments of a track, all answered with 200. *)
Lemma download_track (kind base file : string) (data : list byte)
    (segments : list Segment) (s : St) :
  open_with file data (world s) →
  Forall (λ r, status_code r = 200)
    (fetch_all (requests (world s)) (segment_urls base segments)) →
  in_world (download_segments kind base file segments) s
  = (Return tt,
     {| self := self s;
        world :=
          with_requests (λ l, l ++ segment_urls base segments)
            (written_to file
               (data ++ concat (body <$>
                          fetch_all (requests (world s))
                            (segment_urls base segments)))
               (world s)) |}).
Proof.
  intros Hfile Hok. apply run_in_world_Return.
  apply download_segments_ok; assumption.
Qed.

(** The end of a track: the file object is flushed and closed, and the
    file holds all that was written. *)
Lemma close_track {B} (file : string) (written : list byte) (k : M St B)
    (s : St) :
  handles (world s) !! file = Some written →
  (in_world (flush file);; in_world (close file);; k) s
  = k {| self := self s; world := closed_with file written (world s) |}.
Proof.
  intros Hopen.
  erewrite run_bind_Return
    by (apply run_in_world_Return, flush_known, Hopen).
  erewrite run_bind_Return
    by (apply run_in_world_Return, (close_known _ written), Hopen).
  cbn [self world]. f_equal. f_equal.
  unfold closed_with, with_files, with_handles.
  cbn [files handles requests stdout menus commands trace].
  rewrite insert_insert_eq. reflexivity.
Qed.
(** The state after a download whose segments are all answered with 200. *)
Lemma download_audio_video_run (s : St) (a : Audio.t) (v : Video.t)
    (init_a init_v : list byte) :
  audio_json (self s) = Some a →
  video_json (self s) = Some v →
  b64decode (Audio.init_segment a) = Some init_a →
  b64decode (Video.init_segment v) = Some init_v →
  Forall (λ r, status_code r = 200)
    (fetch_all (requests (world s))
       (segment_urls (base_url (self s) +:+ Audio.base_url a)
          (Audio.segments a))) →
  Forall (λ r, status_code r = 200)
    (fetch_all
       (requests (world s) ++
        segment_urls (base_url (self s) +:+ Audio.base_url a)
          (Audio.segments a))
       (segment_urls (base_url (self s) +:+ Video.base_url v)
          (Video.segments v))) →
  ∃ w',
    download_audio_video s
    = (Return tt,
       {| self := set_video_file
                    (track_file (self s) "video" (Video.id v) ".mp4")
                    (set_audio_file
                       (track_file (self s) "audio" (Audio.id a) ".m4a")
                       (self s));
          world := w' |}) ∧
    commands w' = commands (world s) ∧
    files w'
    = <[track_file (self s) "video" (Video.id v) ".mp4" :=
          init_v ++ concat (body <$>
            fetch_all
              (requests (world s) ++
               segment_urls (base_url (self s) +:+ Audio.base_url a)
                 (Audio.segments a))
              (segment_urls (base_url (self s) +:+ Video.base_url v)
                 (Video.segments v)))]>
        (<[track_file (self s) "audio" (Audio.id a) ".m4a" :=
             init_a ++ concat (body <$>
               fetch_all (requests (world s))
                 (segment_urls (base_url (self s) +:+ Audio.base_url a)
                    (Audio.segments a)))]>
           (files (world s))) ∧
    handles w'
    = delete (track_file (self s) "video" (Video.id v) ".mp4")
        (delete (track_file (self s) "audio" (Audio.id a) ".m4a")
           (handles (world s))).
Proof.
  intros Ha Hv Hia Hiv Hoka Hokv.
  set (af := track_file (self s) "audio" (Audio.id a) ".m4a").
  set (vf := track_file (self s) "video" (Video.id v) ".mp4").
  set (audio := init_a ++ concat (body <$> fetch_all (requests (world s)) _)).
  set (video := init_v ++ concat (body <$> fetch_all (_ ++ _) _)).
  unfold download_audio_video. rewrite run_bind. cbn [gets].
  rewrite Ha, Hv. unfold download_tracks. fold af vf.
  do 2 (erewrite run_bind_Return by (apply run_in_world_Return; reflexivity)).
  erewrite run_bind_Return by reflexivity.
  cbn [self world].
  rewrite (open_track _ _ init_a) by exact Hia.
  cbn [self world].
  erewrite run_bind_Return.
  2:{ apply (download_track _ _ _ init_a);
        [apply written_to_open_with|exact Hoka]. }
  cbn [self world].
  rewrite (close_track _ audio) by apply lookup_insert_eq.
  cbn [self world].
  erewrite run_bind_Return by reflexivity.
  cbn [self world].
  rewrite (open_track _ _ init_v) by exact Hiv.
  cbn [self world].
  erewrite run_bind_Return.
  2:{ apply (download_track _ _ _ init_v);
        [apply written_to_open_with|exact Hokv]. }
  cbn [self world].
  erewrite run_bind_Return
    by (apply run_in_world_Return, (flush_known _ video), lookup_insert_eq).
  erewrite run_in_world_Return
    by (apply (close_known _ video), lookup_insert_eq).
  eexists. split; [reflexivity|]. split; [reflexivity|].
  cbn [self world files handles requests stdout menus commands trace
       closed_with written_to with_requests with_stdout with_files
       with_handles].
  split.
  - rewrite !insert_insert_eq. reflexivity.
  - rewrite !delete_insert_eq. reflexivity.
Qed.

End AssemblySteps.

(** C5: when every segment fetch of a configured job is answered with 200,
    each track file holds the decoded initialization segment followed by
    the bodies of the segment responses in manifest order, and nothing
    else. *)
Theorem assembled_track_files `{Env} (s : St) (a : Audio.t) (v : Video.t)
    (init_a init_v : list byte) :
  audio_json (self s) = Some a →
  video_json (self s) = Some v →
  b64decode (Audio.init_segment a) = Some init_a →
  b64decode (Video.init_segment v) = Some init_v →
  let audio_urls :=
    segment_urls (base_url (self s) +:+ Audio.base_url a) (Audio.segments a) in
  let video_urls :=
    segment_urls (base_url (self s) +:+ Video.base_url v) (Video.segments v) in
  let audio_responses := fetch_all (requests (world s)) audio_urls in
  let video_responses :=
    fetch_all (requests (world s) ++ audio_urls) video_urls in
  Forall (λ r, status_code r = 200) (audio_responses ++ video_responses) →
  fst (download_audio_video s) = Return tt ∧
  audio_file (self (snd (download_audio_video s)))
    = Some (track_file (self s) "audio" (Audio.id a) ".m4a") ∧
  video_file (self (snd (download_audio_video s)))
    = Some (track_file (self s) "video" (Video.id v) ".mp4") ∧
  files (world (snd (download_audio_video s)))
    !! track_file (self s) "audio" (Audio.id a) ".m4a"
    = Some (init_a ++ concat (body <$> audio_responses)) ∧
  files (world (snd (download_audio_video s)))
    !! track_file (self s) "video" (Video.id v) ".mp4"
    = Some (init_v ++ concat (body <$> video_responses)).
Proof.
  intros Ha Hv Hia Hiv audio_urls video_urls audio_responses video_responses Hok.
  apply Forall_app in Hok as [Hoka Hokv].
  pose proof (track_file_audio_video_ne (self s) (Audio.id a) (Video.id v))
    as Hne.
  destruct (download_audio_video_run s a v init_a init_v Ha Hv Hia Hiv
              Hoka Hokv) as (w' & -> & _ & Hfiles & _).
  cbn [fst snd self world set_video_file set_audio_file audio_file
       video_file].
  rewrite Hfiles.
  split; [done|]. split; [done|]. split; [done|]. split.
  - rewrite lookup_insert_ne by done. apply lookup_insert_eq.
  - apply lookup_insert_eq.
Qed.

Lemma assembled_track_files_witness :
  files (world (snd (@download_audio_video (Fake.env Fake.manifest 200 200 0 0)
                       Fake.configured)))
    !! "/home/user/out_audio_a256.m4a"
  = Some ([x03; x04] ++
          concat (body <$> @fetch_all (Fake.env Fake.manifest 200 200 0 0) []
                             ["http://host/m/audio/256/s1.m4s";
                              "http://host/m/audio/256/s2.m4s"])) ∧
  files (world (snd (@download_audio_video (Fake.env Fake.manifest 200 200 0 0)
                       Fake.configured)))
    !! "/home/user/out_video_v720.mp4"
  = Some ([x00; x01; x02] ++
          concat (body <$> @fetch_all (Fake.env Fake.manifest 200 200 0 0)
                             ["http://host/m/audio/256/s1.m4s";
                              "http://host/m/audio/256/s2.m4s"]
                             ["http://host/m/video/720/s1.m4s";
                              "http://host/m/video/720/s2.m4s"])).
Proof.
  destruct (@assembled_track_files (Fake.env Fake.manifest 200 200 0 0)
              Fake.configured Fake.audio256 Fake.video720
              [x03; x04] [x00; x01; x02])
    as (_ & _ & _ & Haudio & Hvideo).
  - reflexivity.
  - reflexivity.
  - reflexivity.
  - reflexivity.
  - simpl. repeat constructor.
  - split; [exact Haudio|exact Hvideo].
Defined.

(** ** The requests of a computation *)

Section Issues.
Context {S E : Type} (req : S → list E).

(** A computation that leaves the log alone issues nothing. *)
Lemma issues_nothing {A} (m : M S A) :
  (∀ s, req (snd (m s)) = req s) → issues req m [].
Proof.
  intros Hm s. exists []. rewrite app_nil_r. split; [apply Hm|].
  destruct (fst (m s)); [reflexivity|apply prefix_nil].
Qed.

Lemma issues_ret {A} (a : A) : issues req (mret a) [].
Proof. apply issues_nothing. reflexivity. Qed.

Lemma issues_raise {A} (e : exn) : issues req (@raise S A e) [].
Proof. apply issues_nothing. reflexivity. Qed.

Lemma issues_lift {A} (r : outcome A) : issues req (lift r) [].
Proof. apply issues_nothing. reflexivity. Qed.

Lemma issues_modify (f : S → S) :
  (∀ s, req (f s) = req s) → issues req (modify f) [].
Proof. intros Hf. apply issues_nothing. exact Hf. Qed.

Lemma issues_bind {A B} (m : M S A) (k : A → M S B) (u1 u2 : list E) :
  issues req m u1 → (∀ a, issues req (k a) u2) →
  issues req (m ≫= k) (u1 ++ u2).
Proof.
  intros Hm Hk s. rewrite run_bind. destruct (Hm s) as (l1 & Hreq1 & Hl1).
  destruct (m s) as [[a|e] s1]; simpl in *.
  - subst l1. destruct (Hk a s1) as (l2 & Hreq2 & Hl2).
    exists (u1 ++ l2). rewrite Hreq2, Hreq1, <- app_assoc. split; [done|].
    destruct (fst (k a s1)); [by subst|].
    by apply prefix_app.
  - exists l1. split; [done|]. by apply prefix_app_r.
Qed.

(** A computation without requests in front of one with requests. *)
Lemma issues_bind_nil {A B} (m : M S A) (k : A → M S B) (u : list E) :
  issues req m [] → (∀ a, issues req (k a) u) → issues req (m ≫= k) u.
Proof. intros Hm Hk. exact (issues_bind m k [] u Hm Hk). Qed.

(** The same, when what follows depends on a property of the value. *)
Lemma issues_bind_post {A B} (P : A → Prop) (m : M S A) (k : A → M S B)
    (u1 u2 : list E) :
  issues req m u1 →
  (∀ s a s', m s = (Return a, s') → P a) →
  (∀ a, P a → issues req (k a) u2) →
  issues req (m ≫= k) (u1 ++ u2).
Proof.
  intros Hm HP Hk s. rewrite run_bind. destruct (Hm s) as (l1 & Hreq1 & Hl1).
  destruct (m s) as [[a|e] s1] eqn:Hms; simpl in *.
  - subst l1. destruct (Hk a (HP s a s1 Hms) s1) as (l2 & Hreq2 & Hl2).
    exists (u1 ++ l2). rewrite Hreq2, Hreq1, <- app_assoc. split; [done|].
    destruct (fst (k a s1)); [by subst|].
    by apply prefix_app.
  - exists l1. split; [done|]. by apply prefix_app_r.
Qed.

Lemma issues_eq {A} (m : M S A) (u u' : list E) :
  issues req m u → u = u' → issues req m u'.
Proof. intros Hm <-. exact Hm. Qed.

Lemma issues_for_each_nil {A} (l : list A) (body : A → M S unit) :
  (∀ x, issues req (body x) []) → issues req (for_each l body) [].
Proof.
  intros Hbody. induction l as [|x l IH]; [apply issues_ret|].
  cbn [for_each]. apply issues_bind_nil; [apply Hbody|intros _; exact IH].
Qed.

Lemma issues_gets {A} (g : S → A) : issues req (gets g) [].
Proof. apply issues_nothing. reflexivity. Qed.
End Issues.

Section IssuesWorld.
Context `{Env}.

Lemma issues_in_world {A E} (req : World → list E) (m : M World A)
    (urls : list E) :
  issues req m urls → issues (λ s, req (world s)) (in_world m) urls.
Proof.
  intros Hm s. rewrite run_in_world. simpl. exact (Hm (world s)).
Qed.

Lemma issues_on_self (f : VimeoDownload → VimeoDownload) :
  issues (λ s, requests (world s)) (on_self f) [].
Proof. apply issues_modify. reflexivity. Qed.

Lemma issues_print (line : string) : issues requests (print line) [].
Proof. apply issues_modify. reflexivity. Qed.

Lemma issues_open_wb (file : string) : issues requests (open_wb file) [].
Proof.
  unfold open_wb. apply issues_bind_nil; [|intros _];
    apply issues_modify; reflexivity.
Qed.

Lemma issues_write (file : string) (data : list byte) :
  issues requests (write file data) [].
Proof.
  unfold write. apply issues_bind_nil; [apply issues_gets|]. intros hs.
  destruct (hs !! file); [|apply issues_raise].
  apply issues_bind_nil; [|intros _]; apply issues_modify; reflexivity.
Qed.

Lemma issues_flush (file : string) : issues requests (flush file) [].
Proof.
  unfold flush. apply issues_bind_nil; [apply issues_gets|]. intros hs.
  destruct (hs !! file); [|apply issues_raise].
  apply issues_modify; reflexivity.
Qed.

Lemma issues_close (file : string) : issues requests (close file) [].
Proof.
  unfold close. apply issues_bind_nil; [apply issues_gets|]. intros hs.
  destruct (hs !! file); [|apply issues_ret].
  apply issues_bind_nil; [|intros _]; apply issues_modify; reflexivity.
Qed.

Lemma issues_decode_init_segment (x : string) :
  issues requests (decode_init_segment x) [].
Proof.
  unfold decode_init_segment.
  destruct (b64decode x); [apply issues_ret|apply issues_raise].
Qed.

Lemma issues_requests_get (u : string) : issues requests (requests_get u) [u].
Proof. intros w. exists [u]. done. Qed.

Lemma issues_write_chunks (file : string) (cs : list (list byte)) :
  issues requests (for_each cs (λ chunk, write file chunk)) [].
Proof.
  induction cs as [|c cs IH]; [apply issues_ret|].
  cbn [for_each]. apply issues_bind_nil; [apply issues_write|].
  intros _. exact IH.
Qed.

(** The loop over the segments requests the segment URLs in manifest
    order, up to the first one that fails. *)
Lemma issues_download_segments (kind base file : string)
    (segments : list Segment) :
  issues requests (download_segments kind base file segments)
    (segment_urls base segments).
Proof.
  induction segments as [|sg segments IH]; [apply issues_ret|].
  unfold download_segments. cbn [for_each].
  fold (download_segments kind base file segments).
  change (segment_urls base (sg :: segments))
    with ([base +:+ url sg] ++ segment_urls base segments).
  apply issues_bind; [|intros _; exact IH].
  change [base +:+ url sg] with ([base +:+ url sg] ++ []).
  apply issues_bind; [apply issues_requests_get|]. intros response.
  apply issues_bind_nil; [|intros _; apply issues_write_chunks].
  destruct (negb _); [|apply issues_ret].
  apply issues_bind_nil; [apply issues_print|].
  intros _. apply issues_lift.
Qed.

(** Every URL that [download_audio_video] builds starts with the job's
    [base_url] and the rendition's. *)
Lemma issues_download_tracks (o : VimeoDownload) (a : Audio.t) (v : Video.t) :
  issues (λ s, requests (world s)) (download_tracks o a v)
    (segment_urls (base_url o +:+ Audio.base_url a) (Audio.segments a) ++
     segment_urls (base_url o +:+ Video.base_url v) (Video.segments v)).
Proof.
  unfold download_tracks.
  do 2 (apply issues_bind_nil;
        [apply issues_in_world, issues_print|intros _]).
  apply issues_bind_nil; [apply issues_on_self|intros _].
  apply issues_bind_nil; [apply issues_in_world, issues_open_wb|intros _].
  apply issues_bind_nil;
    [apply issues_in_world, issues_decode_init_segment|intros init_a].
  apply issues_bind_nil; [apply issues_in_world, issues_write|intros _].
  apply issues_bind;
    [apply issues_in_world, issues_download_segments|intros _].
  apply issues_bind_nil; [apply issues_in_world, issues_flush|intros _].
  apply issues_bind_nil; [apply issues_in_world, issues_close|intros _].
  apply issues_bind_nil; [apply issues_on_self|intros _].
  apply issues_bind_nil; [apply issues_in_world, issues_open_wb|intros _].
  apply issues_bind_nil;
    [apply issues_in_world, issues_decode_init_segment|intros init_v].
  apply issues_bind_nil; [apply issues_in_world, issues_write|intros _].
  apply (issues_eq _ _
           (segment_urls (base_url o +:+ Video.base_url v) (Video.segments v)
            ++ [])); [|apply app_nil_r].
  apply issues_bind;
    [apply issues_in_world, issues_download_segments|intros _].
  apply issues_bind_nil; [apply issues_in_world, issues_flush|intros _].
  apply issues_in_world, issues_close.
Qed.
End IssuesWorld.

Section PreservesTracks.
Context `{Env} {X : Type} (f : VimeoDownload → X).

Lemma preserves_configure_quality b aq vq :
  (∀ a o, f (set_audio_json a o) = f o) →
  (∀ v o, f (set_video_json v o) = f o) →
  preserves f (configure_quality b aq vq).
Proof.
  intros Ha Hv. unfold configure_quality.
  destruct (negb b && _); [preserves_step|].
  preserves_step; [preserves_step|].
  preserves_step; [preserves_step|].
  preserves_step; [apply preserves_process_audio_quality|].
  preserves_step; [apply preserves_set_audio_quality, Ha|].
  preserves_step; [apply preserves_process_video_quality|].
  preserves_step; [apply preserves_set_video_quality, Hv|].
  apply preserves_report_quality.
Qed.

Lemma preserves_download_audio_video :
  (∀ p o, f (set_audio_file p o) = f o) →
  (∀ p o, f (set_video_file p o) = f o) →
  preserves f download_audio_video.
Proof.
  intros Ha Hv. unfold download_audio_video.
  preserves_step; [preserves_step|].
  destruct (audio_json _); [|preserves_step].
  destruct (video_json _); [|preserves_step].
  unfold download_tracks.
  do 2 (preserves_step; [preserves_step|]).
  preserves_step; [apply preserves_on_self; intros o; apply Ha|].
  do 6 (preserves_step; [preserves_step|]).
  preserves_step; [apply preserves_on_self; intros o; apply Hv|].
  do 5 (preserves_step; [preserves_step|]).
  preserves_step.
Qed.

Lemma preserves_combine_audio_video : preserves f combine_audio_video.
Proof.
  unfold combine_audio_video.
  preserves_step; [preserves_step|].
  destruct (audio_file _); [|preserves_step].
  destruct (video_file _); [|preserves_step].
  do 2 (preserves_step; [preserves_step|]).
  destruct (negb _ || negb _); [preserves_step|].
  repeat preserves_step.
Qed.
End PreservesTracks.

Section InitRequests.
Context `{Env}.

Lemma issues_get_master_json (u : string) :
  issues requests (get_master_json u) [u].
Proof.
  unfold get_master_json.
  change [u] with ([u] ++ []).
  apply issues_bind; [apply issues_requests_get|]. intros response.
  apply issues_bind_nil.
  { destruct (_ =? 410); [|apply issues_ret].
    apply issues_bind_nil; [apply issues_print|intros _; apply issues_lift]. }
  intros _. apply issues_bind_nil.
  { destruct (negb _); [|apply issues_ret].
    apply issues_bind_nil; [apply issues_print|intros _; apply issues_lift]. }
  intros _. unfold response_json.
  destruct (json _); [apply issues_ret|apply issues_raise].
Qed.

(** The probe of [generate_base_url] and the base URL it settles. *)
Lemma generate_base_url_probe (u top : string) (m : MasterJson.t)
    (tv : Video.t) (tvs : list Video.t) (sg : Segment) (sgs : list Segment)
    (w : World) :
  MasterJson.base_url m = Some top →
  MasterJson.video m = tv :: tvs →
  Video.segments tv = sg :: sgs →
  let trimmed_url := take_str (rfind "/"%char u + 1) u in
  let probe := trimmed_url +:+ top +:+ Video.base_url tv +:+ url sg in
  generate_base_url u m w
  = (Return (if status_code (http_get (requests w) probe) =? 200
             then trimmed_url +:+ top else trimmed_url),
     with_requests (λ l, l ++ [probe]) w).
Proof.
  intros Htop Hvideo Hsegments trimmed_url probe.
  unfold generate_base_url. rewrite Hvideo, Htop.
  rewrite run_bind. unfold lift at 1.
  change (getitem (tv :: tvs) 0) with (Return tv). cbv iota.
  rewrite run_bind. cbn [mret M_ret ret].
  rewrite Hsegments. rewrite run_bind. unfold lift at 1.
  change (getitem (sg :: sgs) 0) with (Return sg). cbv iota.
  rewrite run_bind. unfold requests_get.
  rewrite !run_bind. cbn [gets modify mret M_ret ret].
  rewrite !run_bind. cbn [gets modify mret M_ret ret].
  fold trimmed_url. fold probe.
  destruct (status_code (http_get (requests w) probe) =? 200); reflexivity.
Qed.
End InitRequests.

(** C4: for a manifest at [dir/file], the construction probes exactly the
    URL made of the manifest directory, the manifest's base_url, the first
    video rendition's base_url and its first segment's URL; the job's
    base URL includes the manifest's base_url when the probe is answered
    with 200 and omits it otherwise; no later method changes it, and every
    URL that the download builds starts with it. *)
Theorem base_url_resolved_once `{Env} (output dir file top : string)
    (w w1 : World) (m : MasterJson.t) (tv : Video.t) (tvs : list Video.t)
    (sg : Segment) (sgs : list Segment) :
  slash_free file = true →
  get_master_json (dir +:+ "/" +:+ file) w = (Return m, w1) →
  MasterJson.base_url m = Some top →
  MasterJson.video m = tv :: tvs →
  Video.segments tv = sg :: sgs →
  let probe := (dir +:+ "/") +:+ top +:+ Video.base_url tv +:+ url sg in
  let resolved :=
    if status_code (http_get (requests w1) probe) =? 200
    then (dir +:+ "/") +:+ top else dir +:+ "/" in
  (∃ o,
     __init__ output (dir +:+ "/" +:+ file) w
       = (Return o, with_requests (λ l, l ++ [probe]) w1) ∧
     requests w1 = requests w ++ [dir +:+ "/" +:+ file] ∧
     base_url o = resolved) ∧
  (∀ s b aq vq,
     base_url (self (snd (configure_quality b aq vq s))) = base_url (self s)) ∧
  (∀ s, base_url (self (snd (download_audio_video s))) = base_url (self s)) ∧
  (∀ s, base_url (self (snd (combine_audio_video s))) = base_url (self s)) ∧
  (∀ s a v,
     audio_json (self s) = Some a → video_json (self s) = Some v →
     base_url (self s) = resolved →
     ∃ l,
       requests (world (snd (download_audio_video s)))
         = requests (world s) ++ l ∧
       l `prefix_of`
         (segment_urls (resolved +:+ Audio.base_url a) (Audio.segments a) ++
          segment_urls (resolved +:+ Video.base_url v) (Video.segments v)) ∧
       (fst (download_audio_video s) = Return tt →
        l = segment_urls (resolved +:+ Audio.base_url a) (Audio.segments a) ++
            segment_urls (resolved +:+ Video.base_url v) (Video.segments v))).
Proof.
  intros Hfile Hget Htop Hvideo Hsegments probe resolved.
  split; [|split; [|split; [|split]]].
  - pose proof (generate_base_url_probe (dir +:+ "/" +:+ file) top m tv tvs
                  sg sgs w1 Htop Hvideo Hsegments) as Hgen.
    cbv zeta in Hgen. rewrite (trimmed_url_directory dir file Hfile) in Hgen.
    fold probe in Hgen. fold resolved in Hgen.
    eexists. split; [|split].
    + unfold __init__. rewrite (run_bind_Return _ _ w m w1 Hget).
      rewrite (run_bind_Return _ _ _ _ _ Hgen). reflexivity.
    + destruct (issues_get_master_json (dir +:+ "/" +:+ file) w)
        as (l & Hreq & Hl).
      rewrite Hget in Hreq, Hl. simpl in Hreq, Hl. subst l. exact Hreq.
    + reflexivity.
  - intros s b aq vq. apply preserves_configure_quality; reflexivity.
  - intros s. apply preserves_download_audio_video; reflexivity.
  - intros s. apply preserves_combine_audio_video.
  - intros s a v Ha Hv Hbase.
    unfold download_audio_video. rewrite run_bind. cbn [gets].
    rewrite Ha, Hv.
    destruct (issues_download_tracks (self s) a v s) as (l & Hreq & Hl).
    rewrite Hbase in Hl. exists l. split; [exact Hreq|]. split.
    + destruct (fst (download_tracks (self s) a v s)); [by subst|done].
    + intros Hret. rewrite Hret in Hl. exact Hl.
Qed.

Lemma base_url_resolved_once_witness :
  (∃ o,
     @__init__ (Fake.env Fake.manifest 200 404 0 0) "out.mp4"
       "http://host/m/master.json" Fake.empty_world
     = (Return o,
        with_requests (λ l, l ++ ["http://host/m/../video/360/s1.m4s"])
          (with_requests (λ _, ["http://host/m/master.json"])
             Fake.empty_world)) ∧
     base_url o = "http://host/m/").
Proof.
  destruct (@base_url_resolved_once (Fake.env Fake.manifest 200 404 0 0)
              "out.mp4" "http://host/m" "master.json" "../"
              Fake.empty_world
              (with_requests (λ _, ["http://host/m/master.json"])
                 Fake.empty_world)
              Fake.manifest Fake.video360 [Fake.video720; Fake.video1080]
              (Fake.seg "s1.m4s") [Fake.seg "s2.m4s"])
    as [(o & Hinit & _ & Hbase) _].
  - reflexivity.
  - reflexivity.
  - reflexivity.
  - reflexivity.
  - reflexivity.
  - exists o. split; [exact Hinit|exact Hbase].
Defined.

(** ** Muxing *)

Section Combine.
Context `{Env}.

Lemma os_remove_present (path : string) (w : World) :
  is_Some (files w !! path) →
  os_remove path w = (Return tt, with_files (delete path) w).
Proof.
  intros [data Hdata]. unfold os_remove. rewrite run_bind. cbn [gets].
  rewrite Hdata. reflexivity.
Qed.

Lemma path_exists_present (path : string) (w : World) :
  is_Some (files w !! path) → path_exists path w = (Return true, w).
Proof.
  intros Hsome. unfold path_exists, gets.
  rewrite bool_decide_eq_true_2 by exact Hsome. reflexivity.
Qed.

(** ffmpeg is run once; it can only add or replace the output file. *)
Lemma subprocess_call_ffmpeg (command audio video output : string)
    (w : World) :
  ∃ status fs,
    subprocess_call command audio video output w
    = (Return status,
       {| files := fs; handles := handles w; requests := requests w;
          stdout := stdout w;
          menus := menus w; commands := commands w ++ [command];
          trace := trace w |}) ∧
    ∀ path, is_Some (files w !! path) → is_Some (fs !! path).
Proof.
  unfold subprocess_call. rewrite !run_bind. cbn [modify gets].
  rewrite !run_bind. cbn [modify gets with_commands files].
  destruct (ffmpeg _ _) as [status [data|]].
  - exists status, (<[output := data]> (files w)). split; [reflexivity|].
    intros path Hpath. destruct (decide (output = path)) as [->|Hne].
    + rewrite lookup_insert_eq. eauto.
    + rewrite lookup_insert_ne by done. exact Hpath.
  - exists status, (files w). split; [reflexivity|]. auto.
Qed.
End Combine.

(** C3, as amended: for a job whose two track files exist on disk, the mux
    step runs ffmpeg once and then deletes both track files and returns,
    whatever the exit status of ffmpeg is: the status is dropped, no error
    is raised and nothing is retried. *)
Theorem combine_deletes_tracks `{Env} (s : St) (af vf : string) :
  audio_file (self s) = Some af →
  video_file (self s) = Some vf →
  af ≠ vf →
  is_Some (files (world s) !! af) →
  is_Some (files (world s) !! vf) →
  fst (combine_audio_video s) = Return tt ∧
  files (world (snd (combine_audio_video s))) !! af = None ∧
  files (world (snd (combine_audio_video s))) !! vf = None ∧
  commands (world (snd (combine_audio_video s)))
    = commands (world s) ++ [ffmpeg_command af vf (output_file (self s))].
Proof.
  intros Haf Hvf Hne Ha Hv.
  unfold combine_audio_video. rewrite run_bind. cbn [gets]. rewrite Haf, Hvf.
  erewrite run_bind_Return
    by (apply run_in_world_Return, path_exists_present, Ha).
  erewrite run_bind_Return
    by (apply run_in_world_Return, path_exists_present, Hv).
  cbn [negb orb self world].
  do 2 (erewrite run_bind_Return by (apply run_in_world_Return; reflexivity)).
  cbn [self world].
  set (w2 := with_stdout _ (with_stdout _ (world s))).
  destruct (subprocess_call_ffmpeg
              (ffmpeg_command af vf (output_file (self s))) af vf
              (output_file (self s)) w2) as (status & fs & Hcall & Hkept).
  erewrite run_bind_Return by (apply run_in_world_Return, Hcall).
  cbn [self world].
  erewrite run_bind_Return.
  2:{ apply run_in_world_Return, os_remove_present. cbn [world files].
      apply Hkept. exact Ha. }
  cbn [self world with_files files requests stdout menus commands trace].
  rewrite run_in_world. cbn [world].
  rewrite os_remove_present.
  2:{ cbn [files with_files]. rewrite lookup_delete_ne by done.
      apply Hkept. exact Hv. }
  cbn [fst snd self world with_files files commands].
  split; [reflexivity|]. split; [|split].
  - rewrite lookup_delete_ne by done. apply lookup_delete_eq.
  - apply lookup_delete_eq.
  - reflexivity.
Qed.

Lemma combine_deletes_tracks_witness :
  fst (@combine_audio_video (Fake.env Fake.manifest 200 200 1 0)
         Fake.downloaded) = Return tt ∧
  files (world (snd (@combine_audio_video (Fake.env Fake.manifest 200 200 1 0)
                       Fake.downloaded)))
    !! "/home/user/out_audio_a256.m4a" = None ∧
  files (world (snd (@combine_audio_video (Fake.env Fake.manifest 200 200 1 0)
                       Fake.downloaded)))
    !! "/home/user/out_video_v720.mp4" = None.
Proof.
  destruct (@combine_deletes_tracks (Fake.env Fake.manifest 200 200 1 0)
              Fake.downloaded "/home/user/out_audio_a256.m4a"
              "/home/user/out_video_v720.mp4")
    as (Hret & Haudio & Hvideo & _).
  - reflexivity.
  - reflexivity.
  - discriminate.
  - vm_compute. eauto.
  - vm_compute. eauto.
  - split; [exact Hret|]. split; [exact Haudio|exact Hvideo].
Defined.

(** C3, as stated, fails: ffmpeg exits with status 1 and yet neither
    track file is left in place and no error reaches the caller. *)
Lemma combine_failed_mux_counterexample :
  fst (@ffmpeg (Fake.env Fake.manifest 200 200 1 0) [x03; x04] [x00; x01]) = 1 ∧
  ¬ (is_Some (files (world (snd (@combine_audio_video
                                   (Fake.env Fake.manifest 200 200 1 0)
                                   Fake.downloaded)))
                !! "/home/user/out_audio_a256.m4a") ∨
     is_Some (files (world (snd (@combine_audio_video
                                   (Fake.env Fake.manifest 200 200 1 0)
                                   Fake.downloaded)))
                !! "/home/user/out_video_v720.mp4") ∨
     ∃ e, fst (@combine_audio_video (Fake.env Fake.manifest 200 200 1 0)
                 Fake.downloaded) = Raise e).
Proof.
  split; [reflexivity|].
  intros [[x Hx]|[[x Hx]|[e He]]]; vm_compute in *; discriminate.
Qed.

(** ** The phases of a batch *)

Lemma ordered_batch_phased (t : list event) :
  StronglySorted may_precede t → batch_phased t.
Proof.
  intros Hs i j e1 e2 Hi Hj Hlt.
  destruct (Nat.lt_trichotomy i j) as [Hij|[->|Hji]]; [done| |].
  - rewrite Hi in Hj. injection Hj as ->. lia.
  - destruct (StronglySorted_app_1_elem_of may_precede
                (take i t) (drop i t) e2 e1) as [Hle _].
    + rewrite take_drop. exact Hs.
    + apply list_elem_of_lookup. exists j.
      rewrite lookup_take_lt by done. exact Hj.
    + apply list_elem_of_lookup. exists 0%nat.
      rewrite lookup_drop, Nat.add_0_r. exact Hi.
    + lia.
Qed.

Lemma ordered_job_sequential (t : list event) :
  StronglySorted may_precede t → job_sequential t.
Proof.
  intros Hs i j e1 e2 Hi Hj Hjob Hlt.
  destruct (Nat.lt_trichotomy i j) as [Hij|[->|Hji]]; [done| |].
  - rewrite Hi in Hj. injection Hj as ->. lia.
  - destruct (StronglySorted_app_1_elem_of may_precede
                (take i t) (drop i t) e2 e1) as [_ Hstep].
    + rewrite take_drop. exact Hs.
    + apply list_elem_of_lookup. exists j.
      rewrite lookup_take_lt by done. exact Hj.
    + apply list_elem_of_lookup. exists 0%nat.
      rewrite lookup_drop, Nat.add_0_r. exact Hi.
    + specialize (Hstep (eq_sym Hjob)). lia.
Qed.

Lemma config_events_elem (job n : nat) (e : event) :
  e ∈ config_events job n →
  (event_method e = Init ∨ event_method e = ConfigureQuality) ∧
  (job ≤ event_job e)%nat.
Proof.
  unfold config_events. rewrite list_elem_of_In, in_flat_map.
  intros (k & Hk & He). apply in_seq in Hk. simpl in He.
  destruct He as [<-|[<-|[<-|[<-|[]]]]]; simpl; split; auto; lia.
Qed.

Lemma method_events_elem (m : method) (job n : nat) (e : event) :
  e ∈ method_events m job n → event_method e = m ∧ (job ≤ event_job e)%nat.
Proof.
  unfold method_events. rewrite list_elem_of_In, in_flat_map.
  intros (k & Hk & He). apply in_seq in Hk. simpl in He.
  destruct He as [<-|[<-|[]]]; simpl; split; auto; lia.
Qed.

Lemma config_events_ordered (job n : nat) :
  StronglySorted may_precede (config_events job n).
Proof.
  revert job. induction n as [|n IH]; intros job; [constructor|].
  change (config_events job (S n))
    with (job_config_events job ++ config_events (S job) n).
  apply StronglySorted_app_2; [| |apply IH].
  - intros x1 x2 Hx1 Hx2. apply config_events_elem in Hx2 as [Hm Hjob].
    unfold job_config_events in Hx1.
    repeat (apply elem_of_cons in Hx1 as [->|Hx1]);
      [..|apply elem_of_nil in Hx1; destruct Hx1];
      (split; [destruct Hm as [-> | ->]; simpl; lia|simpl; lia]).
  - unfold job_config_events, may_precede.
    repeat (constructor; [repeat constructor; simpl; lia|]). constructor.
Qed.

Lemma method_events_ordered (m : method) (job n : nat) :
  StronglySorted may_precede (method_events m job n).
Proof.
  revert job. induction n as [|n IH]; intros job; [constructor|].
  change (method_events m job (S n))
    with ([Enter job m; Leave job m] ++ method_events m (S job) n).
  apply StronglySorted_app_2; [| |apply IH].
  - intros x1 x2 Hx1 Hx2. apply method_events_elem in Hx2 as [Hm Hjob].
    repeat (apply elem_of_cons in Hx1 as [->|Hx1]);
      [..|apply elem_of_nil in Hx1; destruct Hx1];
      (split; [rewrite Hm; simpl; lia|simpl; lia]).
  - unfold may_precede.
    repeat (constructor; [repeat constructor; destruct m; simpl; lia|]).
    constructor.
Qed.

Lemma step_of_method (e : event) :
  (2 * match event_method e with
       | Init => 0 | ConfigureQuality => 1
       | DownloadAudioVideo => 2 | CombineAudioVideo => 3
       end ≤ step e)%nat ∧
  (step e ≤ 2 * match event_method e with
                | Init => 0 | ConfigureQuality => 1
                | DownloadAudioVideo => 2 | CombineAudioVideo => 3
                end + 1)%nat.
Proof. destruct e as [job m|job m]; destruct m; simpl; lia. Qed.

Lemma phased_trace_ordered (n : nat) :
  StronglySorted may_precede (phased_trace n).
Proof.
  unfold phased_trace. apply StronglySorted_app_2.
  - intros x1 x2 Hx1 Hx2. apply config_events_elem in Hx1 as [Hm1 _].
    pose proof (step_of_method x1) as Hs1.
    pose proof (step_of_method x2) as Hs2.
    apply elem_of_app in Hx2 as [Hx2|Hx2];
      apply method_events_elem in Hx2 as [Hm2 _];
      rewrite Hm2 in Hs2; unfold may_precede; rewrite Hm2;
      destruct Hm1 as [Hm1|Hm1]; rewrite Hm1 in Hs1; rewrite Hm1;
      simpl; lia.
  - apply config_events_ordered.
  - apply StronglySorted_app_2;
      [|apply method_events_ordered|apply method_events_ordered].
    intros x1 x2 Hx1 Hx2.
    apply method_events_elem in Hx1 as [Hm1 _].
    apply method_events_elem in Hx2 as [Hm2 _].
    pose proof (step_of_method x1) as Hs1.
    pose proof (step_of_method x2) as Hs2.
    rewrite Hm1 in Hs1. rewrite Hm2 in Hs2.
    unfold may_precede. rewrite Hm1, Hm2. simpl. lia.
Qed.

Lemma prefix_ordered (t l : list event) :
  t `prefix_of` l → StronglySorted may_precede l →
  StronglySorted may_precede t.
Proof. intros [k ->]. apply StronglySorted_app_1_l. Qed.

(** A computation that logs nothing, rule by rule. *)
Ltac silent :=
  repeat first
    [ apply issues_ret | apply issues_raise | apply issues_lift
    | apply issues_gets
    | apply issues_modify; intros ?; reflexivity
    | apply issues_in_world
    | apply issues_for_each_nil; intros ?
    | apply issues_bind_nil; [|intros ?]
    | match goal with
      | |- issues _ (match ?x with _ => _ end) _ => destruct x
      end ].

Section Trace.
Context `{Env}.

(** The methods themselves do not write to the trace: the driver does. *)
Lemma init_silent (output u : string) : issues trace (__init__ output u) [].
Proof.
  unfold __init__, get_master_json, generate_base_url, requests_get,
    response_json, print.
  silent.
Qed.

Lemma configure_quality_silent b aq vq :
  issues (λ s, trace (world s)) (configure_quality b aq vq) [].
Proof.
  unfold configure_quality, process_audio_quality, set_audio_quality,
    process_video_quality, set_video_quality, report_quality,
    _ask_audio_quality, _ask_video_quality, show_menu, print, on_self.
  silent.
Qed.

Lemma download_audio_video_silent :
  issues (λ s, trace (world s)) download_audio_video [].
Proof.
  unfold download_audio_video, download_tracks, download_segments,
    decode_init_segment, requests_get, open_wb, write, flush, close, print,
    on_self.
  silent.
Qed.

Lemma combine_audio_video_silent :
  issues (λ s, trace (world s)) combine_audio_video [].
Proof.
  unfold combine_audio_video, subprocess_call, os_remove, path_exists,
    print.
  silent.
Qed.

Lemma call_silent {A} (o : VimeoDownload) (c : M St A) :
  issues (λ s, trace (world s)) c [] → issues trace (call o c) [].
Proof.
  intros Hc. apply issues_nothing. intros w.
  destruct (Hc {| self := o; world := w |}) as (l & Hreq & Hl).
  assert (l = []) as ->.
  { destruct (fst (c _)); [done|]. by apply prefix_nil_inv. }
  rewrite app_nil_r in Hreq. unfold call.
  destruct (c _) as [[a|e] s']; exact Hreq.
Qed.

Lemma traced_issues {A} (job : nat) (m : method) (c : M World A) :
  issues trace c [] →
  issues trace (traced job m c) [Enter job m; Leave job m].
Proof.
  intros Hc. unfold traced.
  apply (issues_bind trace _ _ [Enter job m] [Leave job m]).
  { intros w. exists [Enter job m]. done. }
  intros _. apply issues_bind_nil; [exact Hc|]. intros x.
  apply (issues_bind trace _ _ [Leave job m] []).
  { intros w. exists [Leave job m]. done. }
  intros _. apply issues_ret.
Qed.

(** The first loop logs the configuration events of its rows and hands
    back one object per row. *)
Lemma parse_tsv_file_issues (rows : list (list string)) (job : nat) :
  issues trace (parse_tsv_file rows job) (config_events job (length rows)).
Proof.
  revert job. induction rows as [|row rows IH]; intros job;
    [apply issues_ret|].
  cbn [parse_tsv_file length].
  apply (issues_eq trace _
           ([Enter job Init; Leave job Init] ++
            [Enter job ConfigureQuality; Leave job ConfigureQuality] ++
            config_events (S job) (length rows) ++ []));
    [|rewrite app_nil_r; reflexivity].
  apply issues_bind_nil; [apply issues_lift|].
  intros [[[video audio] output] u].
  apply issues_bind; [apply traced_issues, init_silent|]. intros download.
  apply issues_bind_nil; [apply issues_lift|]. intros video_quality.
  apply issues_bind_nil; [apply issues_lift|]. intros audio_quality.
  apply issues_bind.
  { apply traced_issues, call_silent, configure_quality_silent. }
  intros [[] download'].
  apply issues_bind; [apply IH|]. intros request_list. apply issues_ret.
Qed.

Lemma parse_tsv_file_length (rows : list (list string)) (job : nat)
    (w w' : World) (request_list : list VimeoDownload) :
  parse_tsv_file rows job w = (Return request_list, w') →
  length request_list = length rows.
Proof.
  revert job w w' request_list.
  induction rows as [|row rows IH]; intros job w w' request_list Hrun.
  - injection Hrun as <- _. reflexivity.
  - cbn [parse_tsv_file] in Hrun. rewrite run_bind in Hrun.
    destruct (lift (unpack_row row) w) as [[[[[video audio] output] u]|e] w1];
      [|discriminate].
    rewrite run_bind in Hrun.
    destruct (traced job Init _ w1) as [[download|e] w2]; [|discriminate].
    rewrite run_bind in Hrun.
    destruct (lift _ w2) as [[video_quality|e] w3]; [|discriminate].
    rewrite run_bind in Hrun.
    destruct (lift _ w3) as [[audio_quality|e] w4]; [|discriminate].
    rewrite run_bind in Hrun.
    destruct (traced job ConfigureQuality _ w4) as [[[[] download']|e] w5];
      [|discriminate].
    rewrite run_bind in Hrun.
    destruct (parse_tsv_file rows (S job) w5) as [[rest|e] w6] eqn:Hrest;
      [|discriminate].
    injection Hrun as <- _. simpl. f_equal. exact (IH _ _ _ _ Hrest).
Qed.

(** A loop over [request_list] logs the events of its method. *)
Lemma for_requests_issues (m : method) (c : M St unit)
    (request_list : list VimeoDownload) (job : nat) :
  issues (λ s, trace (world s)) c [] →
  issues trace (for_requests m c request_list job)
    (method_events m job (length request_list)).
Proof.
  intros Hc. revert job.
  induction request_list as [|download rest IH]; intros job;
    [apply issues_ret|].
  cbn [for_requests length].
  apply (issues_eq trace _
           ([Enter job m; Leave job m] ++
            method_events m (S job) (length rest) ++ []));
    [|rewrite app_nil_r; reflexivity].
  apply issues_bind; [apply traced_issues, call_silent, Hc|].
  intros [[] download'].
  apply issues_bind; [apply IH|]. intros rest'. apply issues_ret.
Qed.

Lemma for_requests_length (m : method) (c : M St unit)
    (request_list result : list VimeoDownload) (job : nat) (w w' : World) :
  for_requests m c request_list job w = (Return result, w') →
  length result = length request_list.
Proof.
  revert job w w' result.
  induction request_list as [|download rest IH]; intros job w w' result Hrun.
  - injection Hrun as <- _. reflexivity.
  - cbn [for_requests] in Hrun. rewrite run_bind in Hrun.
    destruct (traced job m _ w) as [[[[] download']|e] w1]; [|discriminate].
    rewrite run_bind in Hrun.
    destruct (for_requests m c rest (S job) w1) as [[rest'|e] w2] eqn:Hrest;
      [|discriminate].
    injection Hrun as <- _. simpl. f_equal. exact (IH _ _ _ _ Hrest).
Qed.

Lemma main_issues (rows : list (list string)) :
  issues trace (main rows) (phased_trace (length rows)).
Proof.
  unfold main, phased_trace.
  apply (issues_bind_post trace (λ l, length l = length rows));
    [apply parse_tsv_file_issues| |].
  { intros w l w'. apply parse_tsv_file_length. }
  intros request_list <-.
  apply (issues_bind_post trace
           (λ l, length l = length request_list)).
  - apply for_requests_issues, download_audio_video_silent.
  - intros w l w'. apply for_requests_length.
  - intros downloaded <-.
    apply for_requests_issues, combine_audio_video_silent.
Qed.
End Trace.

(** * Further properties of the script *)

(** ** Inverting a run *)

Lemma bind_Return_inv {S A B} (m : M S A) (k : A → M S B) (s s' : S) (b : B) :
  (m ≫= k) s = (Return b, s') →
  ∃ a s1, m s = (Return a, s1) ∧ k a s1 = (Return b, s').
Proof.
  rewrite run_bind. destruct (m s) as [[a|e] s1]; [|discriminate].
  intros Hk. exists a, s1. done.
Qed.

Lemma getitem_nat_inv {A} (l : list A) (i : nat) (x : A) :
  getitem l (Z.of_nat i) = Return x → l !! i = Some x.
Proof.
  unfold getitem.
  destruct (Z.ltb_spec (Z.of_nat i) 0) as [?|_]; [lia|].
  destruct (Z.ltb_spec (Z.of_nat i) 0) as [?|_]; [lia|].
  destruct (Z.leb_spec (Z.of_nat (length l)) (Z.of_nat i)) as [_|_];
    [discriminate|].
  simpl. rewrite Nat2Z.id. destruct (l !! i); [|discriminate].
  intros [= ->]. reflexivity.
Qed.

Lemma index_from_inv (x : Z) (l : list Z) (k n : nat) :
  index_from x l k = Some n → ∃ i, n = (k + i)%nat ∧ l !! i = Some x.
Proof.
  revert k. induction l as [|y l IH]; intros k; [discriminate|].
  simpl. destruct (Z.eqb_spec y x) as [->|Hne].
  - intros [= <-]. exists 0%nat. split; [lia|reflexivity].
  - intros Hn. destruct (IH _ Hn) as (i & -> & Hi).
    exists (S i). split; [lia|exact Hi].
Qed.

Lemma index_inv (l : list Z) (x : Z) (i : nat) :
  index l x = Return i → l !! i = Some x.
Proof.
  unfold index. destruct (index_from x l 0) as [n|] eqn:Hn; [|discriminate].
  intros [= <-]. destruct (index_from_inv _ _ _ _ Hn) as (j & -> & Hj).
  exact Hj.
Qed.

Lemma preserves_run {A X} (f : VimeoDownload → X) (m : M St A) (s s' : St)
    (r : outcome A) :
  preserves f m → m s = (r, s') → f (self s') = f (self s).
Proof. intros Hm Hrun. specialize (Hm s). rewrite Hrun in Hm. exact Hm. Qed.

Section Inversion.
Context `{Env}.

Lemma set_audio_quality_inv (b : Z) (s s' : St) :
  set_audio_quality b s = (Return tt, s') →
  ∃ i a,
    MasterJson.audio (master_json (self s)) !! i = Some a ∧
    Audio.bitrate a = b ∧
    s' = {| self := set_audio_json a (self s); world := world s |}.
Proof.
  unfold set_audio_quality. rewrite run_bind. cbn [gets].
  rewrite run_bind. unfold lift at 1.
  destruct (index _ b) as [i|e] eqn:Hindex; [|discriminate].
  rewrite run_bind. unfold lift at 1.
  destruct (getitem _ _) as [a|e] eqn:Hget; [|discriminate].
  intros [= <-]. apply index_inv in Hindex. apply getitem_nat_inv in Hget.
  exists i, a. split; [done|]. split; [|done].
  unfold list_bitrates in Hindex. rewrite list_lookup_fmap, Hget in Hindex.
  injection Hindex as ->. reflexivity.
Qed.

Lemma set_video_quality_inv (h : Z) (s s' : St) :
  set_video_quality h s = (Return tt, s') →
  ∃ i v,
    MasterJson.video (master_json (self s)) !! i = Some v ∧
    Video.height v = h ∧
    s' = {| self := set_video_json v (self s); world := world s |}.
Proof.
  unfold set_video_quality. rewrite run_bind. cbn [gets].
  rewrite run_bind. unfold lift at 1.
  destruct (index _ h) as [i|e] eqn:Hindex; [|discriminate].
  rewrite run_bind. unfold lift at 1.
  destruct (getitem _ _) as [v|e] eqn:Hget; [|discriminate].
  intros [= <-]. apply index_inv in Hindex. apply getitem_nat_inv in Hget.
  exists i, v. split; [done|]. split; [|done].
  unfold list_heights in Hindex. rewrite list_lookup_fmap, Hget in Hindex.
  injection Hindex as ->. reflexivity.
Qed.

(** The report of a configured job: three lines, and nothing else
    changes. *)
Lemma report_quality_run (s : St) (a : Audio.t) (v : Video.t) :
  audio_json (self s) = Some a → video_json (self s) = Some v →
  report_quality s
  = (Return tt,
     {| self := self s;
        world := with_stdout
          (λ out, out ++
             ["---- quality configuration ----";
              "video" +:+ tab +:+ str (Video.width v) +:+ "x"
                +:+ str (Video.height v);
              "audio" +:+ tab +:+ str (Audio.sample_rate a) +:+ "/"
                +:+ str (Audio.bitrate a)])
          (world s) |}).
Proof.
  intros Ha Hv. unfold report_quality. rewrite run_bind. cbn [gets].
  rewrite Ha, Hv.
  do 2 (erewrite run_bind_Return by (apply run_in_world_Return; reflexivity)).
  rewrite run_in_world. unfold print, modify, with_stdout.
  cbn [fst snd self world files requests stdout menus commands trace].
  rewrite <- !app_assoc. reflexivity.
Qed.

(** What a returning [configure_quality] has done: it bound a rendition of
    each list of the manifest and reported them last. *)
Lemma configure_quality_Return_inv b aq vq (s s' : St) :
  configure_quality b aq vq s = (Return tt, s') →
  ∃ ia a iv v pre,
    MasterJson.audio (master_json (self s)) !! ia = Some a ∧
    MasterJson.video (master_json (self s)) !! iv = Some v ∧
    self s' = set_video_json v (set_audio_json a (self s)) ∧
    stdout (world s') = pre ++
      ["---- quality configuration ----";
       "video" +:+ tab +:+ str (Video.width v) +:+ "x"
         +:+ str (Video.height v);
       "audio" +:+ tab +:+ str (Audio.sample_rate a) +:+ "/"
         +:+ str (Audio.bitrate a)].
Proof.
  unfold configure_quality. destruct (negb b && _); [discriminate|].
  intros Hrun.
  apply bind_Return_inv in Hrun as (o & s0 & Hs0 & Hrun).
  injection Hs0 as <- <-.
  apply bind_Return_inv in Hrun as ([] & s1 & Hs1 & Hrun).
  rewrite run_in_world in Hs1. injection Hs1 as <-.
  apply bind_Return_inv in Hrun as (bitrate & s2 & Hs2 & Hrun).
  pose proof (preserves_run (λ o, o) _ _ _ _
                (preserves_process_audio_quality (λ o, o) aq) Hs2) as Hself2.
  cbn [self] in Hself2.
  apply bind_Return_inv in Hrun as ([] & s3 & Hs3 & Hrun).
  apply set_audio_quality_inv in Hs3 as (ia & a & Hia & _ & ->).
  rewrite Hself2 in Hia.
  apply bind_Return_inv in Hrun as (height & s4 & Hs4 & Hrun).
  pose proof (preserves_run (λ o, o) _ _ _ _
                (preserves_process_video_quality (λ o, o) b vq) Hs4)
    as Hself4.
  cbn [self] in Hself4.
  apply bind_Return_inv in Hrun as ([] & s5 & Hs5 & Hrun).
  apply set_video_quality_inv in Hs5 as (iv & v & Hiv & _ & ->).
  rewrite Hself4, Hself2 in Hiv. cbn [set_audio_json master_json] in Hiv.
  rewrite (report_quality_run _ a v) in Hrun.
  - injection Hrun as <-. exists ia, a, iv, v, (stdout (world s4)).
    split; [done|]. split; [done|]. split; [|reflexivity].
    cbn [self]. rewrite Hself4, Hself2. reflexivity.
  - cbn [self set_video_json audio_json]. rewrite Hself4. reflexivity.
  - reflexivity.
Qed.
End Inversion.

(** ** Preconditions of the methods *)

(** X1: without interactive fallback both qualities are required: when
    either is missing, [configure_quality] raises its [ValueError] at once;
    nothing is printed, no menu is shown and nothing is bound. *)
Theorem configure_quality_requires_qualities `{Env}
    (audio_quality : option AudioQuality)
    (video_quality : option VideoQuality) (s : St) :
  audio_quality = None ∨ video_quality = None →
  configure_quality false audio_quality video_quality s
  = (Raise (ValueError
       "Must provide audio and video quality when interactive == False"), s).
Proof.
  intros Hmissing. unfold configure_quality.
  assert (negb false
          && (bool_decide (audio_quality = None)
              || bool_decide (video_quality = None)) = true) as ->;
    [|reflexivity].
  destruct Hmissing as [-> | ->]; simpl.
  - reflexivity.
  - apply orb_true_r.
Qed.

Lemma configure_quality_requires_qualities_witness :
  @configure_quality (Fake.env Fake.manifest 200 200 0 0) false (Some HI) None
    (Fake.fresh Fake.manifest)
  = (Raise (ValueError
       "Must provide audio and video quality when interactive == False"),
     Fake.fresh Fake.manifest).
Proof.
  apply (@configure_quality_requires_qualities
           (Fake.env Fake.manifest 200 200 0 0) (Some HI) None
           (Fake.fresh Fake.manifest)).
  right. reflexivity.
Defined.

(** X2: whenever [configure_quality] returns, whatever its arguments and
    the answers of the user, the job has an audio rendition and a video
    rendition bound, and both are entries of its own manifest. *)
Theorem configure_quality_binds_manifest_renditions `{Env}
    (interactive_fallback : bool) (audio_quality : option AudioQuality)
    (video_quality : option VideoQuality) (s : St) :
  fst (configure_quality interactive_fallback audio_quality video_quality s)
    = Return tt →
  ∃ a v,
    a ∈ MasterJson.audio (master_json (self s)) ∧
    v ∈ MasterJson.video (master_json (self s)) ∧
    audio_json (self (snd (configure_quality interactive_fallback
                             audio_quality video_quality s))) = Some a ∧
    video_json (self (snd (configure_quality interactive_fallback
                             audio_quality video_quality s))) = Some v.
Proof.
  intros Hret.
  destruct (configure_quality _ _ _ s) as [r s'] eqn:Hrun.
  simpl in Hret. subst r.
  apply configure_quality_Return_inv in Hrun
    as (ia & a & iv & v & pre & Hia & Hiv & Hself & _).
  exists a, v. cbn [snd]. rewrite Hself.
  split; [eapply list_elem_of_lookup_2, Hia|].
  split; [eapply list_elem_of_lookup_2, Hiv|].
  split; reflexivity.
Qed.

Lemma configure_quality_binds_manifest_renditions_witness :
  ∃ a v,
    a ∈ MasterJson.audio Fake.manifest ∧
    v ∈ MasterJson.video Fake.manifest ∧
    audio_json (self (snd (@configure_quality
                             (Fake.env Fake.manifest 200 200 0 1) true None
                             None (Fake.fresh Fake.manifest)))) = Some a ∧
    video_json (self (snd (@configure_quality
                             (Fake.env Fake.manifest 200 200 0 1) true None
                             None (Fake.fresh Fake.manifest)))) = Some v.
Proof.
  apply (@configure_quality_binds_manifest_renditions
           (Fake.env Fake.manifest 200 200 0 1) true None None
           (Fake.fresh Fake.manifest)).
  vm_compute. reflexivity.
Defined.

(** X3: whenever [configure_quality] returns, the last three lines it
    printed are the report of the selection: the header, the width and
    height of the video rendition now bound, and the sample rate and
    bitrate of the audio rendition now bound. *)
Theorem configure_quality_reports_selection `{Env}
    (interactive_fallback : bool) (audio_quality : option AudioQuality)
    (video_quality : option VideoQuality) (s : St) :
  fst (configure_quality interactive_fallback audio_quality video_quality s)
    = Return tt →
  ∃ a v pre,
    audio_json (self (snd (configure_quality interactive_fallback
                             audio_quality video_quality s))) = Some a ∧
    video_json (self (snd (configure_quality interactive_fallback
                             audio_quality video_quality s))) = Some v ∧
    stdout (world (snd (configure_quality interactive_fallback
                          audio_quality video_quality s)))
    = pre ++
      ["---- quality configuration ----";
       "video" +:+ tab +:+ str (Video.width v) +:+ "x"
         +:+ str (Video.height v);
       "audio" +:+ tab +:+ str (Audio.sample_rate a) +:+ "/"
         +:+ str (Audio.bitrate a)].
Proof.
  intros Hret.
  destruct (configure_quality _ _ _ s) as [r s'] eqn:Hrun.
  simpl in Hret. subst r.
  apply configure_quality_Return_inv in Hrun
    as (ia & a & iv & v & pre & _ & _ & Hself & Hout).
  exists a, v, pre. cbn [snd]. rewrite Hself.
  split; [reflexivity|]. split; [reflexivity|exact Hout].
Qed.

Lemma configure_quality_reports_selection_witness :
  ∃ a v pre,
    audio_json (self (snd (@configure_quality
                             (Fake.env Fake.manifest 200 200 0 0) false
                             (Some LOW) (Some VMAX)
                             (Fake.fresh Fake.manifest)))) = Some a ∧
    video_json (self (snd (@configure_quality
                             (Fake.env Fake.manifest 200 200 0 0) false
                             (Some LOW) (Some VMAX)
                             (Fake.fresh Fake.manifest)))) = Some v ∧
    stdout (world (snd (@configure_quality
                          (Fake.env Fake.manifest 200 200 0 0) false
                          (Some LOW) (Some VMAX)
                          (Fake.fresh Fake.manifest))))
    = pre ++
      ["---- quality configuration ----";
       "video" +:+ tab +:+ str (Video.width v) +:+ "x"
         +:+ str (Video.height v);
       "audio" +:+ tab +:+ str (Audio.sample_rate a) +:+ "/"
         +:+ str (Audio.bitrate a)].
Proof.
  apply (@configure_quality_reports_selection
           (Fake.env Fake.manifest 200 200 0 0) false (Some LOW) (Some VMAX)
           (Fake.fresh Fake.manifest)).
  vm_compute. reflexivity.
Defined.

(** X4: a job that has no audio rendition or no video rendition bound
    cannot be downloaded: [download_audio_video] raises its [ValueError]
    and touches nothing, neither the disk nor the network. *)
Theorem download_requires_configuration `{Env} (s : St) :
  audio_json (self s) = None ∨ video_json (self s) = None →
  download_audio_video s
  = (Raise (ValueError
       "Error: must configure_quality() before calling download_audio_video()"),
     s).
Proof.
  intros Hnone. unfold download_audio_video. rewrite run_bind. cbn [gets].
  destruct Hnone as [-> | ->]; [reflexivity|].
  destruct (audio_json (self s)); reflexivity.
Qed.

Lemma download_requires_configuration_witness :
  @download_audio_video (Fake.env Fake.manifest 200 200 0 0)
    (Fake.fresh Fake.manifest)
  = (Raise (ValueError
       "Error: must configure_quality() before calling download_audio_video()"),
     Fake.fresh Fake.manifest).
Proof.
  apply (@download_requires_configuration (Fake.env Fake.manifest 200 200 0 0)
           (Fake.fresh Fake.manifest)).
  left. reflexivity.
Defined.

(** X5: a job whose tracks were not downloaded cannot be combined: with
    either track file name unset, [combine_audio_video] raises its
    [ValueError], runs no command and deletes nothing. *)
Theorem combine_requires_download `{Env} (s : St) :
  audio_file (self s) = None ∨ video_file (self s) = None →
  combine_audio_video s
  = (Raise (ValueError
       "Error: must download_audio_video() before calling combine_audio_video()"),
     s).
Proof.
  intros Hnone. unfold combine_audio_video. rewrite run_bind. cbn [gets].
  destruct Hnone as [-> | ->]; [reflexivity|].
  destruct (audio_file (self s)); reflexivity.
Qed.

Lemma combine_requires_download_witness :
  @combine_audio_video (Fake.env Fake.manifest 200 200 0 0) Fake.configured
  = (Raise (ValueError
       "Error: must download_audio_video() before calling combine_audio_video()"),
     Fake.configured).
Proof.
  apply (@combine_requires_download (Fake.env Fake.manifest 200 200 0 0)
           Fake.configured).
  left. reflexivity.
Defined.

(** X6: when a track file is missing from the disk, [combine_audio_video]
    raises its [ValueError] before ffmpeg is run: no command is issued, no
    file is removed and nothing is printed. *)
Theorem combine_requires_track_files `{Env} (s : St) (af vf : string) :
  audio_file (self s) = Some af →
  video_file (self s) = Some vf →
  files (world s) !! af = None ∨ files (world s) !! vf = None →
  fst (combine_audio_video s)
    = Raise (ValueError
        "Error: unable to find specified audio and video files to be combined.")
  ∧ self (snd (combine_audio_video s)) = self s
  ∧ world (snd (combine_audio_video s)) = world s.
Proof.
  intros Haf Hvf Hmissing.
  unfold combine_audio_video. rewrite run_bind. cbn [gets]. rewrite Haf, Hvf.
  rewrite !run_bind, !run_in_world.
  unfold path_exists, gets. cbn [fst snd self world].
  rewrite !run_bind, !run_in_world. cbn [fst snd self world].
  assert (negb (bool_decide (is_Some (files (world s) !! af)))
          || negb (bool_decide (is_Some (files (world s) !! vf))) = true)
    as ->; [|done].
  destruct Hmissing as [Hnone|Hnone]; rewrite Hnone.
  - rewrite bool_decide_eq_false_2 by (intros [x Hx]; discriminate).
    reflexivity.
  - rewrite (bool_decide_eq_false_2 (is_Some None))
      by (intros [x Hx]; discriminate).
    apply orb_true_r.
Qed.

Lemma combine_requires_track_files_witness :
  fst (@combine_audio_video (Fake.env Fake.manifest 200 200 0 0)
         {| self := self Fake.downloaded; world := Fake.empty_world |})
    = Raise (ValueError
        "Error: unable to find specified audio and video files to be combined.")
  ∧ self (snd (@combine_audio_video (Fake.env Fake.manifest 200 200 0 0)
                 {| self := self Fake.downloaded;
                    world := Fake.empty_world |}))
    = self Fake.downloaded
  ∧ world (snd (@combine_audio_video (Fake.env Fake.manifest 200 200 0 0)
                  {| self := self Fake.downloaded;
                     world := Fake.empty_world |}))
    = Fake.empty_world.
Proof.
  apply (@combine_requires_track_files (Fake.env Fake.manifest 200 200 0 0)
           {| self := self Fake.downloaded; world := Fake.empty_world |}
           "/home/user/out_audio_a256.m4a" "/home/user/out_video_v720.mp4").
  - reflexivity.
  - reflexivity.
  - left. reflexivity.
Defined.

(** ** The maximum quality *)

Lemma foldl_max_spec (l : list Z) (x : Z) :
  foldl Z.max x l ∈ x :: l ∧ ∀ y, y ∈ x :: l → y ≤ foldl Z.max x l.
Proof.
  revert x. induction l as [|z l IH]; intros x; simpl.
  - split; [left|]. intros y Hy. apply list_elem_of_singleton in Hy as ->. lia.
  - destruct (IH (Z.max x z)) as [Hin Hge]. split.
    + apply elem_of_cons in Hin as [Heq|Hin]; [|right; right; exact Hin].
      rewrite Heq. destruct (Z.max_spec x z) as [[_ ->]|[_ ->]];
        [right; left|left].
    + intros y Hy. apply elem_of_cons in Hy as [->|Hy].
      * specialize (Hge (Z.max x z)). etrans; [|apply Hge; left]. lia.
      * apply elem_of_cons in Hy as [->|Hy].
        -- specialize (Hge (Z.max x z)). etrans; [|apply Hge; left]. lia.
        -- apply Hge. right. exact Hy.
Qed.

Lemma max_spec (l : list Z) :
  l ≠ [] → ∃ m, max l = Return m ∧ m ∈ l ∧ ∀ y, y ∈ l → y ≤ m.
Proof.
  destruct l as [|x l]; [done|]. intros _.
  exists (foldl Z.max x l). split; [reflexivity|apply foldl_max_spec].
Qed.

(** X7: with [VMAX] the job binds the first video rendition, in manifest
    order, of the greatest height of the manifest. *)
Theorem vmax_selects_greatest_height `{Env} (s : St)
    (interactive_fallback : bool) (aq : AudioQuality) :
  MasterJson.video (master_json (self s)) ≠ [] →
  MasterJson.audio (master_json (self s)) ≠ [] →
  (aq = MED → (2 ≤ length (MasterJson.audio (master_json (self s))))%nat) →
  ∃ i v,
    first_at (λ v', Video.height v' = Video.height v)
      (MasterJson.video (master_json (self s))) i v ∧
    (∀ v', v' ∈ MasterJson.video (master_json (self s)) →
           Video.height v' ≤ Video.height v) ∧
    fst (configure_quality interactive_fallback (Some aq) (Some VMAX) s)
      = Return tt ∧
    video_json (self (snd (configure_quality interactive_fallback (Some aq)
                             (Some VMAX) s))) = Some v.
Proof.
  intros Hvideo Hne Hmed.
  destruct (audio_steps_run aq
              {| self := self s;
                 world := with_stdout
                   (λ out, out ++ [newline +:+ "======== "
                                   +:+ output_filename (self s) +:+ " ========"])
                   (world s) |} Hne Hmed) as (b & ia & a & _ & _ & Hrun).
  rewrite configure_quality_guard by (right; done).
  rewrite Hrun. clear Hrun. cbn [self world].
  set (s1 := {| self := set_audio_json a (self s); world := _ |}).
  destruct (max_spec (list_heights (self s1))) as (m & Hmax & Hin & Hge).
  { unfold list_heights. intros Hnil. apply fmap_nil_inv in Hnil. done. }
  destruct (first_at_exists (λ v, Video.height v = m)
              (MasterJson.video (master_json (self s)))) as (i & v & Hfirst).
  { apply list_elem_of_fmap in Hin as (v & -> & Hv). exists v. done. }
  pose proof Hfirst as (_ & Hm & _). subst m.
  exists i, v. split; [exact Hfirst|]. split.
  - intros v' Hv'. apply Hge. apply list_elem_of_fmap. exists v'. done.
  - rewrite (run_bind_Return _ _ s1 (Video.height v) s1).
    + apply (video_steps_return s1 _ i v). exact Hfirst.
    + unfold process_video_quality. rewrite run_bind. cbn [gets].
      case_decide; [|done]. unfold lift. rewrite Hmax. reflexivity.
Qed.

Lemma vmax_selects_greatest_height_witness :
  ∃ i v,
    first_at (λ v', Video.height v' = Video.height v)
      (MasterJson.video Fake.manifest) i v ∧
    (∀ v', v' ∈ MasterJson.video Fake.manifest →
           Video.height v' ≤ Video.height v) ∧
    fst (@configure_quality (Fake.env Fake.manifest 200 200 0 0) false
           (Some HI) (Some VMAX) (Fake.fresh Fake.manifest)) = Return tt ∧
    video_json (self (snd (@configure_quality
                             (Fake.env Fake.manifest 200 200 0 0) false
                             (Some HI) (Some VMAX)
                             (Fake.fresh Fake.manifest)))) = Some v.
Proof.
  apply (@vmax_selects_greatest_height (Fake.env Fake.manifest 200 200 0 0)
           (Fake.fresh Fake.manifest) false HI).
  - discriminate.
  - discriminate.
  - discriminate.
Defined.

(** ** Interactive selection *)

Lemma sort_reverse_Permutation (l : list Z) : sort_reverse l ≡ₚ l.
Proof. apply merge_sort_Permutation. Qed.

Lemma sort_reverse_length (l : list Z) : length (sort_reverse l) = length l.
Proof. apply Permutation_length, sort_reverse_Permutation. Qed.

Lemma menu_options_Return (first second : list Z) (sep : string)
    (indices : list nat) :
  (∀ i, i ∈ indices → (i < length first)%nat ∧ (i < length second)%nat) →
  ∃ options,
    menu_options first second sep indices = Return options ∧
    length options = length indices.
Proof.
  induction indices as [|i indices IH]; intros Hin.
  - exists []. done.
  - destruct (Hin i) as [Hfirst Hsecond]; [left|].
    apply lookup_lt_is_Some_2 in Hfirst as [a Ha].
    apply lookup_lt_is_Some_2 in Hsecond as [b Hb].
    destruct IH as (options & Hoptions & Hlen).
    { intros j Hj. apply Hin. right. exact Hj. }
    exists ((str a +:+ sep +:+ str b) :: options). cbn [menu_options].
    rewrite (getitem_nat _ _ _ Ha), (getitem_nat _ _ _ Hb), Hoptions.
    split; [reflexivity|]. simpl. rewrite Hlen. reflexivity.
Qed.

Lemma menu_options_range (first second : list Z) (sep : string) :
  length first = length second →
  ∃ options,
    menu_options first second sep (seq 0 (length first)) = Return options ∧
    length options = length first.
Proof.
  intros Hlen.
  destruct (menu_options_Return first second sep (seq 0 (length first)))
    as (options & Hoptions & Hlength).
  - intros i Hi. apply list_elem_of_In, in_seq in Hi. lia.
  - exists options. rewrite length_seq in Hlength. done.
Qed.

Section Interactive.
Context `{Env}.

(** The answer of the user is the index of one of the options. *)
Definition menu_answers_in_range : Prop :=
  ∀ options title,
    options ≠ [] → 0 ≤ tty_menu options title < Z.of_nat (length options).

Lemma ask_audio_quality_run (s : St) :
  menu_answers_in_range →
  MasterJson.audio (master_json (self s)) ≠ [] →
  ∃ b options,
    _ask_audio_quality s
    = (Return b,
       {| self := self s;
          world := with_menus
            (λ l, l ++ [(options, "Audio Quality? (sample_rate/bitrate)")])
            (world s) |}) ∧
    b ∈ list_bitrates (self s) ∧
    length options = length (MasterJson.audio (master_json (self s))).
Proof.
  intros Hmenu Hne. unfold _ask_audio_quality. rewrite run_bind. cbn [gets].
  destruct (menu_options_range (sort_reverse (list_sample_rates (self s)))
              (sort_reverse (list_bitrates (self s))) "/")
    as (options & Hoptions & Hlen).
  { rewrite !sort_reverse_length. unfold list_sample_rates, list_bitrates.
    rewrite !length_fmap. reflexivity. }
  rewrite sort_reverse_length in Hlen. unfold list_sample_rates in Hlen.
  rewrite length_fmap in Hlen.
  rewrite run_bind. unfold lift at 1. rewrite Hoptions.
  erewrite run_bind_Return by (apply run_in_world_Return; reflexivity).
  assert (options ≠ []) as Hoptions_ne.
  { intros ->. destruct (MasterJson.audio _); [done|discriminate]. }
  pose proof (Hmenu options "Audio Quality? (sample_rate/bitrate)"
                Hoptions_ne) as Hpick.
  set (pick := tty_menu options _) in *.
  destruct (lookup_lt_is_Some_2 (sort_reverse (list_bitrates (self s)))
              (Z.to_nat pick)) as [b Hb].
  { rewrite sort_reverse_length. unfold list_bitrates. rewrite length_fmap.
    lia. }
  exists b, options. split; [|split; [|exact Hlen]].
  - unfold lift. rewrite <- (Z2Nat.id pick) by lia.
    rewrite (getitem_nat _ _ _ Hb). reflexivity.
  - rewrite <- (sort_reverse_Permutation (list_bitrates (self s))).
    eapply list_elem_of_lookup_2, Hb.
Qed.

Lemma ask_video_quality_run (s : St) :
  menu_answers_in_range →
  MasterJson.video (master_json (self s)) ≠ [] →
  ∃ h options,
    _ask_video_quality s
    = (Return h,
       {| self := self s;
          world := with_menus
            (λ l, l ++ [(options, "Video Quality? (width x height)")])
            (world s) |}) ∧
    h ∈ list_heights (self s) ∧
    length options = length (MasterJson.video (master_json (self s))).
Proof.
  intros Hmenu Hne. unfold _ask_video_quality. rewrite run_bind. cbn [gets].
  destruct (menu_options_range (sort_reverse (list_widths (self s)))
              (sort_reverse (list_heights (self s))) "x")
    as (options & Hoptions & Hlen).
  { rewrite !sort_reverse_length. unfold list_widths, list_heights.
    rewrite !length_fmap. reflexivity. }
  rewrite sort_reverse_length in Hlen. unfold list_widths in Hlen.
  rewrite length_fmap in Hlen.
  assert (seq 0 (length (sort_reverse (list_heights (self s))))
          = seq 0 (length (sort_reverse (list_widths (self s))))) as ->.
  { rewrite !sort_reverse_length. unfold list_widths, list_heights.
    rewrite !length_fmap. reflexivity. }
  rewrite run_bind. unfold lift at 1. rewrite Hoptions.
  erewrite run_bind_Return by (apply run_in_world_Return; reflexivity).
  assert (options ≠ []) as Hoptions_ne.
  { intros ->. destruct (MasterJson.video _); [done|discriminate]. }
  pose proof (Hmenu options "Video Quality? (width x height)"
                Hoptions_ne) as Hpick.
  set (pick := tty_menu options _) in *.
  destruct (lookup_lt_is_Some_2 (sort_reverse (list_heights (self s)))
              (Z.to_nat pick)) as [h Hh].
  { rewrite sort_reverse_length. unfold list_heights. rewrite length_fmap.
    lia. }
  exists h, options. split; [|split; [|exact Hlen]].
  - unfold lift. rewrite <- (Z2Nat.id pick) by lia.
    rewrite (getitem_nat _ _ _ Hh). reflexivity.
  - rewrite <- (sort_reverse_Permutation (list_heights (self s))).
    eapply list_elem_of_lookup_2, Hh.
Qed.

(** X8: when the user answers each menu with the index of one of its
    options, fully interactive configuration of a manifest that has at
    least one rendition of each kind returns; it asks two questions, for
    the audio first and then for the video, each with one option per
    rendition. *)
Theorem interactive_selection_returns (s : St) :
  menu_answers_in_range →
  MasterJson.audio (master_json (self s)) ≠ [] →
  MasterJson.video (master_json (self s)) ≠ [] →
  fst (configure_quality true None None s) = Return tt ∧
  ∃ audio_options video_options,
    length audio_options = length (MasterJson.audio (master_json (self s))) ∧
    length video_options = length (MasterJson.video (master_json (self s))) ∧
    menus (world (snd (configure_quality true None None s)))
    = menus (world s) ++
      [(audio_options, "Audio Quality? (sample_rate/bitrate)");
       (video_options, "Video Quality? (width x height)")].
Proof.
  intros Hmenu Haudio Hvideo.
  rewrite configure_quality_guard by (left; done).
  set (w0 := with_stdout _ (world s)).
  destruct (ask_audio_quality_run {| self := self s; world := w0 |}
              Hmenu Haudio) as (b & audio_options & Hask & Hb & Hlena).
  unfold process_audio_quality.
  rewrite (run_bind_Return _ _ _ _ _ Hask).
  destruct (first_at_exists (λ a, Audio.bitrate a = b)
              (MasterJson.audio (master_json (self s)))) as (ia & a & Hfirst).
  { apply list_elem_of_fmap in Hb as (a & -> & Ha). exists a. done. }
  erewrite run_bind_Return
    by (apply (set_audio_quality_first _ b ia a); exact Hfirst).
  cbn [self world].
  set (w1 := with_menus _ w0).
  destruct (ask_video_quality_run
              {| self := set_audio_json a (self s); world := w1 |}
              Hmenu Hvideo) as (h & video_options & Haskv & Hh & Hlenv).
  unfold process_video_quality.
  rewrite (run_bind_Return _ _ _ _ _ Haskv).
  destruct (first_at_exists (λ v, Video.height v = h)
              (MasterJson.video (master_json (self s)))) as (iv & v & Hfirstv).
  { apply list_elem_of_fmap in Hh as (v & -> & Hv). exists v. done. }
  erewrite run_bind_Return
    by (apply (set_video_quality_first _ h iv v); exact Hfirstv).
  erewrite (report_quality_run _ a v) by reflexivity.
  split; [reflexivity|].
  exists audio_options, video_options.
  split; [exact Hlena|]. split; [exact Hlenv|].
  subst w1 w0. cbn [snd world self menus with_menus with_stdout].
  rewrite <- app_assoc. reflexivity.
Qed.
End Interactive.

(** A user who always picks the last option of a menu. *)
Definition last_option_env (m : MasterJson.t) : Env :=
  {| tty_menu := λ options _, Z.of_nat (length options) - 1;
     http_get := Fake.server 200 200;
     json := λ _, Some m;
     b64decode := Fake.decode;
     abspath := λ p, "/home/user/" +:+ p;
     ffmpeg := λ a v, (0, Some (a ++ v));
     auto_flushed := Fake.buffer_of_4 |}.

Lemma interactive_selection_returns_witness :
  fst (@configure_quality (last_option_env Fake.manifest) true None None
         (Fake.fresh Fake.manifest)) = Return tt.
Proof.
  apply (@interactive_selection_returns (last_option_env Fake.manifest)
           (Fake.fresh Fake.manifest)).
  - intros options title Hne. simpl.
    destruct options; [done|]. simpl. lia.
  - discriminate.
  - discriminate.
Defined.

(** ** Closing the track files *)

(** X26: a download whose segments are all answered with 200 leaves no
    file object behind: each track file is flushed and closed once its
    loop has ended, so the two file objects are closed when the method
    returns and no other file object is touched. *)
Theorem download_closes_track_files `{Env} (s : St) (a : Audio.t)
    (v : Video.t) (init_a init_v : list byte) :
  audio_json (self s) = Some a →
  video_json (self s) = Some v →
  b64decode (Audio.init_segment a) = Some init_a →
  b64decode (Video.init_segment v) = Some init_v →
  Forall (λ r, status_code r = 200)
    (fetch_all (requests (world s))
       (segment_urls (base_url (self s) +:+ Audio.base_url a)
          (Audio.segments a))) →
  Forall (λ r, status_code r = 200)
    (fetch_all
       (requests (world s) ++
        segment_urls (base_url (self s) +:+ Audio.base_url a)
          (Audio.segments a))
       (segment_urls (base_url (self s) +:+ Video.base_url v)
          (Video.segments v))) →
  fst (download_audio_video s) = Return tt ∧
  handles (world (snd (download_audio_video s)))
    !! track_file (self s) "audio" (Audio.id a) ".m4a" = None ∧
  handles (world (snd (download_audio_video s)))
    !! track_file (self s) "video" (Video.id v) ".mp4" = None ∧
  ∀ path,
    path ≠ track_file (self s) "audio" (Audio.id a) ".m4a" →
    path ≠ track_file (self s) "video" (Video.id v) ".mp4" →
    handles (world (snd (download_audio_video s))) !! path
    = handles (world s) !! path.
Proof.
  intros Ha Hv Hia Hiv Hoka Hokv.
  pose proof (track_file_audio_video_ne (self s) (Audio.id a) (Video.id v))
    as Hne.
  destruct (download_audio_video_run s a v init_a init_v Ha Hv Hia Hiv
              Hoka Hokv) as (w' & -> & _ & _ & Hhandles).
  cbn [fst snd world]. rewrite Hhandles.
  split; [reflexivity|]. split; [|split].
  - rewrite lookup_delete_ne by done. apply lookup_delete_eq.
  - apply lookup_delete_eq.
  - intros path Hna Hnv. rewrite !lookup_delete_ne by done. reflexivity.
Qed.

Lemma download_closes_track_files_witness :
  fst (@download_audio_video (Fake.env Fake.manifest 200 200 0 0)
         Fake.configured) = Return tt ∧
  handles (world (snd (@download_audio_video
                         (Fake.env Fake.manifest 200 200 0 0)
                         Fake.configured))) = ∅.
Proof.
  destruct (@download_closes_track_files (Fake.env Fake.manifest 200 200 0 0)
              Fake.configured Fake.audio256 Fake.video720
              [x03; x04] [x00; x01; x02]) as (Hreturn & _).
  - reflexivity.
  - reflexivity.
  - reflexivity.
  - reflexivity.
  - simpl. repeat constructor.
  - simpl. repeat constructor.
  - split; [exact Hreturn|]. vm_compute. reflexivity.
Defined.

(** ** Segments that are not answered with 200 *)

Lemma for_each_app {S A} (l1 l2 : list A) (body : A → M S unit) (s : S) :
  for_each (l1 ++ l2) body s = (for_each l1 body;; for_each l2 body) s.
Proof.
  revert s. induction l1 as [|x l1 IH]; intros s; [reflexivity|].
  cbn [app for_each]. rewrite !run_bind.
  destruct (body x s) as [[[]|e] s1]; [|reflexivity].
  rewrite IH, run_bind. reflexivity.
Qed.

Section SegmentStatus.
Context `{Env}.

(** One turn of the loop for a response that [raise_for_status] lets
    through: its chunks are written to the file object, after an error
    line when the status is not 200. *)
Lemma download_segment_accepted (kind base file : string) (sg : Segment)
    (w : World) (old : list byte) :
  handles w !! file = Some old →
  ¬ 400 ≤ status_code (http_get (requests w) (base +:+ url sg)) < 600 →
  ∃ w',
    download_segments kind base file [sg] w = (Return tt, w') ∧
    handles w' = <[file := old ++ body (http_get (requests w)
                                           (base +:+ url sg))]> (handles w) ∧
    requests w' = requests w ++ [base +:+ url sg].
Proof.
  intros Hold Hstatus. unfold download_segments. cbn [for_each].
  rewrite run_bind. unfold requests_get at 1.
  rewrite !run_bind. cbn [gets modify mret M_ret ret].
  rewrite !run_bind. cbn [gets modify mret M_ret ret].
  set (response := http_get (requests w) (base +:+ url sg)) in *.
  set (w1 := with_requests _ w).
  assert (raise_for_status response = Return tt) as Hraise.
  { unfold raise_for_status.
    destruct (Z.leb_spec 400 (status_code response));
      destruct (Z.ltb_spec (status_code response) 600); try reflexivity.
    lia. }
  destruct (negb (status_code response =? 200)).
  - unfold mbind, M_bind, bind, print, modify, lift. rewrite Hraise.
    match goal with
    | |- context [for_each _ _ ?w2] =>
        destruct (write_chunks_handles file (chunks response) w2 old Hold)
          as (w' & -> & Hhandles & Hrequests)
    end.
    exists w'. split; [reflexivity|]. split; [exact Hhandles|exact Hrequests].
  - unfold mbind, M_bind, bind, mret, M_ret, ret.
    destruct (write_chunks_handles file (chunks response) w1 old Hold)
      as (w' & -> & Hhandles & Hrequests).
    exists w'. split; [reflexivity|]. split; [exact Hhandles|exact Hrequests].
Qed.

(** One turn of the loop for a response with an error status: the error
    line is printed, [HTTPError] is raised and nothing is written. *)
Lemma download_segment_refused (kind base file : string) (sg : Segment)
    (rest : list Segment) (w : World) :
  400 ≤ status_code (http_get (requests w) (base +:+ url sg)) < 600 →
  download_segments kind base file (sg :: rest) w
  = (Raise (HTTPError (status_code (http_get (requests w)
                                      (base +:+ url sg)))),
     with_stdout
       (λ out, out ++
          ["ERROR: received http code ["
           +:+ str (status_code (http_get (requests w) (base +:+ url sg)))
           +:+ "] when downloading " +:+ kind])
       (with_requests (λ l, l ++ [base +:+ url sg]) w)).
Proof.
  intros Hstatus. unfold download_segments. cbn [for_each].
  rewrite run_bind. unfold requests_get at 1.
  rewrite !run_bind. cbn [gets modify mret M_ret ret].
  rewrite !run_bind. cbn [gets modify mret M_ret ret].
  set (response := http_get (requests w) (base +:+ url sg)) in *.
  assert (raise_for_status response = Raise (HTTPError (status_code response)))
    as Hraise.
  { unfold raise_for_status.
    destruct (Z.leb_spec 400 (status_code response)); [|lia].
    destruct (Z.ltb_spec (status_code response) 600); [reflexivity|lia]. }
  destruct (Z.eqb_spec (status_code response) 200) as [H200|H200]; [lia|].
  cbn [negb]. unfold mbind, M_bind, bind, print, modify, lift.
  rewrite Hraise. reflexivity.
Qed.

Lemma download_segments_app (kind base file : string)
    (l1 l2 : list Segment) (w : World) :
  download_segments kind base file (l1 ++ l2) w
  = (download_segments kind base file l1;;
     download_segments kind base file l2) w.
Proof. unfold download_segments. apply for_each_app. Qed.

(** The loop stops at the first segment answered with an error status:
    the bodies of the segments before it have been written to the file
    object, which stays open. *)
Lemma download_segments_stops (kind base file : string)
    (done rest : list Segment) (bad : Segment) (w : World) (old : list byte) :
  open_with file old w →
  Forall (λ r, status_code r = 200)
    (fetch_all (requests w) (segment_urls base done)) →
  400 ≤ status_code (http_get (requests w ++ segment_urls base done)
                       (base +:+ url bad)) < 600 →
  download_segments kind base file (done ++ bad :: rest) w
  = (Raise (HTTPError
       (status_code (http_get (requests w ++ segment_urls base done)
                       (base +:+ url bad)))),
     with_stdout
       (λ out, out ++
          ["ERROR: received http code ["
           +:+ str (status_code
                      (http_get (requests w ++ segment_urls base done)
                         (base +:+ url bad)))
           +:+ "] when downloading " +:+ kind])
       (with_requests (λ l, l ++ [base +:+ url bad])
          (with_requests (λ l, l ++ segment_urls base done)
             (written_to file
                (old ++ concat (body <$>
                          fetch_all (requests w) (segment_urls base done)))
                w)))).
Proof.
  intros Hold Hok Hbad. rewrite download_segments_app.
  erewrite run_bind_Return by (apply download_segments_ok; eassumption).
  rewrite download_segment_refused by exact Hbad. reflexivity.
Qed.
End SegmentStatus.

(** X9: when the audio segments before some segment are answered with 200
    and that segment with an error status (4xx or 5xx),
    [download_audio_video] raises [HTTPError] with that status.  As the
    exception leaves the method, the audio file object is left open,
    neither flushed nor closed, with the initialization segment and the
    bodies received so far written to it;
    the file on disk holds the part of them that the buffer has let
    through, nothing when the buffer holds them all.  No later segment is
    requested, and the video track is not started: its file is not opened
    and its name is not set. *)
Theorem download_failure_leaves_partial_audio `{Env} (s : St) (a : Audio.t)
    (v : Video.t) (init_a : list byte) (done rest : list Segment)
    (bad : Segment) :
  audio_json (self s) = Some a →
  video_json (self s) = Some v →
  b64decode (Audio.init_segment a) = Some init_a →
  Audio.segments a = done ++ bad :: rest →
  Forall (λ r, status_code r = 200)
    (fetch_all (requests (world s))
       (segment_urls (base_url (self s) +:+ Audio.base_url a) done)) →
  400 ≤ status_code
          (http_get (requests (world s) ++
                     segment_urls (base_url (self s) +:+ Audio.base_url a) done)
             ((base_url (self s) +:+ Audio.base_url a) +:+ url bad)) < 600 →
  let written :=
    init_a ++ concat (body <$>
      fetch_all (requests (world s))
        (segment_urls (base_url (self s) +:+ Audio.base_url a) done)) in
  fst (download_audio_video s)
    = Raise (HTTPError (status_code
        (http_get (requests (world s) ++
                   segment_urls (base_url (self s) +:+ Audio.base_url a) done)
           ((base_url (self s) +:+ Audio.base_url a) +:+ url bad)))) ∧
  handles (world (snd (download_audio_video s)))
    !! track_file (self s) "audio" (Audio.id a) ".m4a" = Some written ∧
  files (world (snd (download_audio_video s)))
    !! track_file (self s) "audio" (Audio.id a) ".m4a"
    = Some (take (auto_flushed written) written) ∧
  files (world (snd (download_audio_video s)))
    !! track_file (self s) "video" (Video.id v) ".mp4"
    = files (world s) !! track_file (self s) "video" (Video.id v) ".mp4" ∧
  video_file (self (snd (download_audio_video s))) = video_file (self s) ∧
  requests (world (snd (download_audio_video s)))
    = (requests (world s) ++
       segment_urls (base_url (self s) +:+ Audio.base_url a) done)
      ++ [(base_url (self s) +:+ Audio.base_url a) +:+ url bad].
Proof.
  intros Ha Hv Hinit Hsegments Hok Hbad written.
  pose proof (track_file_audio_video_ne (self s) (Audio.id a) (Video.id v))
    as Hne.
  unfold download_audio_video. rewrite run_bind. cbn [gets].
  rewrite Ha, Hv. unfold download_tracks.
  do 2 (erewrite run_bind_Return by (apply run_in_world_Return; reflexivity)).
  erewrite run_bind_Return by reflexivity.
  cbn [self world].
  rewrite (open_track _ _ init_a) by exact Hinit.
  cbn [self world].
  rewrite Hsegments.
  erewrite run_bind_Raise.
  2:{ rewrite run_in_world. cbn [world].
      rewrite (download_segments_stops _ _ _ _ _ _ _ init_a);
        [reflexivity|apply written_to_open_with|exact Hok|exact Hbad]. }
  cbn [fst snd self world files handles requests written_to with_stdout
       with_requests with_files with_handles set_audio_file video_file].
  fold written.
  split; [reflexivity|]. split; [|split; [|split; [|split; reflexivity]]].
  - rewrite insert_insert_eq. apply lookup_insert_eq.
  - rewrite insert_insert_eq. apply lookup_insert_eq.
  - rewrite insert_insert_eq. apply lookup_insert_ne. exact Hne.
Qed.

(** A server that refuses one URL with 404 and answers 200 otherwise. *)
Definition refusing_env (m : MasterJson.t) (refused : string) : Env :=
  {| tty_menu := λ _ _, 0;
     http_get := λ history u,
       Fake.server 200 (if String.eqb u refused then 404 else 200) history u;
     json := λ _, Some m;
     b64decode := Fake.decode;
     abspath := λ p, "/home/user/" +:+ p;
     ffmpeg := λ a v, (0, Some (a ++ v));
     auto_flushed := Fake.buffer_of_4 |}.

Lemma download_failure_leaves_partial_audio_witness :
  fst (@download_audio_video
         (refusing_env Fake.manifest "http://host/m/audio/256/s2.m4s")
         Fake.configured) = Raise (HTTPError 404) ∧
  files (world (snd (@download_audio_video
                       (refusing_env Fake.manifest
                          "http://host/m/audio/256/s2.m4s")
                       Fake.configured)))
    !! "/home/user/out_audio_a256.m4a"
  = Some (take 4
            ([x03; x04] ++
             concat (body <$>
                       @fetch_all (refusing_env Fake.manifest
                                     "http://host/m/audio/256/s2.m4s") []
                         ["http://host/m/audio/256/s1.m4s"]))) ∧
  files (world (snd (@download_audio_video
                       (refusing_env Fake.manifest
                          "http://host/m/audio/256/s2.m4s")
                       Fake.configured)))
    !! "/home/user/out_video_v720.mp4" = None.
Proof.
  destruct (@download_failure_leaves_partial_audio
              (refusing_env Fake.manifest "http://host/m/audio/256/s2.m4s")
              Fake.configured Fake.audio256 Fake.video720 [x03; x04]
              [Fake.seg "s1.m4s"] [] (Fake.seg "s2.m4s"))
    as (Hraise & _ & Haudio & Hvideo & _).
  - reflexivity.
  - reflexivity.
  - reflexivity.
  - reflexivity.
  - simpl. repeat constructor.
  - simpl. lia.
  - split; [exact Hraise|]. split; [exact Haudio|exact Hvideo].
Defined.

Section AcceptedStatus.
Context `{Env}.

Lemma download_segments_accepts (kind base file : string)
    (segments : list Segment) (w : World) (old : list byte) :
  handles w !! file = Some old →
  Forall (λ r, ¬ 400 ≤ status_code r < 600)
    (fetch_all (requests w) (segment_urls base segments)) →
  ∃ w',
    download_segments kind base file segments w = (Return tt, w') ∧
    handles w' = <[file := old ++ concat (body <$>
                     fetch_all (requests w) (segment_urls base segments))]>
                   (handles w) ∧
    requests w' = requests w ++ segment_urls base segments.
Proof.
  revert w old. induction segments as [|sg segments IH]; intros w old Hold Hok.
  - exists w. split; [reflexivity|]. simpl.
    rewrite !app_nil_r, insert_id by done. done.
  - simpl in Hok. apply Forall_cons in Hok as [Hsg Hok].
    destruct (download_segment_accepted kind base file sg w old Hold Hsg)
      as (w1 & Hrun1 & Hhandles1 & Hreq1).
    rewrite <- Hreq1 in Hok.
    destruct (IH w1 (old ++ body (http_get (requests w) (base +:+ url sg))))
      as (w2 & Hrun2 & Hhandles2 & Hreq2); [|exact Hok|].
    { rewrite Hhandles1. apply lookup_insert_eq. }
    exists w2. split; [|split].
    + change (sg :: segments) with ([sg] ++ segments).
      rewrite download_segments_app.
      rewrite (run_bind_Return _ _ _ _ _ Hrun1). exact Hrun2.
    + rewrite Hhandles2, Hhandles1, Hreq1, insert_insert_eq. simpl.
      rewrite <- app_assoc. reflexivity.
    + rewrite Hreq2, Hreq1, <- app_assoc. reflexivity.
Qed.
End AcceptedStatus.

(** X10: the loop over the segments accepts every response that
    [raise_for_status] lets through, that is every status outside
    400..599, whether it is 200 or not: the loop returns and the bodies of
    all the responses, in manifest order, have been written to the file
    object after what it had; once the file object is flushed, as the
    method does next, the file holds them all. *)
Theorem segments_with_non_error_status_are_written `{Env}
    (kind base file : string) (segments : list Segment) (w : World)
    (old : list byte) :
  handles w !! file = Some old →
  Forall (λ r, ¬ 400 ≤ status_code r < 600)
    (fetch_all (requests w) (segment_urls base segments)) →
  fst (download_segments kind base file segments w) = Return tt ∧
  handles (snd (download_segments kind base file segments w))
  = <[file := old ++ concat (body <$>
        fetch_all (requests w) (segment_urls base segments))]> (handles w) ∧
  requests (snd (download_segments kind base file segments w))
  = requests w ++ segment_urls base segments ∧
  files (snd ((download_segments kind base file segments;; flush file) w))
    !! file
  = Some (old ++ concat (body <$>
            fetch_all (requests w) (segment_urls base segments))).
Proof.
  intros Hold Hok.
  destruct (download_segments_accepts kind base file segments w old Hold Hok)
    as (w' & Hrun & Hhandles & Hreq).
  rewrite (run_bind_Return _ _ _ _ _ Hrun), Hrun. cbn [fst snd].
  split; [reflexivity|]. split; [exact Hhandles|]. split; [exact Hreq|].
  erewrite flush_known by (rewrite Hhandles; apply lookup_insert_eq).
  cbn [snd files with_files]. apply lookup_insert_eq.
Qed.

Lemma segments_with_non_error_status_are_written_witness :
  fst (@download_segments (Fake.env Fake.manifest 200 304 0 0) "audio"
         "http://host/m/audio/256/" "track.m4a"
         [Fake.seg "s1.m4s"; Fake.seg "s2.m4s"]
         (with_handles (λ _, {[ "track.m4a" := [x03] ]}) Fake.empty_world))
    = Return tt.
Proof.
  apply (@segments_with_non_error_status_are_written
           (Fake.env Fake.manifest 200 304 0 0) "audio"
           "http://host/m/audio/256/" "track.m4a"
           [Fake.seg "s1.m4s"; Fake.seg "s2.m4s"]
           (with_handles (λ _, {[ "track.m4a" := [x03] ]}) Fake.empty_world)
           [x03]).
  - reflexivity.
  - simpl. repeat constructor; simpl; lia.
Defined.

(** ** Construction *)

(** X11: when the manifest is answered with an error status (4xx or 5xx),
    the construction raises [HTTPError] with that status after one request
    and one printed line: the line that says the manifest expired for 410,
    the line of a failed download for every other status.  No probe is
    issued. *)
Theorem init_http_error `{Env} (output u : string) (w : World) :
  400 ≤ status_code (http_get (requests w) u) < 600 →
  __init__ output u w
  = (Raise (HTTPError (status_code (http_get (requests w) u))),
     {| files := files w; handles := handles w;
        requests := requests w ++ [u];
        stdout := stdout w ++
          [if status_code (http_get (requests w) u) =? 410
           then "ERROR: http code ["
                +:+ str (status_code (http_get (requests w) u))
                +:+ "]. master.json expired, please update url and rerun."
           else "ERROR: received http code ["
                +:+ str (status_code (http_get (requests w) u))
                +:+ "] when downloading master.json"];
        menus := menus w; commands := commands w; trace := trace w |}).
Proof.
  intros Hstatus. unfold __init__. apply run_bind_Raise.
  unfold get_master_json, requests_get.
  rewrite !run_bind. cbn [gets modify mret M_ret ret fst snd].
  rewrite !run_bind. cbn [gets modify mret M_ret ret fst snd].
  set (response := http_get (requests w) u) in *.
  assert (raise_for_status response = Raise (HTTPError (status_code response)))
    as Hraise.
  { unfold raise_for_status.
    destruct (Z.leb_spec 400 (status_code response)); [|lia].
    destruct (Z.ltb_spec (status_code response) 600); [reflexivity|lia]. }
  destruct (Z.eqb_spec (status_code response) 410) as [H410|H410].
  - unfold mbind, M_bind, bind, print, modify, lift. rewrite Hraise.
    reflexivity.
  - destruct (Z.eqb_spec (status_code response) 200) as [H200|H200]; [lia|].
    unfold mbind, M_bind, bind, mret, M_ret, ret, print, modify, lift.
    cbn [negb]. rewrite Hraise. reflexivity.
Qed.

Lemma init_http_error_witness :
  @__init__ (Fake.env Fake.manifest 410 200 0 0) "out.mp4"
    "http://host/m/master.json" Fake.empty_world
  = (Raise (HTTPError 410),
     {| files := ∅; handles := ∅;
        requests := ["http://host/m/master.json"];
        stdout :=
          ["ERROR: http code [410]. master.json expired, please update url and rerun."];
        menus := []; commands := []; trace := [] |}).
Proof.
  rewrite (@init_http_error (Fake.env Fake.manifest 410 200 0 0) "out.mp4"
             "http://host/m/master.json" Fake.empty_world).
  - reflexivity.
  - simpl. lia.
Defined.

(** X12: a manifest that was fetched but has no video rendition, or that
    has a base_url but whose first video rendition has no segment, cannot
    be constructed: the construction raises [IndexError] and issues no
    probe. *)
Theorem init_needs_a_first_segment `{Env} (output u : string) (w w1 : World)
    (m : MasterJson.t) :
  get_master_json u w = (Return m, w1) →
  MasterJson.video m = [] ∨
  (∃ tv tvs top,
     MasterJson.video m = tv :: tvs ∧ MasterJson.base_url m = Some top ∧
     Video.segments tv = []) →
  __init__ output u w = (Raise IndexError, w1).
Proof.
  intros Hget Hshape. unfold __init__.
  rewrite (run_bind_Return _ _ w m w1 Hget).
  apply run_bind_Raise. unfold generate_base_url.
  destruct Hshape as [Hvideo|(tv & tvs & top & Hvideo & Htop & Hsegments)].
  - rewrite Hvideo. reflexivity.
  - rewrite Hvideo, Htop. rewrite run_bind. unfold lift at 1.
    change (getitem (tv :: tvs) 0) with (Return tv). cbv iota.
    rewrite run_bind. cbn [mret M_ret ret]. rewrite Hsegments. reflexivity.
Qed.

Lemma init_needs_a_first_segment_witness :
  @__init__ (Fake.env {| MasterJson.base_url := Some "../";
                         MasterJson.video := [];
                         MasterJson.audio := [Fake.audio96] |} 200 200 0 0)
    "out.mp4" "http://host/m/master.json" Fake.empty_world
  = (Raise IndexError,
     with_requests (λ l, l ++ ["http://host/m/master.json"]) Fake.empty_world).
Proof.
  apply (@init_needs_a_first_segment
           (Fake.env {| MasterJson.base_url := Some "../";
                        MasterJson.video := [];
                        MasterJson.audio := [Fake.audio96] |} 200 200 0 0)
           "out.mp4" "http://host/m/master.json" Fake.empty_world
           (with_requests (λ l, l ++ ["http://host/m/master.json"])
              Fake.empty_world)
           {| MasterJson.base_url := Some "../";
              MasterJson.video := [];
              MasterJson.audio := [Fake.audio96] |}).
  - reflexivity.
  - left. reflexivity.
Defined.

(** X13: a job that [__init__] returns is not configured and not
    downloaded: its four later attributes are unset, it keeps the output
    path and the URL it was given, and the construction made exactly two
    requests, the manifest and one probe.  Its base URL is the URL up to
    its last slash, alone or followed by the manifest's base_url. *)
Theorem init_returns_fresh_job `{Env} (output u : string) (w w' : World)
    (o : VimeoDownload) :
  __init__ output u w = (Return o, w') →
  output_file o = output ∧ master_json_url o = u ∧
  audio_json o = None ∧ video_json o = None ∧
  audio_file o = None ∧ video_file o = None ∧
  (∃ probe, requests w' = requests w ++ [u; probe]) ∧
  (base_url o = take_str (rfind "/"%char u + 1) u ∨
   ∃ top, MasterJson.base_url (master_json o) = Some top ∧
          base_url o = take_str (rfind "/"%char u + 1) u +:+ top).
Proof.
  unfold __init__. intros Hrun.
  apply bind_Return_inv in Hrun as (m & w1 & Hget & Hrun).
  apply bind_Return_inv in Hrun as (b & w2 & Hgen & Hrun).
  injection Hrun as <- <-. cbn.
  do 6 (split; [reflexivity|]).
  destruct (issues_get_master_json u w) as (l & Hreq & Hl).
  rewrite Hget in Hreq, Hl. cbn in Hreq, Hl. subst l.
  destruct (MasterJson.video m) as [|tv tvs] eqn:Hvideo.
  { unfold generate_base_url in Hgen. rewrite Hvideo in Hgen. discriminate. }
  destruct (MasterJson.base_url m) as [top|] eqn:Htop.
  2:{ unfold generate_base_url in Hgen. rewrite Hvideo, Htop in Hgen.
      discriminate. }
  destruct (Video.segments tv) as [|sg sgs] eqn:Hsegments.
  { unfold generate_base_url in Hgen. rewrite Hvideo, Htop in Hgen.
    rewrite run_bind in Hgen. unfold lift at 1 in Hgen.
    change (getitem (tv :: tvs) 0) with (Return tv) in Hgen. cbv iota in Hgen.
    rewrite run_bind in Hgen. cbn [mret M_ret ret] in Hgen.
    rewrite Hsegments in Hgen. discriminate. }
  rewrite (generate_base_url_probe u top m tv tvs sg sgs w1 Htop Hvideo
             Hsegments) in Hgen.
  injection Hgen as <- <-. split.
  - eexists. cbn [requests with_requests]. rewrite Hreq, <- app_assoc.
    reflexivity.
  - destruct (_ =? 200); [right; exists top; done|left; reflexivity].
Qed.

Lemma init_returns_fresh_job_witness :
  ∃ o w',
    @__init__ (Fake.env Fake.manifest 200 200 0 0) "out.mp4"
      "http://host/m/master.json" Fake.empty_world = (Return o, w') ∧
    audio_json o = None ∧ video_json o = None ∧
    audio_file o = None ∧ video_file o = None.
Proof.
  eexists. eexists. split; [reflexivity|].
  destruct (@init_returns_fresh_job (Fake.env Fake.manifest 200 200 0 0)
              "out.mp4" "http://host/m/master.json" Fake.empty_world _ _
              eq_refl) as (_ & _ & Ha & Hv & Haf & Hvf & _).
  split; [exact Ha|]. split; [exact Hv|]. split; [exact Haf|exact Hvf].
Defined.

(** ** What the methods never touch *)

(** [m] leaves the part [p] of the state as it is, whether it returns or
    raises. *)
Definition keeps {S A X} (p : S → X) (m : M S A) : Prop :=
  ∀ s, p (snd (m s)) = p s.

Section Keeps.
Context {S X : Type} (p : S → X).

Lemma keeps_ret {A} (a : A) : keeps p (mret a).
Proof. intros s. reflexivity. Qed.

Lemma keeps_raise {A} (e : exn) : keeps p (@raise S A e).
Proof. intros s. reflexivity. Qed.

Lemma keeps_lift {A} (r : outcome A) : keeps p (lift r).
Proof. intros s. reflexivity. Qed.

Lemma keeps_gets {A} (g : S → A) : keeps p (gets g).
Proof. intros s. reflexivity. Qed.

Lemma keeps_modify (f : S → S) : (∀ s, p (f s) = p s) → keeps p (modify f).
Proof. intros Hf s. apply Hf. Qed.

Lemma keeps_bind {A B} (m : M S A) (k : A → M S B) :
  keeps p m → (∀ a, keeps p (k a)) → keeps p (m ≫= k).
Proof.
  intros Hm Hk s. rewrite run_bind. specialize (Hm s).
  destruct (m s) as [[a|e] s']; simpl in *; [|exact Hm].
  rewrite Hk. exact Hm.
Qed.

Lemma keeps_for_each {A} (l : list A) (body : A → M S unit) :
  (∀ x, keeps p (body x)) → keeps p (for_each l body).
Proof.
  intros Hbody. induction l as [|x l IH]; [apply keeps_ret|].
  cbn [for_each]. apply keeps_bind; [apply Hbody|intros _; exact IH].
Qed.
End Keeps.

Lemma keeps_in_world `{Env} {A X} (p : World → X) (m : M World A) :
  keeps p m → keeps (λ s, p (world s)) (in_world m).
Proof. intros Hm s. rewrite run_in_world. simpl. exact (Hm (world s)). Qed.

Lemma keeps_call `{Env} {A X} (p : World → X) (o : VimeoDownload)
    (c : M St A) :
  keeps (λ s, p (world s)) c → keeps p (call o c).
Proof.
  intros Hc w. specialize (Hc {| self := o; world := w |}). unfold call.
  destruct (c _) as [[a|e] s']; exact Hc.
Qed.

Ltac keeps_tac :=
  repeat first
    [ apply keeps_ret | apply keeps_raise | apply keeps_lift
    | apply keeps_gets
    | apply keeps_modify; intros ?; reflexivity
    | apply keeps_in_world
    | apply keeps_for_each; intros ?
    | apply keeps_bind; [|intros ?]
    | match goal with
      | |- keeps _ (match ?x with _ => _ end) => destruct x
      end ].

Section Untouched.
Context `{Env}.

Lemma init_keeps {X} (p : World → X) output u :
  (∀ f w, p (with_stdout f w) = p w) →
  (∀ f w, p (with_requests f w) = p w) →
  keeps p (__init__ output u).
Proof.
  intros Hstdout Hrequests.
  unfold __init__, get_master_json, generate_base_url, requests_get,
    response_json, print.
  repeat first
    [ apply keeps_ret | apply keeps_raise | apply keeps_lift
    | apply keeps_gets
    | apply keeps_modify; intros ?; first [apply Hstdout|apply Hrequests]
    | apply keeps_bind; [|intros ?]
    | match goal with
      | |- keeps _ (match ?x with _ => _ end) => destruct x
      end ].
Qed.

Lemma configure_quality_keeps {X} (p : World → X) b aq vq :
  (∀ f w, p (with_stdout f w) = p w) →
  (∀ f w, p (with_menus f w) = p w) →
  keeps (λ s, p (world s)) (configure_quality b aq vq).
Proof.
  intros Hstdout Hmenus.
  unfold configure_quality, process_audio_quality, set_audio_quality,
    process_video_quality, set_video_quality, report_quality,
    _ask_audio_quality, _ask_video_quality, show_menu, print, on_self.
  repeat first
    [ apply keeps_ret | apply keeps_raise | apply keeps_lift
    | apply keeps_gets
    | apply keeps_modify; intros ?; first [apply Hstdout|apply Hmenus]
    | apply keeps_modify; intros ?; reflexivity
    | apply keeps_in_world
    | apply keeps_bind; [|intros ?]
    | match goal with
      | |- keeps _ (match ?x with _ => _ end) => destruct x
      end ].
Qed.

Lemma download_audio_video_keeps {X} (p : World → X) :
  (∀ f w, p (with_stdout f w) = p w) →
  (∀ f w, p (with_files f w) = p w) →
  (∀ f w, p (with_handles f w) = p w) →
  (∀ f w, p (with_requests f w) = p w) →
  keeps (λ s, p (world s)) download_audio_video.
Proof.
  intros Hstdout Hfiles Hhandles Hrequests.
  unfold download_audio_video, download_tracks, download_segments,
    decode_init_segment, requests_get, open_wb, write, flush, close, print,
    on_self.
  repeat first
    [ apply keeps_ret | apply keeps_raise | apply keeps_lift
    | apply keeps_gets
    | apply keeps_modify; intros ?;
        first [apply Hstdout|apply Hfiles|apply Hhandles|apply Hrequests]
    | apply keeps_modify; intros ?; reflexivity
    | apply keeps_in_world
    | apply keeps_for_each; intros ?
    | apply keeps_bind; [|intros ?]
    | match goal with
      | |- keeps _ (match ?x with _ => _ end) => destruct x
      end ].
Qed.

Lemma combine_audio_video_keeps {X} (p : World → X) :
  (∀ f w, p (with_stdout f w) = p w) →
  (∀ f w, p (with_files f w) = p w) →
  (∀ f w, p (with_commands f w) = p w) →
  keeps (λ s, p (world s)) combine_audio_video.
Proof.
  intros Hstdout Hfiles Hcommands.
  unfold combine_audio_video, subprocess_call, os_remove, path_exists,
    print.
  repeat first
    [ apply keeps_ret | apply keeps_raise | apply keeps_lift
    | apply keeps_gets
    | apply keeps_modify; intros ?;
        first [apply Hstdout|apply Hfiles|apply Hcommands]
    | apply keeps_modify; intros ?; reflexivity
    | apply keeps_in_world
    | apply keeps_bind; [|intros ?]
    | match goal with
      | |- keeps _ (match ?x with _ => _ end) => destruct x
      end ].
Qed.
End Untouched.

(** X14: quality selection is offline: whatever its arguments and its
    outcome, [configure_quality] issues no request, writes or removes no
    file and runs no command. *)
Theorem configure_quality_is_offline `{Env} (interactive_fallback : bool)
    (audio_quality : option AudioQuality)
    (video_quality : option VideoQuality) (s : St) :
  requests (world (snd (configure_quality interactive_fallback audio_quality
                          video_quality s))) = requests (world s) ∧
  files (world (snd (configure_quality interactive_fallback audio_quality
                       video_quality s))) = files (world s) ∧
  commands (world (snd (configure_quality interactive_fallback audio_quality
                          video_quality s))) = commands (world s).
Proof.
  split; [|split].
  - apply (configure_quality_keeps requests); reflexivity.
  - apply (configure_quality_keeps files); reflexivity.
  - apply (configure_quality_keeps commands); reflexivity.
Qed.

(** X15: whatever its outcome, [download_audio_video] shows no menu, runs
    no command, and leaves the manifest and the two bound renditions of
    the job as they are. *)
Theorem download_keeps_selection `{Env} (s : St) :
  menus (world (snd (download_audio_video s))) = menus (world s) ∧
  commands (world (snd (download_audio_video s))) = commands (world s) ∧
  master_json (self (snd (download_audio_video s))) = master_json (self s) ∧
  audio_json (self (snd (download_audio_video s))) = audio_json (self s) ∧
  video_json (self (snd (download_audio_video s))) = video_json (self s).
Proof.
  split; [|split; [|split; [|split]]].
  - apply (download_audio_video_keeps menus); reflexivity.
  - apply (download_audio_video_keeps commands); reflexivity.
  - apply preserves_download_audio_video; reflexivity.
  - apply preserves_download_audio_video; reflexivity.
  - apply preserves_download_audio_video; reflexivity.
Qed.

(** X16: whatever its outcome, [combine_audio_video] issues no request,
    shows no menu and changes no attribute of the job. *)
Theorem combine_keeps_job `{Env} (s : St) :
  requests (world (snd (combine_audio_video s))) = requests (world s) ∧
  menus (world (snd (combine_audio_video s))) = menus (world s) ∧
  self (snd (combine_audio_video s)) = self s.
Proof.
  split; [|split].
  - apply (combine_audio_video_keeps requests); reflexivity.
  - apply (combine_audio_video_keeps menus); reflexivity.
  - apply (preserves_combine_audio_video (λ o, o)).
Qed.

(** ** The batch driver *)

Section Batch.
Context `{Env}.

Lemma traced_keeps {A X} (p : World → X) (job : nat) (m : method)
    (c : M World A) :
  (∀ f w, p (with_trace f w) = p w) → keeps p c → keeps p (traced job m c).
Proof.
  intros Htrace Hc. unfold traced.
  apply keeps_bind; [apply keeps_modify; intros w; apply Htrace|intros _].
  apply keeps_bind; [exact Hc|intros x].
  apply keeps_bind; [apply keeps_modify; intros w; apply Htrace|intros _].
  apply keeps_ret.
Qed.

(** The first loop touches nothing but the requests, the lines printed,
    the menus and the trace. *)
Lemma parse_tsv_file_keeps {X} (p : World → X) rows job :
  (∀ f w, p (with_trace f w) = p w) →
  (∀ f w, p (with_stdout f w) = p w) →
  (∀ f w, p (with_requests f w) = p w) →
  (∀ f w, p (with_menus f w) = p w) →
  keeps p (parse_tsv_file rows job).
Proof.
  intros Htrace Hstdout Hrequests Hmenus.
  revert job. induction rows as [|row rows IH]; intros job;
    [apply keeps_ret|].
  cbn [parse_tsv_file].
  apply keeps_bind; [apply keeps_lift|]. intros [[[video audio] output] u].
  apply keeps_bind;
    [apply traced_keeps; [exact Htrace|apply init_keeps; assumption]|].
  intros download.
  apply keeps_bind; [apply keeps_lift|]. intros video_quality.
  apply keeps_bind; [apply keeps_lift|]. intros audio_quality.
  apply keeps_bind.
  { apply traced_keeps; [exact Htrace|]. apply keeps_call.
    apply (configure_quality_keeps p); assumption. }
  intros [[] download'].
  apply keeps_bind; [apply IH|]. intros request_list. apply keeps_ret.
Qed.

(** A loop over [request_list] touches what its method touches, and the
    trace. *)
Lemma for_requests_keeps {X} (p : World → X) (m : method) (c : M St unit)
    (request_list : list VimeoDownload) (job : nat) :
  (∀ f w, p (with_trace f w) = p w) →
  keeps (λ s, p (world s)) c →
  keeps p (for_requests m c request_list job).
Proof.
  intros Htrace Hc. revert job.
  induction request_list as [|download rest IH]; intros job;
    [apply keeps_ret|].
  cbn [for_requests].
  apply keeps_bind;
    [apply traced_keeps; [exact Htrace|apply keeps_call, Hc]|].
  intros [[] download'].
  apply keeps_bind; [apply IH|]. intros rest'. apply keeps_ret.
Qed.
End Batch.

(** X17: when the first loop of the driver fails on some row, at its
    construction, at the lookup of a quality name or at its configuration,
    the batch ends with that error before any track is downloaded: no file
    is written or removed and no command is run, for any job. *)
Theorem batch_fails_before_downloading `{Env} (rows : list (list string))
    (w : World) (e : exn) :
  fst (parse_tsv_file rows 0 w) = Raise e →
  fst (main rows w) = Raise e ∧
  files (snd (main rows w)) = files w ∧
  commands (snd (main rows w)) = commands w.
Proof.
  intros Hfail. unfold main.
  assert (files (snd (parse_tsv_file rows 0 w)) = files w) as Hfiles
    by (apply (parse_tsv_file_keeps files); reflexivity).
  assert (commands (snd (parse_tsv_file rows 0 w)) = commands w) as Hcommands
    by (apply (parse_tsv_file_keeps commands); reflexivity).
  destruct (parse_tsv_file rows 0 w) as [r w'] eqn:Hrun.
  simpl in Hfail. subst r.
  rewrite (run_bind_Raise _ _ w e w' Hrun). done.
Qed.

Lemma batch_fails_before_downloading_witness :
  fst (@main (Fake.env Fake.manifest 200 200 0 0)
         [["V720"; "HI"; "a.mp4"; "http://host/m/master.json"];
          ["720"; "HI"; "b.mp4"; "http://host/m/master.json"]]
         Fake.empty_world) = Raise (KeyError "720") ∧
  files (snd (@main (Fake.env Fake.manifest 200 200 0 0)
                [["V720"; "HI"; "a.mp4"; "http://host/m/master.json"];
                 ["720"; "HI"; "b.mp4"; "http://host/m/master.json"]]
                Fake.empty_world)) = ∅.
Proof.
  destruct (@batch_fails_before_downloading
              (Fake.env Fake.manifest 200 200 0 0)
              [["V720"; "HI"; "a.mp4"; "http://host/m/master.json"];
               ["720"; "HI"; "b.mp4"; "http://host/m/master.json"]]
              Fake.empty_world (KeyError "720")) as (Hraise & Hfiles & _).
  - vm_compute. reflexivity.
  - split; [exact Hraise|exact Hfiles].
Defined.

(** X18: a row of the batch file that does not have exactly four fields
    ends the batch with a [ValueError] when it is the first row: nothing
    is requested, printed or written. *)
Theorem batch_rejects_malformed_row `{Env} (row : list string)
    (rest : list (list string)) (w : World) :
  length row ≠ 4%nat →
  ∃ msg, main (row :: rest) w = (Raise (ValueError msg), w).
Proof.
  intros Hlen. unfold main. cbn [parse_tsv_file].
  destruct row as [|f1 [|f2 [|f3 [|f4 [|f5 row]]]]]; try done;
    eexists; reflexivity.
Qed.

Lemma batch_rejects_malformed_row_witness :
  ∃ msg,
    @main (Fake.env Fake.manifest 200 200 0 0)
      [["V720"; "out.mp4"; "http://host/m/master.json"]] Fake.empty_world
    = (Raise (ValueError msg), Fake.empty_world).
Proof.
  apply (@batch_rejects_malformed_row (Fake.env Fake.manifest 200 200 0 0)
           ["V720"; "out.mp4"; "http://host/m/master.json"] []
           Fake.empty_world).
  discriminate.
Defined.

(** ** The names of the qualities *)

(** X19: a video quality is looked up by the name of its member: the name
    that selects a quality is [VMAX] for the maximum and [V] followed by
    the height for every other quality, so a bare height such as 720 is
    not a name. *)
Theorem video_quality_names (name : string) (q : VideoQuality) :
  VideoQuality_of_name name = Return q ↔
  name = if decide (q = VMAX) then "VMAX"
         else "V" +:+ str (VideoQuality_value q).
Proof.
  split.
  - unfold VideoQuality_of_name.
    repeat match goal with
           | |- context [String.eqb name ?n] =>
               destruct (String.eqb_spec name n) as [->|?];
               [intros [= <-]; reflexivity|]
           end.
    discriminate.
  - intros ->. destruct q; reflexivity.
Qed.

(** ** Interactive fallback *)

Lemma process_video_quality_fallback `{Env} (q : VideoQuality) (s : St) :
  q ≠ VMAX →
  VideoQuality_value q ∉ list_heights (self s) →
  Forall (λ h, 0 ≤ h < 16384) (list_heights (self s)) →
  (∀ h, h ∈ list_heights (self s) →
        ¬ within_5_percent_bound h (VideoQuality_value q)) →
  process_video_quality true (Some q) s
  = (in_world (print (str (VideoQuality_value q)
                      +:+ "p is not available. See options below"));;
     _ask_video_quality) s.
Proof.
  intros Hq Hnin Hsmall Hall. unfold process_video_quality. rewrite run_bind.
  cbn [gets]. case_decide; [done|].
  destruct (contains _ _) eqn:Hc; [apply contains_elem in Hc; done|].
  rewrite run_bind. unfold lift at 1.
  rewrite (fuzzy_search_none _ _ 0 Hsmall Hall). reflexivity.
Qed.

(** X20: with interactive fallback, a requested height that no rendition
    has and that is within five percent of none is not an error, for a
    manifest whose heights are below 16384: the script prints that the
    height is not available, shows the video menu once, and the
    configuration returns when the user answers with the index of an
    option. *)
Theorem unmatched_height_falls_back_to_menu `{Env} (s : St)
    (aq : AudioQuality) (vq : VideoQuality) :
  menu_answers_in_range →
  vq ≠ VMAX →
  MasterJson.audio (master_json (self s)) ≠ [] →
  (aq = MED → (2 ≤ length (MasterJson.audio (master_json (self s))))%nat) →
  MasterJson.video (master_json (self s)) ≠ [] →
  (∀ v, v ∈ MasterJson.video (master_json (self s)) →
        0 ≤ Video.height v < 16384) →
  (∀ v, v ∈ MasterJson.video (master_json (self s)) →
        Video.height v ≠ VideoQuality_value vq ∧
        ¬ within_5_percent_bound (Video.height v) (VideoQuality_value vq)) →
  fst (configure_quality true (Some aq) (Some vq) s) = Return tt ∧
  (str (VideoQuality_value vq) +:+ "p is not available. See options below")
    ∈ stdout (world (snd (configure_quality true (Some aq) (Some vq) s))) ∧
  ∃ options,
    menus (world (snd (configure_quality true (Some aq) (Some vq) s)))
    = menus (world s) ++ [(options, "Video Quality? (width x height)")].
Proof.
  intros Hmenu Hvq Hne Hmed Hvideo Hbound Hnone.
  destruct (audio_steps_run aq
              {| self := self s;
                 world := with_stdout
                   (λ out, out ++ [newline +:+ "======== "
                                   +:+ output_filename (self s) +:+ " ========"])
                   (world s) |} Hne Hmed) as (b & ia & a & _ & _ & Hrun).
  rewrite configure_quality_guard by (left; done).
  rewrite Hrun. clear Hrun. cbn [self world].
  set (w0 := with_stdout _ (world s)).
  set (line := str (VideoQuality_value vq)
               +:+ "p is not available. See options below").
  destruct (ask_video_quality_run
              {| self := set_audio_json a (self s);
                 world := with_stdout (λ out, out ++ [line]) w0 |}
              Hmenu Hvideo) as (h & options & Hask & Hh & _).
  erewrite run_bind_Return.
  2:{ rewrite process_video_quality_fallback.
      - erewrite run_bind_Return by (apply run_in_world_Return; reflexivity).
        exact Hask.
      - done.
      - intros Hin. apply list_elem_of_fmap in Hin as (v & Hv & Hin).
        destruct (Hnone v Hin) as [Hneq _]. done.
      - apply Forall_fmap, Forall_forall. exact Hbound.
      - intros h' Hh'. apply list_elem_of_fmap in Hh' as (v & -> & Hin).
        apply (Hnone v Hin). }
  destruct (first_at_exists (λ v, Video.height v = h)
              (MasterJson.video (master_json (self s)))) as (iv & v & Hfirstv).
  { apply list_elem_of_fmap in Hh as (v & -> & Hv). exists v. done. }
  erewrite run_bind_Return
    by (apply (set_video_quality_first _ h iv v); exact Hfirstv).
  erewrite (report_quality_run _ a v) by reflexivity.
  split; [reflexivity|]. split.
  - subst w0. cbn [snd world self stdout with_menus with_stdout].
    rewrite !elem_of_app. left. right. left.
  - exists options. subst w0.
    cbn [snd world self menus with_menus with_stdout]. reflexivity.
Qed.

Lemma unmatched_height_falls_back_to_menu_witness :
  fst (@configure_quality (last_option_env Fake.manifest) true (Some HI)
         (Some V240) (Fake.fresh Fake.manifest)) = Return tt.
Proof.
  apply (@unmatched_height_falls_back_to_menu (last_option_env Fake.manifest)
           (Fake.fresh Fake.manifest) HI V240).
  - intros options title Hne. simpl.
    destruct options; [done|]. simpl. lia.
  - discriminate.
  - discriminate.
  - discriminate.
  - discriminate.
  - intros v Hv. simpl in Hv.
    repeat (apply elem_of_cons in Hv as [->|Hv]); [simpl; lia..|].
    apply elem_of_nil in Hv. destruct Hv.
  - intros v Hv. simpl in Hv.
    repeat (apply elem_of_cons in Hv as [->|Hv]);
      [..|apply elem_of_nil in Hv; destruct Hv];
      (split; [discriminate|]);
      unfold within_5_percent_bound, Qle; simpl; lia.
Defined.

(** ** Heights that have no double *)

(** X25: [height * 0.95] converts the height to a double first, and an int
    from 2^1024 - 2^970 on has none.  When no rendition has the requested
    height and the scan meets such a height before a rendition within five
    percent, [configure_quality] raises [OverflowError], with or without
    interactive fallback: no video rendition is bound and no menu is
    shown. *)
Theorem huge_height_overflows `{Env} (s : St) (interactive_fallback : bool)
    (aq : AudioQuality) (vq : VideoQuality) (before after : list Video.t)
    (big : Video.t) :
  vq ≠ VMAX →
  MasterJson.audio (master_json (self s)) ≠ [] →
  (aq = MED → (2 ≤ length (MasterJson.audio (master_json (self s))))%nat) →
  MasterJson.video (master_json (self s)) = before ++ big :: after →
  (∀ v, v ∈ MasterJson.video (master_json (self s)) →
        Video.height v ≠ VideoQuality_value vq) →
  (∀ v, v ∈ before →
        0 ≤ Video.height v < 16384 ∧
        ¬ within_5_percent_bound (Video.height v) (VideoQuality_value vq)) →
  2 ^ 1024 - 2 ^ 970 ≤ Z.abs (Video.height big) →
  fst (configure_quality interactive_fallback (Some aq) (Some vq) s)
    = Raise OverflowError ∧
  video_json (self (snd (configure_quality interactive_fallback (Some aq)
                           (Some vq) s))) = video_json (self s) ∧
  menus (world (snd (configure_quality interactive_fallback (Some aq)
                       (Some vq) s))) = menus (world s).
Proof.
  intros Hvq Hne Hmed Hvideos Hnone Hbefore Hbig.
  destruct (audio_steps_run aq
              {| self := self s;
                 world := with_stdout
                   (λ out, out ++ [newline +:+ "======== "
                                   +:+ output_filename (self s) +:+ " ========"])
                   (world s) |} Hne Hmed) as (b & ia & a & _ & _ & Hrun).
  rewrite configure_quality_guard
    by (destruct interactive_fallback; [left|right]; done).
  rewrite Hrun. clear Hrun. cbn [self world].
  set (s1 := {| self := set_audio_json a (self s); world := _ |}).
  rewrite (run_bind_Raise _ _ s1 OverflowError s1); [done|].
  apply (process_video_quality_overflow _ _ _ (Video.height <$> before)
           (Video.height <$> after) (Video.height big)); [done| | | | |done].
  - intros Hin. apply list_elem_of_fmap in Hin as (w & Hw & Hin).
    exact (Hnone w Hin (eq_sym Hw)).
  - unfold list_heights. cbn [self s1 master_json set_audio_json].
    rewrite Hvideos, fmap_app. reflexivity.
  - apply Forall_fmap, Forall_forall. intros v Hv. apply (Hbefore v Hv).
  - intros h Hin. apply list_elem_of_fmap in Hin as (w & -> & Hin).
    apply (Hbefore w Hin).
Qed.

Lemma huge_height_overflows_witness :
  fst (@configure_quality (Fake.env Fake.huge_height 200 200 0 0) true
         (Some HI) (Some V720) (Fake.fresh Fake.huge_height))
    = Raise OverflowError ∧
  menus (world (snd (@configure_quality (Fake.env Fake.huge_height 200 200 0 0)
                       true (Some HI) (Some V720)
                       (Fake.fresh Fake.huge_height)))) = [].
Proof.
  destruct (@huge_height_overflows (Fake.env Fake.huge_height 200 200 0 0)
              (Fake.fresh Fake.huge_height) true HI V720
              [Fake.video360] [Fake.video750] Fake.video_huge)
    as (Hraise & _ & Hmenus).
  - discriminate.
  - discriminate.
  - discriminate.
  - reflexivity.
  - intros v Hv. simpl in Hv.
    repeat (apply elem_of_cons in Hv as [->|Hv]); [done..|].
    apply elem_of_nil in Hv. destruct Hv.
  - intros v Hv. apply list_elem_of_singleton in Hv as ->.
    split; [simpl; lia|].
    unfold within_5_percent_bound, Qle. simpl. lia.
  - apply Z.leb_le. vm_compute. reflexivity.
  - split; [exact Hraise|exact Hmenus].
Defined.

(** ** From the download to the mux *)

Section Pipeline.
Context `{Env}.

(** What the call of ffmpeg does to the world. *)
Lemma subprocess_call_run (command audio video output : string) (w : World) :
  subprocess_call command audio video output w
  = (Return (fst (ffmpeg (default [] (files w !! audio))
                    (default [] (files w !! video)))),
     {| files :=
          match snd (ffmpeg (default [] (files w !! audio))
                       (default [] (files w !! video))) with
          | Some data => <[output := data]> (files w)
          | None => files w
          end;
        handles := handles w;
        requests := requests w; stdout := stdout w; menus := menus w;
        commands := commands w ++ [command]; trace := trace w |}).
Proof.
  unfold subprocess_call. rewrite !run_bind. cbn [modify gets].
  rewrite !run_bind. cbn [modify gets with_commands files].
  destruct (ffmpeg _ _) as [status [data|]]; reflexivity.
Qed.
End Pipeline.

(** X21: the download and the mux compose.  After a download whose
    segments are all answered with 200, [combine_audio_video] returns: it
    runs ffmpeg once on the two assembled tracks, named by the command
    line with the job's output path; the output path then holds what
    ffmpeg produced, and both track files are gone. *)
Theorem download_then_combine `{Env} (s : St) (a : Audio.t) (v : Video.t)
    (init_a init_v : list byte) :
  audio_json (self s) = Some a →
  video_json (self s) = Some v →
  b64decode (Audio.init_segment a) = Some init_a →
  b64decode (Video.init_segment v) = Some init_v →
  Forall (λ r, status_code r = 200)
    (fetch_all (requests (world s))
       (segment_urls (base_url (self s) +:+ Audio.base_url a)
          (Audio.segments a))) →
  Forall (λ r, status_code r = 200)
    (fetch_all
       (requests (world s) ++
        segment_urls (base_url (self s) +:+ Audio.base_url a)
          (Audio.segments a))
       (segment_urls (base_url (self s) +:+ Video.base_url v)
          (Video.segments v))) →
  output_file (self s) ≠ track_file (self s) "audio" (Audio.id a) ".m4a" →
  output_file (self s) ≠ track_file (self s) "video" (Video.id v) ".mp4" →
  fst (combine_audio_video (snd (download_audio_video s))) = Return tt ∧
  commands (world (snd (combine_audio_video (snd (download_audio_video s)))))
  = commands (world s) ++
    [ffmpeg_command (track_file (self s) "audio" (Audio.id a) ".m4a")
       (track_file (self s) "video" (Video.id v) ".mp4")
       (output_file (self s))] ∧
  files (world (snd (combine_audio_video (snd (download_audio_video s)))))
    !! track_file (self s) "audio" (Audio.id a) ".m4a" = None ∧
  files (world (snd (combine_audio_video (snd (download_audio_video s)))))
    !! track_file (self s) "video" (Video.id v) ".mp4" = None ∧
  files (world (snd (combine_audio_video (snd (download_audio_video s)))))
    !! output_file (self s)
  = match snd (ffmpeg
                 (init_a ++ concat (body <$>
                    fetch_all (requests (world s))
                      (segment_urls (base_url (self s) +:+ Audio.base_url a)
                         (Audio.segments a))))
                 (init_v ++ concat (body <$>
                    fetch_all
                      (requests (world s) ++
                       segment_urls (base_url (self s) +:+ Audio.base_url a)
                         (Audio.segments a))
                      (segment_urls (base_url (self s) +:+ Video.base_url v)
                         (Video.segments v))))) with
    | Some data => Some data
    | None => files (world s) !! output_file (self s)
    end.
Proof.
  intros Ha Hv Hia Hiv Hoka Hokv Hout_a Hout_v.
  pose proof (track_file_audio_video_ne (self s) (Audio.id a) (Video.id v))
    as Hne.
  destruct (download_audio_video_run s a v init_a init_v Ha Hv Hia Hiv
              Hoka Hokv) as (w' & -> & Hcommands & Hfiles & _).
  set (af := track_file (self s) "audio" (Audio.id a) ".m4a") in *.
  set (vf := track_file (self s) "video" (Video.id v) ".mp4") in *.
  cbn [snd].
  assert (files w' !! af = Some (init_a ++ concat (body <$>
            fetch_all (requests (world s))
              (segment_urls (base_url (self s) +:+ Audio.base_url a)
                 (Audio.segments a))))) as Haf.
  { rewrite Hfiles, lookup_insert_ne by done. apply lookup_insert_eq. }
  assert (files w' !! vf = Some (init_v ++ concat (body <$>
            fetch_all
              (requests (world s) ++
               segment_urls (base_url (self s) +:+ Audio.base_url a)
                 (Audio.segments a))
              (segment_urls (base_url (self s) +:+ Video.base_url v)
                 (Video.segments v))))) as Hvf.
  { rewrite Hfiles. apply lookup_insert_eq. }
  assert (files w' !! output_file (self s)
          = files (world s) !! output_file (self s)) as Hof.
  { rewrite Hfiles, !lookup_insert_ne by done. reflexivity. }
  unfold combine_audio_video. rewrite run_bind.
  cbn [gets self set_video_file set_audio_file audio_file video_file].
  erewrite run_bind_Return
    by (apply run_in_world_Return, path_exists_present; cbn [world];
        rewrite Haf; eauto).
  erewrite run_bind_Return
    by (apply run_in_world_Return, path_exists_present; cbn [world];
        rewrite Hvf; eauto).
  cbn [negb orb self world].
  do 2 (erewrite run_bind_Return by (apply run_in_world_Return; reflexivity)).
  cbn [self world set_video_file set_audio_file output_file].
  erewrite run_bind_Return
    by (apply run_in_world_Return, subprocess_call_run).
  cbn [self world with_stdout files requests stdout menus commands trace].
  rewrite Haf, Hvf. cbn [default].
  set (produced := snd (ffmpeg _ _)).
  set (fs := match produced with
             | Some data => <[output_file (self s) := data]> (files w')
             | None => files w'
             end).
  assert (is_Some (fs !! af)) as Hfa.
  { subst fs. destruct produced; [rewrite lookup_insert_ne by done|];
      rewrite Haf; eauto. }
  assert (is_Some (fs !! vf)) as Hfv.
  { subst fs. destruct produced; [rewrite lookup_insert_ne by done|];
      rewrite Hvf; eauto. }
  erewrite run_bind_Return
    by (apply run_in_world_Return, os_remove_present; exact Hfa).
  cbn [self world with_files files requests stdout menus commands trace].
  rewrite run_in_world. cbn [world].
  rewrite os_remove_present
    by (cbn [files with_files]; rewrite lookup_delete_ne by done; exact Hfv).
  cbn [fst snd self world with_files files commands].
  split; [reflexivity|]. split; [rewrite Hcommands; reflexivity|].
  split; [|split].
  - rewrite lookup_delete_ne by done. apply lookup_delete_eq.
  - apply lookup_delete_eq.
  - rewrite !lookup_delete_ne by done. subst fs.
    destruct produced; [apply lookup_insert_eq|exact Hof].
Qed.

Lemma download_then_combine_witness :
  fst (@combine_audio_video (Fake.env Fake.manifest 200 200 0 0)
         (snd (@download_audio_video (Fake.env Fake.manifest 200 200 0 0)
                 Fake.configured))) = Return tt ∧
  files (world (snd (@combine_audio_video
                       (Fake.env Fake.manifest 200 200 0 0)
                       (snd (@download_audio_video
                               (Fake.env Fake.manifest 200 200 0 0)
                               Fake.configured)))))
    !! "/home/user/out_audio_a256.m4a" = None.
Proof.
  destruct (@download_then_combine (Fake.env Fake.manifest 200 200 0 0)
              Fake.configured Fake.audio256 Fake.video720
              [x03; x04] [x00; x01; x02])
    as (Hret & _ & Haudio & _).
  - reflexivity.
  - reflexivity.
  - reflexivity.
  - reflexivity.
  - simpl. repeat constructor.
  - simpl. repeat constructor.
  - discriminate.
  - discriminate.
  - split; [exact Hret|exact Haudio].
Defined.

(** ** The manifest directory *)

Lemma rfind_from_rfind (c : ascii) (s : string) (i last : Z) :
  -1 ≤ rfind c s ∧
  rfind_from c s i last = if rfind c s =? -1 then last else i + rfind c s.
Proof.
  unfold rfind. revert i last. induction s as [|d s IH]; intros i last.
  - simpl. split; [lia|]. reflexivity.
  - cbn [rfind_from].
    destruct (IH 0 (-1)) as [Hge _].
    destruct (IH (i + 1) (if Ascii.eqb d c then i else last)) as [_ ->].
    destruct (IH (0 + 1) (if Ascii.eqb d c then 0 else -1)) as [_ ->].
    destruct (Z.eqb_spec (rfind_from c s 0 (-1)) (-1)) as [Heq|Hne].
    + destruct (Ascii.eqb d c); simpl; split; try lia; reflexivity.
    + split; [lia|].
      destruct (Z.eqb_spec (0 + 1 + rfind_from c s 0 (-1)) (-1)); lia.
Qed.

Lemma substring_0_0 (s : string) : String.substring 0 0 s = EmptyString.
Proof. destruct s; reflexivity. Qed.

(** The URL up to its last slash, by cases on the first character. *)
Lemma trimmed_url_cons (d : ascii) (s : string) :
  take_str (rfind "/"%char (String d s) + 1) (String d s)
  = if rfind "/"%char s =? -1
    then (if Ascii.eqb d "/"%char then String d EmptyString else EmptyString)
    else String d (take_str (rfind "/"%char s + 1) s).
Proof.
  unfold take_str.
  destruct (rfind_from_rfind "/"%char s 0 (-1)) as [Hge _].
  unfold rfind at 1. cbn [rfind_from].
  destruct (rfind_from_rfind "/"%char s (0 + 1)
              (if Ascii.eqb d "/"%char then 0 else -1)) as [_ ->].
  destruct (Z.eqb_spec (rfind "/"%char s) (-1)) as [Heq|Hne].
  - destruct (Ascii.eqb d "/"%char); simpl.
    + rewrite substring_0_0. reflexivity.
    + reflexivity.
  - replace (Z.to_nat (0 + 1 + rfind "/"%char s + 1))
      with (S (Z.to_nat (rfind "/"%char s + 1))) by lia.
    reflexivity.
Qed.

(** X22: [master_json_url[:rfind('/') + 1]] is the URL up to and with its
    last slash: what is left of the URL after it has no slash, and it is
    empty exactly when the URL has no slash at all. *)
Theorem trimmed_url_is_up_to_last_slash (u : string) :
  ∃ rest,
    u = take_str (rfind "/"%char u + 1) u +:+ rest ∧
    slash_free rest = true ∧
    (rfind "/"%char u = -1 ∧ take_str (rfind "/"%char u + 1) u = EmptyString
     ∨ 0 ≤ rfind "/"%char u ∧
       last_char (take_str (rfind "/"%char u + 1) u) = Some "/"%char).
Proof.
  induction u as [|d u IH].
  - exists EmptyString. split; [reflexivity|]. split; [reflexivity|].
    left. split; reflexivity.
  - destruct IH as (rest & Hu & Hfree & Hcases).
    rewrite trimmed_url_cons.
    destruct (rfind_from_rfind "/"%char u (0 + 1)
                (if Ascii.eqb d "/"%char then 0 else -1)) as [_ Hr].
    assert (rfind "/"%char (String d u)
            = if rfind "/"%char u =? -1
              then (if Ascii.eqb d "/"%char then 0 else -1)
              else 0 + 1 + rfind "/"%char u) as Hrfind by exact Hr.
    rewrite Hrfind.
    destruct Hcases as [[Hnone Hempty]|[Hsome Hlast]].
    + rewrite Hnone. cbn [Z.eqb Pos.eqb].
      rewrite Hempty in Hu. change (u = rest) in Hu. subst rest.
      destruct (Ascii.eqb_spec d "/"%char) as [->|Hd].
      * exists u. split; [reflexivity|]. split; [exact Hfree|].
        right. split; [lia|reflexivity].
      * exists (String d u). split; [reflexivity|]. split.
        -- cbn [slash_free]. rewrite Hfree.
           apply Ascii.eqb_neq in Hd. rewrite Hd. reflexivity.
        -- left. split; reflexivity.
    + destruct (Z.eqb_spec (rfind "/"%char u) (-1)) as [Heq|Hne]; [lia|].
      exists rest. split; [|split; [exact Hfree|]].
      * change (String d u = String d (take_str (rfind "/"%char u + 1) u
                                       +:+ rest)).
        f_equal. exact Hu.
      * right. split; [lia|]. cbn [last_char]. rewrite Hlast. reflexivity.
Qed.

(** ** The names of the track files *)

(** [s] does not contain the character [c]. *)
Fixpoint char_free (c : ascii) (s : string) : bool :=
  match s with
  | EmptyString => true
  | String d s' => negb (Ascii.eqb d c) && char_free c s'
  end.

Lemma rfind_from_char_free (c : ascii) (s : string) (i last : Z) :
  char_free c s = true → rfind_from c s i last = last.
Proof.
  revert i. induction s as [|d s IH]; intros i Hfree; [reflexivity|].
  simpl in *. apply andb_true_iff in Hfree as [Hd Hs].
  apply negb_true_iff in Hd. rewrite Hd. auto.
Qed.

Lemma char_free_append (c : ascii) (s1 s2 : string) :
  char_free c (s1 +:+ s2) = char_free c s1 && char_free c s2.
Proof.
  induction s1 as [|d s1 IH]; [reflexivity|].
  change (char_free c (String d (s1 +:+ s2))
          = char_free c (String d s1) && char_free c s2).
  cbn [char_free]. rewrite IH, andb_assoc. reflexivity.
Qed.

Lemma slash_free_char_free (s : string) : slash_free s = char_free "/"%char s.
Proof. induction s as [|d s IH]; [reflexivity|]. simpl. rewrite IH. done. Qed.

Lemma substring_whole (s : string) :
  String.substring 0 (String.length s) s = s.
Proof. induction s as [|d s IH]; [reflexivity|]. simpl. rewrite IH. done. Qed.

Lemma substring_suffix (s1 s2 : string) :
  String.substring (String.length s1) (String.length s2) (s1 +:+ s2) = s2.
Proof.
  induction s1 as [|d s1 IH]; [apply substring_whole|]. exact IH.
Qed.

(** The last component of [dir/name]. *)
Lemma basename_of_path (dir name : string) :
  slash_free name = true → basename (dir +:+ "/" +:+ name) = name.
Proof.
  intros Hfree. unfold basename, rfind. rewrite rfind_from_append. simpl.
  rewrite (rfind_from_slash_free name _ _ Hfree). unfold drop_str.
  replace (Z.to_nat (0 + Z.of_nat (String.length dir) + 1))
    with (String.length (dir +:+ "/")) by (rewrite length_append; simpl; lia).
  rewrite <- (append_assoc dir "/" name).
  replace (String.length ((dir +:+ "/") +:+ name)
           - String.length (dir +:+ "/"))%nat
    with (String.length name) by (rewrite (length_append (dir +:+ "/")); lia).
  apply substring_suffix.
Qed.

(** The root of [stem.ext]. *)
Lemma splitext_of_name (stem ext : string) :
  stem ≠ EmptyString →
  char_free "/"%char stem = true → char_free "."%char stem = true →
  char_free "/"%char ext = true → char_free "."%char ext = true →
  fst (splitext (stem +:+ "." +:+ ext)) = stem.
Proof.
  intros Hne Hslash Hdot Hslash_ext Hdot_ext. unfold splitext.
  assert (rfind "/"%char (stem +:+ "." +:+ ext) = -1) as ->.
  { unfold rfind. apply rfind_from_char_free.
    rewrite char_free_append, Hslash. simpl. exact Hslash_ext. }
  assert (rfind "."%char (stem +:+ "." +:+ ext)
          = Z.of_nat (String.length stem)) as ->.
  { unfold rfind. rewrite rfind_from_append. simpl.
    rewrite (rfind_from_char_free _ ext _ _ Hdot_ext). lia. }
  replace (Z.to_nat (-1 + 1)) with 0%nat by lia.
  replace (Z.to_nat (Z.of_nat (String.length stem) - (-1 + 1)))
    with (String.length stem) by lia.
  rewrite substring_prefix.
  assert (all_dots stem = false) as ->.
  { destruct stem as [|d stem]; [done|]. simpl in *.
    apply andb_true_iff in Hdot as [Hd _]. apply negb_true_iff in Hd.
    rewrite Hd. reflexivity. }
  destruct (Z.ltb_spec (-1) (Z.of_nat (String.length stem))); [|lia].
  cbn [andb negb fst]. unfold take_str. rewrite Nat2Z.id.
  apply substring_prefix.
Qed.

(** X23: for an output path [dir/stem.ext], where neither [stem] nor [ext]
    has a slash or a dot and [stem] is not empty, the output file name is
    [stem.ext] and a track file is named after the stem, the kind of the
    track and the id of the rendition, in the output directory:
    [stem_kind_id] followed by the extension of the track. *)
Theorem track_file_name `{Env} (o : VimeoDownload)
    (dir stem ext kind id suffix : string) :
  output_file o = dir +:+ "/" +:+ stem +:+ "." +:+ ext →
  stem ≠ EmptyString →
  char_free "/"%char stem = true → char_free "."%char stem = true →
  char_free "/"%char ext = true → char_free "."%char ext = true →
  output_filename o = stem +:+ "." +:+ ext ∧
  track_file o kind id suffix
  = output_directory o +:+ "/" +:+ stem +:+ "_" +:+ kind +:+ "_" +:+ id
      +:+ suffix.
Proof.
  intros Hout Hne Hslash Hdot Hslash_ext Hdot_ext.
  assert (output_filename o = stem +:+ "." +:+ ext) as Hname.
  { unfold output_filename. rewrite Hout. apply basename_of_path.
    rewrite slash_free_char_free, char_free_append, Hslash. simpl.
    exact Hslash_ext. }
  split; [exact Hname|].
  unfold track_file. rewrite Hname, splitext_of_name by done. reflexivity.
Qed.

Lemma track_file_name_witness :
  @track_file (Fake.env Fake.manifest 200 200 0 0)
    {| output_file := "videos/clip.mp4";
       master_json_url := "http://host/m/master.json";
       master_json := Fake.manifest; base_url := "http://host/m/";
       audio_json := None; video_json := None;
       audio_file := None; video_file := None |}
    "audio" "a256" ".m4a"
  = "/home/user/videos/clip_audio_a256.m4a".
Proof.
  destruct (@track_file_name (Fake.env Fake.manifest 200 200 0 0)
              {| output_file := "videos/clip.mp4";
                 master_json_url := "http://host/m/master.json";
                 master_json := Fake.manifest; base_url := "http://host/m/";
                 audio_json := None; video_json := None;
                 audio_file := None; video_file := None |}
              "videos" "clip" "mp4" "audio" "a256" ".m4a") as [_ Hfile].
  - reflexivity.
  - discriminate.
  - reflexivity.
  - reflexivity.
  - reflexivity.
  - reflexivity.
  - rewrite Hfile. reflexivity.
Defined.

(** ** A manifest that does not parse *)

Lemma get_master_json_requests `{Env} (u : string) (w : World) :
  requests (snd (get_master_json u w)) = requests w ++ [u].
Proof.
  unfold get_master_json. rewrite run_bind.
  unfold requests_get at 1. rewrite !run_bind. cbn [gets modify].
  rewrite !run_bind. cbn [gets modify mret M_ret ret].
  match goal with
  | |- requests (snd (?k ?w1)) = _ =>
      assert (keeps requests k) as Hkeeps;
      [|rewrite (Hkeeps w1); reflexivity]
  end.
  unfold response_json, print. keeps_tac.
Qed.

(** X24: when the manifest is answered with a status that
    [raise_for_status] lets through but its body is not JSON, the
    construction raises [JSONDecodeError] after that one request; no probe
    is issued. *)
Theorem init_malformed_manifest `{Env} (output u : string) (w : World) :
  ¬ 400 ≤ status_code (http_get (requests w) u) < 600 →
  json (concat (chunks (http_get (requests w) u))) = None →
  fst (__init__ output u w) = Raise JSONDecodeError ∧
  requests (snd (__init__ output u w)) = requests w ++ [u].
Proof.
  intros Hstatus Hjson.
  destruct (get_master_json_by_status u w) as [_ Hparse].
  specialize (Hparse Hstatus). rewrite Hjson in Hparse.
  pose proof (get_master_json_requests u w) as Hreq.
  unfold __init__.
  destruct (get_master_json u w) as [r w1] eqn:Hget.
  simpl in Hparse, Hreq. subst r.
  rewrite (run_bind_Raise _ _ w JSONDecodeError w1 Hget). done.
Qed.

Lemma init_malformed_manifest_witness :
  fst (@__init__
         {| tty_menu := λ _ _, 0;
            http_get := Fake.server 200 200;
            json := λ _, None;
            b64decode := Fake.decode;
            abspath := λ p, p;
            ffmpeg := λ a v, (0, None);
            auto_flushed := Fake.buffer_of_4 |}
         "out.mp4" "http://host/m/master.json" Fake.empty_world)
    = Raise JSONDecodeError.
Proof.
  apply (@init_malformed_manifest
           {| tty_menu := λ _ _, 0;
              http_get := Fake.server 200 200;
              json := λ _, None;
              b64decode := Fake.decode;
              abspath := λ p, p;
              ffmpeg := λ a v, (0, None);
            auto_flushed := Fake.buffer_of_4 |}
           "out.mp4" "http://host/m/master.json" Fake.empty_world).
  - simpl. lia.
  - reflexivity.
Defined.

(** * The phases of a batch *)

(** ** What each phase does for one job *)

(** The probe of the construction of [o], when its manifest has what the
    probe is made of. *)
Definition probe_url (o : VimeoDownload) : list string :=
  match MasterJson.base_url (master_json o),
        MasterJson.video (master_json o) with
  | Some top, test_video :: _ =>
      match Video.segments test_video with
      | segment :: _ =>
          [take_str (rfind "/"%char (master_json_url o) + 1)
             (master_json_url o)
           +:+ top +:+ Video.base_url test_video +:+ url segment]
      | [] => []
      end
  | _, _ => []
  end.

(** The requests of the construction of [o]: the manifest, then the
    probe. *)
Definition fetch_requests (o : VimeoDownload) : list string :=
  master_json_url o :: probe_url o.

(** The requests of the download of [o]: the segments of the audio
    rendition bound to it, then those of the video rendition. *)
Definition download_requests (o : VimeoDownload) : list string :=
  match audio_json o, video_json o with
  | Some a, Some v =>
      segment_urls (base_url o +:+ Audio.base_url a) (Audio.segments a) ++
      segment_urls (base_url o +:+ Video.base_url v) (Video.segments v)
  | _, _ => []
  end.

(** The object [o] once its download has returned: the names of its two
    track files are set. *)
Definition downloaded_job `{Env} (o : VimeoDownload) : VimeoDownload :=
  match audio_json o, video_json o with
  | Some a, Some v =>
      set_video_file (track_file o "video" (Video.id v) ".mp4")
        (set_audio_file (track_file o "audio" (Audio.id a) ".m4a") o)
  | _, _ => o
  end.

(** The command of the mux of [o]. *)
Definition mux_command (o : VimeoDownload) : list string :=
  match audio_file o, video_file o with
  | Some af, Some vf => [ffmpeg_command af vf (output_file o)]
  | _, _ => []
  end.

(** The object [o] has an audio and a video rendition bound. *)
Definition is_configured (o : VimeoDownload) : Prop :=
  is_Some (audio_json o) ∧ is_Some (video_json o).

Section Phases.
Context `{Env}.

(** *** Inverting the driver's wrappers *)

Lemma traced_Return_inv {A} (job : nat) (m : method) (c : M World A)
    (w w' : World) (x : A) :
  traced job m c w = (Return x, w') →
  ∃ w1,
    c (with_trace (λ t, t ++ [Enter job m]) w) = (Return x, w1) ∧
    w' = with_trace (λ t, t ++ [Leave job m]) w1.
Proof.
  unfold traced. rewrite run_bind. cbn [modify].
  rewrite run_bind. destruct (c _) as [[y|e] w1]; [|discriminate].
  rewrite run_bind. cbn [modify mret M_ret ret].
  intros [= <- <-]. exists w1. done.
Qed.

Lemma call_Return_inv {A} (o o' : VimeoDownload) (c : M St A) (w w' : World)
    (a : A) :
  call o c w = (Return (a, o'), w') →
  ∃ s', c {| self := o; world := w |} = (Return a, s') ∧
        self s' = o' ∧ world s' = w'.
Proof.
  unfold call. destruct (c _) as [[x|e] s']; [|discriminate].
  intros [= <- <- <-]. exists s'. done.
Qed.

Lemma in_world_self {A} (m : M World A) (s s1 : St) (r : outcome A) :
  in_world m s = (r, s1) → self s1 = self s.
Proof. rewrite run_in_world. intros [= _ <-]. reflexivity. Qed.

(** *** The logs of the driver's loops *)

Lemma issues_traced {A E} (req : World → list E) (job : nat) (m : method)
    (c : M World A) (l : list E) :
  (∀ f w, req (with_trace f w) = req w) →
  issues req c l → issues req (traced job m c) l.
Proof.
  intros Htrace Hc. unfold traced.
  apply issues_bind_nil;
    [apply issues_modify; intros w; apply Htrace|intros _].
  apply (issues_eq req _ (l ++ [])); [|apply app_nil_r].
  apply issues_bind; [exact Hc|intros x].
  apply issues_bind_nil;
    [apply issues_modify; intros w; apply Htrace|intros _].
  apply issues_ret.
Qed.

(** A loop over [request_list] logs what its method logs for each object,
    one object after the other. *)
Lemma for_requests_logs {E} (req : World → list E)
    (log : VimeoDownload → list E) (m : method) (c : M St unit)
    (request_list : list VimeoDownload) (job : nat) :
  (∀ f w, req (with_trace f w) = req w) →
  (∀ o, issues req (call o c) (log o)) →
  issues req (for_requests m c request_list job)
    (concat (log <$> request_list)).
Proof.
  intros Htrace Hc. revert job.
  induction request_list as [|download rest IH]; intros job;
    [apply issues_ret|].
  cbn [for_requests fmap list_fmap concat].
  apply issues_bind; [apply issues_traced; [exact Htrace|apply Hc]|].
  intros [[] download'].
  apply (issues_eq req _ (concat (log <$> rest) ++ [])); [|apply app_nil_r].
  apply issues_bind; [apply IH|]. intros rest'. apply issues_ret.
Qed.

(** The objects of a loop that returns are those the method leaves. *)
Lemma for_requests_Return (after : VimeoDownload → VimeoDownload)
    (m : method) (c : M St unit) (request_list result : list VimeoDownload)
    (job : nat) (w w' : World) :
  (∀ s s', c s = (Return tt, s') → self s' = after (self s)) →
  for_requests m c request_list job w = (Return result, w') →
  result = after <$> request_list.
Proof.
  intros Hc. revert job w w' result.
  induction request_list as [|download rest IH]; intros job w w' result Hrun.
  - injection Hrun as <- _. reflexivity.
  - cbn [for_requests] in Hrun.
    apply bind_Return_inv in Hrun as ([[] download'] & w1 & Hcall & Hrun).
    apply bind_Return_inv in Hrun as (rest' & w2 & Hrest & Hrun).
    injection Hrun as <- _.
    apply traced_Return_inv in Hcall as (w0 & Hcall & _).
    apply call_Return_inv in Hcall as (s' & Hcall & <- & _).
    rewrite (Hc _ _ Hcall). cbn [self fmap list_fmap]. f_equal.
    exact (IH _ _ _ _ Hrest).
Qed.
End Phases.

(** ** The first loop: fetch and configuration *)

Section Configuration.
Context `{Env}.

(** A construction that returns has requested the manifest and the probe
    of its object. *)
Lemma init_requests (output u : string) (w w' : World) (o : VimeoDownload) :
  __init__ output u w = (Return o, w') →
  requests w' = requests w ++ fetch_requests o.
Proof.
  unfold __init__. intros Hrun.
  apply bind_Return_inv in Hrun as (m & w1 & Hget & Hrun).
  apply bind_Return_inv in Hrun as (b & w2 & Hgen & Hrun).
  injection Hrun as <- <-.
  destruct (issues_get_master_json u w) as (l & Hreq & Hl).
  rewrite Hget in Hreq, Hl. cbn in Hreq, Hl. subst l.
  destruct (MasterJson.video m) as [|tv tvs] eqn:Hvideo.
  { unfold generate_base_url in Hgen. rewrite Hvideo in Hgen. discriminate. }
  destruct (MasterJson.base_url m) as [top|] eqn:Htop.
  2:{ unfold generate_base_url in Hgen. rewrite Hvideo, Htop in Hgen.
      discriminate. }
  destruct (Video.segments tv) as [|sg sgs] eqn:Hsegments.
  { unfold generate_base_url in Hgen. rewrite Hvideo, Htop in Hgen.
    rewrite run_bind in Hgen. unfold lift at 1 in Hgen.
    change (getitem (tv :: tvs) 0) with (Return tv) in Hgen. cbv iota in Hgen.
    rewrite run_bind in Hgen. cbn [mret M_ret ret] in Hgen.
    rewrite Hsegments in Hgen. discriminate. }
  rewrite (generate_base_url_probe u top m tv tvs sg sgs w1 Htop Hvideo
             Hsegments) in Hgen.
  injection Hgen as <- <-.
  unfold fetch_requests, probe_url. cbn [master_json master_json_url].
  rewrite Htop, Hvideo, Hsegments. cbn [requests with_requests].
  rewrite Hreq, <- app_assoc. reflexivity.
Qed.

(** When the first loop returns, every row has its object, fetched and
    configured, and the requests made are those of the constructions, row
    after row. *)
Lemma parse_tsv_file_Return (rows : list (list string)) (job : nat)
    (w w1 : World) (configured : list VimeoDownload) :
  parse_tsv_file rows job w = (Return configured, w1) →
  Forall is_configured configured ∧
  requests w1 = requests w ++ concat (fetch_requests <$> configured).
Proof.
  revert job w w1 configured.
  induction rows as [|row rows IH]; intros job w w1 configured Hrun.
  - injection Hrun as <- <-. split; [constructor|].
    simpl. rewrite app_nil_r. reflexivity.
  - cbn [parse_tsv_file] in Hrun.
    apply bind_Return_inv in Hrun
      as ([[[video audio] output] u] & wa & Hrow & Hrun).
    unfold lift in Hrow. injection Hrow as _ <-.
    apply bind_Return_inv in Hrun as (download & wb & Hinit & Hrun).
    apply bind_Return_inv in Hrun as (video_quality & wc & Hvq & Hrun).
    unfold lift in Hvq. injection Hvq as _ <-.
    apply bind_Return_inv in Hrun as (audio_quality & wd & Haq & Hrun).
    unfold lift in Haq. injection Haq as _ <-.
    apply bind_Return_inv in Hrun as ([[] download'] & we & Hconf & Hrun).
    apply bind_Return_inv in Hrun as (rest & wf & Hrest & Hrun).
    injection Hrun as <- <-.
    apply traced_Return_inv in Hinit as (wb' & Hinit & ->).
    apply init_requests in Hinit. cbn [requests with_trace] in Hinit.
    apply traced_Return_inv in Hconf as (we' & Hconf & ->).
    apply call_Return_inv in Hconf as (s' & Hconf & <- & <-).
    match type of Hconf with
    | configure_quality _ _ _ ?s0 = _ =>
        pose proof (configure_quality_keeps requests true audio_quality
                      video_quality (λ _ _, eq_refl) (λ _ _, eq_refl) s0)
          as Hkept
    end.
    rewrite Hconf in Hkept. cbn [snd world requests with_trace] in Hkept.
    apply configure_quality_Return_inv in Hconf
      as (ia & a & iv & v & pre & _ & _ & Hself & _).
    cbn [self] in Hself.
    destruct (IH _ _ _ _ Hrest) as [Hall Hreq].
    cbn [requests with_trace] in Hreq. split.
    + constructor; [|exact Hall]. rewrite Hself. split; eexists; reflexivity.
    + rewrite Hreq, Hkept, Hinit. cbn [fmap list_fmap concat].
      rewrite Hself, <- app_assoc. reflexivity.
Qed.
End Configuration.

(** ** The second and third loops: download and mux *)

Lemma issues_raise_any {S A E} (req : S → list E) (e : exn) (u : list E) :
  issues req (@raise S A e) u.
Proof.
  intros s. exists []. rewrite app_nil_r. split; [reflexivity|].
  apply prefix_nil.
Qed.

Section DownloadAndMux.
Context `{Env}.

Lemma on_self_self (f : VimeoDownload → VimeoDownload) (s s1 : St)
    (r : outcome unit) :
  on_self f s = (r, s1) → self s1 = f (self s).
Proof. intros [= _ <-]. reflexivity. Qed.

(** A download that returns has set the names of the two track files,
    and nothing else, on its object. *)
Lemma download_audio_video_Return (s s' : St) :
  download_audio_video s = (Return tt, s') →
  self s' = downloaded_job (self s).
Proof.
  unfold download_audio_video, downloaded_job. rewrite run_bind. cbn [gets].
  destruct (audio_json (self s)) as [a|]; [|discriminate].
  destruct (video_json (self s)) as [v|]; [|discriminate].
  unfold download_tracks. intros Hrun.
  repeat match type of Hrun with
         | (_ ≫= _) _ = _ =>
             let Hstep := fresh "Hstep" in
             apply bind_Return_inv in Hrun as (? & ? & Hstep & Hrun);
             first [apply in_world_self in Hstep|apply on_self_self in Hstep]
         end.
  apply in_world_self in Hrun.
  repeat match goal with
         | Hstep : self _ = _ |- _ => rewrite Hstep; clear Hstep
         end.
  reflexivity.
Qed.

(** The requests of the download of an object. *)
Lemma call_download_requests (o : VimeoDownload) :
  issues requests (call o download_audio_video) (download_requests o).
Proof.
  intros w. unfold call, download_audio_video, download_requests.
  rewrite run_bind. cbn [gets self].
  destruct (audio_json o) as [a|]; [destruct (video_json o) as [v|]|].
  - destruct (issues_download_tracks o a v {| self := o; world := w |})
      as (l & Hreq & Hl).
    exists l. destruct (download_tracks o a v _) as [[[]|e] s']; done.
  - exists []. rewrite app_nil_r. split; [reflexivity|apply prefix_nil].
  - exists []. rewrite app_nil_r. split; [reflexivity|apply prefix_nil].
Qed.

Lemma issues_subprocess_call (command audio video output : string) :
  issues commands (subprocess_call command audio video output) [command].
Proof.
  unfold subprocess_call.
  apply (issues_bind commands _ _ [command] []).
  { intros w. exists [command]. done. }
  intros _. silent.
Qed.

(** The command of the mux of an object: it is run once the two track
    files are found, and no other is. *)
Lemma call_combine_commands (o : VimeoDownload) :
  issues commands (call o combine_audio_video) (mux_command o).
Proof.
  intros w. unfold call, mux_command.
  assert (∃ l,
            commands (world (snd (combine_audio_video
                                    {| self := o; world := w |})))
            = commands w ++ l ∧
            match fst (combine_audio_video {| self := o; world := w |}) with
            | Return _ =>
                l = match audio_file o, video_file o with
                    | Some af, Some vf => [ffmpeg_command af vf (output_file o)]
                    | _, _ => []
                    end
            | Raise _ =>
                l `prefix_of`
                  match audio_file o, video_file o with
                  | Some af, Some vf => [ffmpeg_command af vf (output_file o)]
                  | _, _ => []
                  end
            end) as (l & Hcommands & Hl).
  { unfold combine_audio_video. rewrite run_bind. cbn [gets self].
    destruct (audio_file o) as [af|]; [destruct (video_file o) as [vf|]|].
    2,3: exists []; rewrite app_nil_r; split; [reflexivity|apply prefix_nil].
    assert (issues (λ s, commands (world s))
              (has_audio ← in_world (path_exists af);
               has_video ← in_world (path_exists vf);
               if negb has_audio || negb has_video then
                 raise (ValueError
                   "Error: unable to find specified audio and video files to be combined.")
               else
                 in_world (print (newline +:+ "======== " +:+ output_filename o
                                  +:+ " ========"));;
                 in_world (print "---- combining audio and video ----");;
                 in_world (subprocess_call (ffmpeg_command af vf (output_file o))
                             af vf (output_file o));;
                 in_world (os_remove af);;
                 in_world (os_remove vf))
              [ffmpeg_command af vf (output_file o)]) as Hissues.
    { unfold path_exists, print, os_remove.
      do 2 (apply issues_bind_nil; [silent|intros ?]).
      destruct (negb _ || negb _); [apply issues_raise_any|].
      do 2 (apply issues_bind_nil; [silent|intros ?]).
      apply (issues_eq _ _ ([ffmpeg_command af vf (output_file o)] ++ []));
        [|reflexivity].
      apply issues_bind;
        [apply issues_in_world, issues_subprocess_call|intros ?].
      silent. }
    exact (Hissues {| self := o; world := w |}). }
  exists l. destruct (combine_audio_video _) as [[[]|e] s']; done.
Qed.
End DownloadAndMux.

(** ** The batch *)

(** C9: a batch is processed in phases.  Every row is fetched and
    configured before any track is downloaded: when the first loop ends,
    every row has its object with both renditions bound, the requests made
    are the manifests and probes of the rows, and no file has been
    touched and no command run; if a row fails, the batch ends there.
    Every job is downloaded before any is muxed: the second loop requests
    the segments of the jobs, one job after the other, and when it ends no
    command has been run and no menu shown since the first loop; if a
    download fails, the batch ends there, before any mux.  The third loop
    runs the mux commands of the jobs and makes no request.  The calls of
    the four methods follow that order too: the trace of [main] is a
    prefix of the phased trace of its rows (all of it when the batch runs
    to its end), in which the events of one job follow the order
    construction, configuration, download, mux, each call returning
    before the next begins. *)
Theorem batch_is_phased `{Env} (rows : list (list string)) (w : World) :
  (∃ t,
     trace (snd (main rows w)) = trace w ++ t ∧
     t `prefix_of` phased_trace (length rows) ∧
     ((∃ request_list, fst (main rows w) = Return request_list) →
      t = phased_trace (length rows)) ∧
     batch_phased t ∧
     job_sequential t) ∧
  match parse_tsv_file rows 0 w with
  | (Raise e, w1) =>
      main rows w = (Raise e, w1) ∧
      files w1 = files w ∧ handles w1 = handles w ∧ commands w1 = commands w
  | (Return configured, w1) =>
      length configured = length rows ∧
      Forall is_configured configured ∧
      requests w1 = requests w ++ concat (fetch_requests <$> configured) ∧
      files w1 = files w ∧ handles w1 = handles w ∧ commands w1 = commands w ∧
      match for_requests DownloadAudioVideo download_audio_video
              configured 0 w1 with
      | (Raise e, w2) =>
          main rows w = (Raise e, w2) ∧
          (∃ l, requests w2 = requests w1 ++ l ∧
                l `prefix_of` concat (download_requests <$> configured)) ∧
          menus w2 = menus w1 ∧ commands w2 = commands w
      | (Return downloaded, w2) =>
          downloaded = downloaded_job <$> configured ∧
          requests w2
            = requests w1 ++ concat (download_requests <$> configured) ∧
          menus w2 = menus w1 ∧ commands w2 = commands w ∧
          main rows w
            = for_requests CombineAudioVideo combine_audio_video
                downloaded 0 w2 ∧
          requests (snd (main rows w)) = requests w2 ∧
          menus (snd (main rows w)) = menus w2 ∧
          ∃ l, commands (snd (main rows w)) = commands w ++ l ∧
               l `prefix_of` concat (mux_command <$> downloaded) ∧
               ((∃ request_list, fst (main rows w) = Return request_list) →
                l = concat (mux_command <$> downloaded))
      end
  end.
Proof.
  split.
  { destruct (main_issues rows w) as (t & Htrace & Ht).
    assert (t `prefix_of` phased_trace (length rows)) as Hprefix.
    { destruct (fst (main rows w)); [by subst|done]. }
    pose proof (prefix_ordered _ _ Hprefix (phased_trace_ordered _))
      as Hsorted.
    exists t. split; [done|]. split; [done|]. split; [|split].
    - intros [request_list Hret]. rewrite Hret in Ht. exact Ht.
    - exact (ordered_batch_phased t Hsorted).
    - exact (ordered_job_sequential t Hsorted). }
  assert (files (snd (parse_tsv_file rows 0 w)) = files w) as Hfiles1
    by (apply (parse_tsv_file_keeps files); reflexivity).
  assert (handles (snd (parse_tsv_file rows 0 w)) = handles w) as Hhandles1
    by (apply (parse_tsv_file_keeps handles); reflexivity).
  assert (commands (snd (parse_tsv_file rows 0 w)) = commands w) as Hcommands1
    by (apply (parse_tsv_file_keeps commands); reflexivity).
  unfold main. rewrite run_bind.
  destruct (parse_tsv_file rows 0 w) as [[configured|e] w1] eqn:Hparse;
    cbn [snd] in Hfiles1, Hhandles1, Hcommands1; [|done].
  destruct (parse_tsv_file_Return _ _ _ _ _ Hparse) as [Hconfigured Hreq1].
  split; [exact (parse_tsv_file_length _ _ _ _ _ Hparse)|].
  do 5 (split; [done|]).
  assert (menus (snd (for_requests DownloadAudioVideo download_audio_video
                        configured 0 w1)) = menus w1) as Hmenus2.
  { apply (for_requests_keeps menus); [reflexivity|].
    apply (download_audio_video_keeps menus); reflexivity. }
  assert (commands (snd (for_requests DownloadAudioVideo download_audio_video
                           configured 0 w1)) = commands w1) as Hcommands2.
  { apply (for_requests_keeps commands); [reflexivity|].
    apply (download_audio_video_keeps commands); reflexivity. }
  destruct (for_requests_logs requests download_requests DownloadAudioVideo
              download_audio_video configured 0 (λ _ _, eq_refl)
              call_download_requests w1) as (l2 & Hreq2 & Hl2).
  rewrite run_bind.
  destruct (for_requests DownloadAudioVideo download_audio_video
              configured 0 w1) as [[downloaded|e] w2] eqn:Hdownload;
    cbn [fst snd] in Hmenus2, Hcommands2, Hreq2, Hl2.
  2:{ split; [reflexivity|]. split; [exists l2; done|].
      split; [done|congruence]. }
  subst l2.
  split.
  { apply (for_requests_Return downloaded_job _ _ _ _ _ _ _
             download_audio_video_Return Hdownload). }
  split; [done|]. split; [done|]. split; [congruence|].
  split; [reflexivity|]. split; [|split].
  - apply (for_requests_keeps requests); [reflexivity|].
    apply (combine_audio_video_keeps requests); reflexivity.
  - apply (for_requests_keeps menus); [reflexivity|].
    apply (combine_audio_video_keeps menus); reflexivity.
  - destruct (for_requests_logs commands mux_command CombineAudioVideo
                combine_audio_video downloaded 0 (λ _ _, eq_refl)
                call_combine_commands w2) as (l3 & Hcommands3 & Hl3).
    exists l3. split; [congruence|]. split.
    + destruct (fst (for_requests CombineAudioVideo _ _ _ _));
        [by subst|done].
    + intros [request_list Hret]. rewrite Hret in Hl3. exact Hl3.
Qed.

(** A batch of two jobs on the test double, where every answer is 200:
    the two manifests and probes come first, then the segments of the
    first job and those of the second, and the two mux commands are
    run. *)
Definition two_rows : list (list string) :=
  [["V720"; "HI"; "a.mp4"; "http://host/m/master.json"];
   ["V360"; "LOW"; "b.mp4"; "http://host/m/master.json"]].

Example two_job_batch :
  requests (snd (@main (Fake.env Fake.manifest 200 200 0 0) two_rows
                   Fake.empty_world))
  = ["http://host/m/master.json"; "http://host/m/../video/360/s1.m4s";
     "http://host/m/master.json"; "http://host/m/../video/360/s1.m4s";
     "http://host/m/../audio/256/s1.m4s"; "http://host/m/../audio/256/s2.m4s";
     "http://host/m/../video/720/s1.m4s"; "http://host/m/../video/720/s2.m4s";
     "http://host/m/../audio/96/s1.m4s"; "http://host/m/../audio/96/s2.m4s";
     "http://host/m/../video/360/s1.m4s"; "http://host/m/../video/360/s2.m4s"] ∧
  commands (snd (@main (Fake.env Fake.manifest 200 200 0 0) two_rows
                   Fake.empty_world))
  = [ffmpeg_command "/home/user/a_audio_a256.m4a"
       "/home/user/a_video_v720.mp4" "a.mp4";
     ffmpeg_command "/home/user/b_audio_a96.m4a"
       "/home/user/b_video_v360.mp4" "b.mp4"].
Proof. split; vm_compute; reflexivity. Qed.

(** The same batch when the last audio segment of the second job is
    refused: the batch ends with the error of that download and no mux
    has been run, not even that of the first job, whose two tracks are
    complete on disk. *)
Example two_job_batch_failed_download :
  fst (@main (refusing_env Fake.manifest "http://host/m/../audio/96/s2.m4s")
         two_rows Fake.empty_world) = Raise (HTTPError 404) ∧
  commands (snd (@main (refusing_env Fake.manifest
                          "http://host/m/../audio/96/s2.m4s")
                   two_rows Fake.empty_world)) = [] ∧
  is_Some (files (snd (@main (refusing_env Fake.manifest
                                "http://host/m/../audio/96/s2.m4s")
                         two_rows Fake.empty_world))
             !! "/home/user/a_audio_a256.m4a") ∧
  is_Some (files (snd (@main (refusing_env Fake.manifest
                                "http://host/m/../audio/96/s2.m4s")
                         two_rows Fake.empty_world))
             !! "/home/user/a_video_v720.mp4") ∧
  files (snd (@main (refusing_env Fake.manifest
                       "http://host/m/../audio/96/s2.m4s")
                two_rows Fake.empty_world)) !! "a.mp4" = None.
Proof. repeat split; vm_compute; eauto. Qed.
